(** * Virtual try-on: region masks, prompt builder and try-on orchestration

    A shallow embedding of [backend/utils/masking.py],
    [backend/utils/inference.py], [backend/utils/image_processor.py] and
    [config.py], and the properties of the specification checked against it.

    - [Float64], [PyFloat], [Float32]: the double- and single-precision
      arithmetic the Python code performs ([int(height * 0.15)],
      [masked / total * 100], [(width - size) / 2], [array / 255.0]).
    - [Np], [Cv2]: uint8 rasters and the OpenCV operations the masker calls.
    - [Config], [Masking], [MaskOverlay]: [SemanticMasker].
    - [Pil], [PilStore], [PilOps]: PIL images, as values and as objects in a
      store; [ImageProcessor], [ImageSquare], [ImageArrays], [ImageFilters],
      [Base64], [ImageBase64]: [ImageProcessor].
    - [Inference]: [_generate_prompt], [generate_try_on], [batch_try_on]. *)

From Stdlib Require Import ZArith Lia Bool Ascii String.
From stdpp Require Import base list strings gmap pretty.

Local Open Scope Z_scope.

(** ** Double-precision arithmetic *)

Module Float64.

(** A non-negative binary64 value [mant * 2 ^ expo].  Only the finite,
    non-negative range is modelled (no overflow or subnormals): the values
    here are image sizes, their fractions and percentages. *)
Record float := mk { mant : Z; expo : Z }.

(** Nearest integer to [N / D], ties to even (the IEEE-754 default
    rounding Python floats use). *)
Definition rne (N D : Z) : Z :=
  let q := N / D in
  let r := N mod D in
  if (D <? 2 * r) || ((2 * r =? D) && Z.odd q) then q + 1 else q.

(** Round the exact value [M * 2 ^ E] to 53 significant bits. *)
Definition round_mant (M E : Z) : float :=
  let s := Z.log2 M - 52 in
  if s <=? 0 then mk M E else mk (rne M (2 ^ s)) (E + s).

(** The double nearest to the exact quotient [n / d] of two positive
    integers: the 53-bit mantissa is the rounded quotient at the binade's
    scale. *)
Definition round_ratio (n d : Z) : float :=
  if n =? 0 then mk 0 0 else
  let e0 := Z.log2 n - Z.log2 d - 53 in
  let q0 := (n * 2 ^ Z.max 0 (- e0)) / (d * 2 ^ Z.max 0 e0) in
  let e := if q0 <? 2 ^ 53 then e0 else e0 + 1 in
  mk (rne (n * 2 ^ Z.max 0 (- e)) (d * 2 ^ Z.max 0 e)) e.

(** [float(k)] for a Python int. *)
Definition of_int (k : Z) : float := round_mant k 0.

(** A decimal literal [n/d] such as [0.15] = [literal 15 100]: the parser
    returns the nearest double. *)
Definition literal (n d : Z) : float := round_ratio n d.

(** [x * y] on floats. *)
Definition mul (x y : float) : float :=
  round_mant (mant x * mant y) (expo x + expo y).

(** [a / b] on Python ints (true division, correctly rounded);
    [None] is [ZeroDivisionError]. *)
Definition div_int (a b : Z) : option float :=
  if b =? 0 then None else Some (round_ratio a b).

(** [int(x)]: truncation, which is the floor on non-negative values. *)
Definition to_int (x : float) : Z :=
  (mant x * 2 ^ Z.max 0 (expo x)) / 2 ^ Z.max 0 (- expo x).

(** Comparison of the values of two floats, at their common scale. *)
Definition compare (x y : float) : comparison :=
  let e := Z.min (expo x) (expo y) in
  Z.compare (mant x * 2 ^ (expo x - e)) (mant y * 2 ^ (expo y - e)).

Definition eqb (x y : float) : bool :=
  match compare x y with Eq => true | _ => false end.

Definition leb (x y : float) : bool :=
  match compare x y with Gt => false | _ => true end.

Definition is_zero (x : float) : bool := mant x =? 0.

(** The literal [1.0]. *)
Definition one : float := mk 1 0.

End Float64.

(** The model agrees with the bit patterns CPython prints for these
    literals and products ([float.hex]). *)
Example literal_015 :
  Float64.literal 15 100 = Float64.mk 5404319552844595 (-55).
Proof. reflexivity. Qed.

Example literal_035 :
  Float64.literal 35 100 = Float64.mk 6305039478318694 (-54).
Proof. reflexivity. Qed.

(** [int(180 * 0.35)] is 62, not 63: the product rounds below 63. *)
Example int_180_times_035 :
  Float64.to_int (Float64.mul (Float64.of_int 180) (Float64.literal 35 100)) = 62.
Proof. reflexivity. Qed.

Example int_512_times_015 :
  Float64.to_int (Float64.mul (Float64.of_int 512) (Float64.literal 15 100)) = 76.
Proof. reflexivity. Qed.

Section Float64_facts.
Import Float64.

Lemma rne_cases N D : 0 < D ->
  (rne N D = N / D /\ 2 * (N mod D) <= D) \/
  (rne N D = N / D + 1 /\ D <= 2 * (N mod D)).
Proof.
  intros HD. unfold rne.
  destruct (Z.ltb_spec D (2 * (N mod D))); cbn [orb andb].
  - right. lia.
  - destruct (Z.eqb_spec (2 * (N mod D)) D); cbn [orb andb].
    + destruct (Z.odd (N / D)); [right | left]; lia.
    + left. lia.
Qed.

Lemma rne_exact N D : 0 < D -> N mod D = 0 -> rne N D = N / D.
Proof.
  intros HD H0. unfold rne. rewrite H0.
  destruct (Z.ltb_spec D (2 * 0)); [lia|].
  destruct (Z.eqb_spec (2 * 0) D); [lia|]. reflexivity.
Qed.

Lemma of_int_small h : 0 <= h < 2 ^ 53 -> of_int h = mk h 0.
Proof.
  intros H. unfold of_int, round_mant.
  destruct (Z.leb_spec (Z.log2 h - 52) 0) as [|Hs]; [reflexivity|].
  exfalso.
  assert (Z.log2 h < 53).
  { destruct (Z.eq_dec h 0) as [->|]; [simpl; lia | apply Z.log2_lt_pow2; lia]. }
  lia.
Qed.

Lemma to_int_neg m e : e <= 0 -> to_int (mk m e) = m / 2 ^ (- e).
Proof.
  intros He. unfold to_int; cbn [mant expo].
  rewrite Z.max_l by lia. rewrite Z.max_r by lia.
  change (2 ^ 0) with 1. now rewrite Z.mul_1_r.
Qed.

(** [int(h * c)] for a two-digit decimal fraction [c = p/100] whose double
    is [mc * 2 ^ -E]: the result is the exact floor of [p * h / 100] as long
    as the literal's representation error [eps] is small against the
    half-ulp, which is where [0.35] fails and [0.15] does not. *)
Lemma to_int_mul_pct p mc E eps h :
  2 ^ 52 <= mc < 2 ^ 53 -> 100 * mc = p * 2 ^ E + eps -> 0 < p < 100 ->
  53 <= E <= 60 -> -40 <= eps <= 40 ->
  (eps < 0 -> (2 ^ 54 + 1) * (- eps) <= p * 2 ^ E) ->
  0 <= h < 2 ^ 32 ->
  to_int (mul (of_int h) (mk mc (- E))) = p * h / 100.
Proof.
  intros Hmc Hlit Hp HE Heps Hneg Hh.
  rewrite of_int_small by lia.
  unfold mul; cbn [mant expo].
  destruct (Z.eq_dec h 0) as [->|Hh0].
  { rewrite Z.mul_0_r. reflexivity. }
  unfold round_mant.
  assert (HMh : 2 ^ 52 * h <= h * mc).
  { apply Z.le_trans with (h * 2 ^ 52); [lia | apply Z.mul_le_mono_nonneg_l; lia]. }
  assert (HMh' : h * mc <= 2 ^ 53 * h).
  { apply Z.le_trans with (h * 2 ^ 53); [apply Z.mul_le_mono_nonneg_l; lia | lia]. }
  assert (HhE : -40 * h <= h * eps <= 40 * h).
  { split.
    - apply Z.le_trans with (h * -40); [lia | apply Z.mul_le_mono_nonneg_l; lia].
    - apply Z.le_trans with (h * 40); [apply Z.mul_le_mono_nonneg_l; lia | lia]. }
  assert (H100 : 100 * (h * mc) = p * h * 2 ^ E + h * eps).
  { replace (100 * (h * mc)) with (h * (100 * mc)) by ring. rewrite Hlit. ring. }
  assert (HnegH : eps < 0 ->
            (2 ^ 54 + 1) * - (h * eps) <= p * h * 2 ^ E /\ h * eps < 0).
  { intros Hlt. specialize (Hneg Hlt). split.
    - replace ((2 ^ 54 + 1) * - (h * eps)) with (h * ((2 ^ 54 + 1) * - eps)) by ring.
      replace (p * h * 2 ^ E) with (h * (p * 2 ^ E)) by ring.
      apply Z.mul_le_mono_nonneg_l; lia.
    - apply Z.mul_pos_neg; lia. }
  set (M := h * mc) in *.
  assert (HM : 2 ^ 52 <= M < 2 ^ 85).
  { change (2 ^ 85) with (2 ^ 53 * 2 ^ 32).
    change (2 ^ 52) with 4503599627370496 in *.
    change (2 ^ 53) with 9007199254740992 in *. lia. }
  assert (HL := Z.log2_spec M ltac:(lia)).
  assert (HL85 : Z.log2 M < 85) by (apply Z.log2_lt_pow2; lia).
  assert (HL52 : 52 <= Z.log2 M) by (apply Z.log2_le_pow2; lia).
  assert (HTE : 2 ^ 53 <= 2 ^ E) by (apply Z.pow_le_mono_r; lia).
  destruct (Z.leb_spec (Z.log2 M - 52) 0) as [Hs|Hs].
  - (* the product needs no rounding: h = 1 *)
    assert (Z.log2 M = 52) as HL' by lia. rewrite HL' in HL.
    change (2 ^ Z.succ 52) with (2 ^ 53) in HL.
    assert (h = 1).
    { change (2 ^ 52) with 4503599627370496 in *.
      change (2 ^ 53) with 9007199254740992 in *. lia. }
    subst h.
    rewrite to_int_neg by lia.
    replace (- (0 + - E)) with E by lia.
    rewrite Z.div_small by lia.
    symmetry. apply Z.div_small. lia.
  - set (s := Z.log2 M - 52) in *.
    set (D := 2 ^ s).
    assert (HD : 0 < D) by (apply Z.pow_pos_nonneg; lia).
    assert (HDM : 2 ^ 52 * D <= M < 2 ^ 53 * D).
    { subst D. rewrite <- !Z.pow_add_r by lia.
      replace (52 + s) with (Z.log2 M) by (subst s; lia).
      replace (53 + s) with (Z.succ (Z.log2 M)) by (subst s; lia). exact HL. }
    rewrite to_int_neg by lia.
    replace (- (0 + - E + s)) with (E - s) by lia.
    set (P := 2 ^ (E - s)).
    assert (HP : 0 < P) by (apply Z.pow_pos_nonneg; lia).
    assert (HDP : 2 ^ E = D * P).
    { subst D P. rewrite <- Z.pow_add_r by lia. f_equal. lia. }
    rewrite HDP in *.
    pose proof (Z.div_mod (p * h) 100 ltac:(lia)) as HK.
    pose proof (Z.mod_pos_bound (p * h) 100 ltac:(lia)) as Hr.
    pose proof (rne_cases M D HD) as Hrne.
    pose proof (Z.div_mod M D ltac:(lia)) as HqD.
    set (K := p * h / 100) in *. set (r := (p * h) mod 100) in *.
    rewrite HK in H100, HnegH.
    assert (HrT : (r = 0 /\ r * (D * P) = 0) \/
                  (1 <= r /\ D * P <= r * (D * P) <= 99 * (D * P))).
    { destruct (Z.eq_dec r 0) as [->|]; [left; lia | right].
      split; [lia|]. split.
      - apply Z.le_trans with (1 * (D * P)); [lia | apply Z.mul_le_mono_nonneg_r; lia].
      - apply Z.mul_le_mono_nonneg_r; lia. }
    replace ((100 * K + r) * (D * P))
      with (100 * (D * (K * P)) + r * (D * P)) in H100, HnegH by ring.
    clearbody M D P K r. clear HL HL85 HL52 Hs s Hlit HK Hneg.
    change (2 ^ 52) with 4503599627370496 in *.
    change (2 ^ 53) with 9007199254740992 in *.
    change (2 ^ 54) with 18014398509481984 in *.
    change (2 ^ 85) with 38685626227668133590597632 in *.
    change (2 ^ 32) with 4294967296 in *.
    assert (HP2 : 2 <= P).
    { destruct (Z_lt_le_dec P 2); [|assumption].
      assert (P = 1) by lia. subst P. lia. }
    symmetry. apply Z.div_unique_pos with (r := rne M D - K * P); [|lia].
    destruct HrT as [[Hr0 HrT]|[Hr1 HrT]].
    + (* p * h is a multiple of 100: the product lies within half an ulp
         of the integer K and rounds to it, or just above it *)
      rewrite HrT in *.
      destruct (Z_lt_le_dec eps 0) as [Hlt|Hge].
      * destruct (HnegH Hlt) as [Hn1 Hn2].
        assert (Hq : M / D = K * P - 1).
        { symmetry. apply Z.div_unique_pos with (r := M - D * (K * P) + D); lia. }
        rewrite Hq in *. lia.
      * assert (Hq : M / D = K * P).
        { symmetry. apply Z.div_unique_pos with (r := M - D * (K * P)); lia. }
        rewrite Hq in *. lia.
    + (* otherwise the product is at least 1/100 away from any integer *)
      assert (K * P <= M / D) by (apply Z.div_le_lower_bound; lia).
      assert (M / D < (K + 1) * P - 1).
      { apply Z.div_lt_upper_bound; [lia|].
        replace (D * ((K + 1) * P - 1)) with (D * (K * P) + D * P - D) by ring.
        assert (100 * D <= D * P); [|lia].
        rewrite (Z.mul_comm D P). apply Z.mul_le_mono_nonneg_r; [lia|].
        destruct (Z_lt_le_dec P 100); [|assumption]. exfalso.
        assert (D * P <= D * 100) by (apply Z.mul_le_mono_nonneg_l; lia). lia. }
      lia.
Qed.

Lemma rne_le_of_le N D B : 0 < D → N ≤ B * D → rne N D ≤ B.
Proof.
  intros HD HN.
  pose proof (Z.div_mod N D ltac:(lia)) as Hdm.
  pose proof (Z.mod_pos_bound N D HD) as Hr.
  destruct (rne_cases N D HD) as [[-> _]|[-> Hup]].
  - apply Z.div_le_upper_bound; lia.
  - destruct (Z_lt_le_dec (N / D) B) as [|Hge]; [lia|]. exfalso.
    assert (D * B ≤ D * (N / D)) by (apply Z.mul_le_mono_nonneg_l; lia). lia.
Qed.

Lemma rne_ge_div N D : 0 < D → N / D ≤ rne N D.
Proof. intros HD. destruct (rne_cases N D HD) as [[-> _]|[-> _]]; lia. Qed.

(** The quotient of [0 < a ≤ b] rounds to a mantissa [m] at an exponent
    [e < 0] with [0 < m ≤ 2 ^ -e]: a value in (0, 1]. *)
Lemma round_ratio_unit a b :
  0 < a ≤ b →
  ∃ m e, round_ratio a b = mk m e ∧ e ≤ -52 ∧ 1 ≤ m ≤ 2 ^ (- e).
Proof.
  intros Hab. unfold round_ratio.
  destruct (Z.eqb_spec a 0); [lia|].
  pose proof (Z.log2_spec a ltac:(lia)) as Ha.
  pose proof (Z.log2_spec b ltac:(lia)) as Hb.
  assert (Hl : Z.log2 a ≤ Z.log2 b) by (apply Z.log2_le_mono; lia).
  pose proof (Z.log2_nonneg a) as Hla.
  set (la := Z.log2 a) in *. set (lb := Z.log2 b) in *.
  set (e0 := la - lb - 53).
  match goal with |- context [if ?c then e0 else e0 + 1] =>
    set (e := if c then e0 else e0 + 1) end.
  assert (He : e0 ≤ e ≤ e0 + 1) by (subst e; case_match; lia).
  exists (rne (a * 2 ^ Z.max 0 (- e)) (b * 2 ^ Z.max 0 e)), e.
  split; [done|]. split; [lia|].
  rewrite (Z.max_r 0 (- e)) by lia. rewrite (Z.max_l 0 e) by lia.
  change (2 ^ 0) with 1. rewrite Z.mul_1_r.
  assert (HT : 0 < 2 ^ (- e)) by (apply Z.pow_pos_nonneg; lia).
  split.
  - etrans; [|apply rne_ge_div; lia].
    apply Z.div_le_lower_bound; [lia|]. rewrite Z.mul_1_r.
    (* a * 2 ^ -e ≥ 2 ^ la * 2 ^ (52 + lb - la) = 2 ^ (52 + lb) > b *)
    assert (2 ^ (52 + lb - la) ≤ 2 ^ (- e)) by (apply Z.pow_le_mono_r; lia).
    assert (2 ^ la * 2 ^ (52 + lb - la) ≤ a * 2 ^ (- e)).
    { apply Z.mul_le_mono_nonneg; lia. }
    rewrite <- Z.pow_add_r in * by lia.
    replace (la + (52 + lb - la)) with (52 + lb) in * by lia.
    assert (2 ^ Z.succ lb ≤ 2 ^ (52 + lb)) by (apply Z.pow_le_mono_r; lia).
    lia.
  - apply rne_le_of_le; [lia|].
    rewrite (Z.mul_comm (2 ^ (- e)) b).
    apply Z.mul_le_mono_nonneg_r; lia.
Qed.

(** [(a / b) * 100] for [0 < a ≤ b]: a mantissa [m] at an exponent
    [e ≤ 0] with [0 < m ≤ 100 * 2 ^ -e], so a value in (0, 100]. *)
Lemma percentage_unit a b :
  0 < a ≤ b →
  ∃ m e, mul (round_ratio a b) (of_int 100) = mk m e ∧
         e ≤ 0 ∧ 1 ≤ m ≤ 100 * 2 ^ (- e).
Proof.
  intros Hab.
  destruct (round_ratio_unit a b Hab) as (m & e & -> & He & Hm).
  rewrite of_int_small by done. unfold mul; cbn [mant expo].
  rewrite Z.add_0_r. unfold round_mant.
  assert (HT : 0 < 2 ^ (- e)) by (apply Z.pow_pos_nonneg; lia).
  destruct (Z.leb_spec (Z.log2 (m * 100) - 52) 0) as [Hs|Hs].
  - exists (m * 100), e. split; [done|]. lia.
  - set (M := m * 100) in *. set (s := Z.log2 M - 52) in *.
    pose proof (Z.log2_spec M ltac:(lia)) as HL.
    assert (HsE : s ≤ - e - 46).
    { assert (Z.log2 M < 7 + - e); [|lia].
      apply Z.log2_lt_pow2; [lia|].
      rewrite Z.pow_add_r by lia. change (2 ^ 7) with 128. lia. }
    assert (HD : 0 < 2 ^ s) by (apply Z.pow_pos_nonneg; lia).
    assert (HU : 2 ^ (- e) = 2 ^ (- (e + s)) * 2 ^ s).
    { rewrite <- Z.pow_add_r by lia. f_equal. lia. }
    exists (rne M (2 ^ s)), (e + s). split; [done|]. split; [lia|]. split.
    + etrans; [|apply rne_ge_div; lia].
      apply Z.div_le_lower_bound; [lia|]. rewrite Z.mul_1_r.
      replace (Z.log2 M) with (52 + s) in HL by lia.
      rewrite Z.pow_add_r in HL by lia.
      assert (1 * 2 ^ s ≤ 2 ^ 52 * 2 ^ s)
        by (apply Z.mul_le_mono_nonneg_r; lia).
      lia.
    + apply rne_le_of_le; [lia|]. rewrite <- Z.mul_assoc, <- HU. lia.
Qed.

Lemma leb_mk m e m' : e ≤ 0 → leb (mk m e) (mk m' 0) = (m <=? m' * 2 ^ (- e)).
Proof.
  intros He. unfold leb, compare; cbn [mant expo].
  rewrite Z.min_l by lia. rewrite Z.sub_diag, Z.sub_0_l.
  change (2 ^ 0) with 1. rewrite Z.mul_1_r.
  destruct (Z.compare_spec m (m' * 2 ^ (- e))); symmetry;
    [apply Z.leb_le | apply Z.leb_le | apply Z.leb_gt]; lia.
Qed.

(** The coverage computation [(masked / total) * 100] stays within
    [0, 100] and is zero only for [masked = 0]. *)
Lemma percentage_bounds a b :
  0 ≤ a ≤ b → 0 < b →
  let c := mul (round_ratio a b) (of_int 100) in
  leb (of_int 0) c = true ∧ leb c (of_int 100) = true ∧
  (is_zero c = true ↔ a = 0).
Proof.
  intros Hab Hb c. subst c.
  destruct (Z.eq_dec a 0) as [->|Ha].
  { vm_compute. repeat split; done. }
  destruct (percentage_unit a b ltac:(lia)) as (m & e & -> & He & Hm).
  rewrite !of_int_small by done.
  assert (HT : 0 < 2 ^ (- e)) by (apply Z.pow_pos_nonneg; lia).
  split; [|split].
  - unfold leb, compare; cbn [mant expo]. rewrite Z.min_r by lia.
    rewrite Z.sub_diag. change (2 ^ 0) with 1. rewrite Z.mul_0_l.
    destruct (Z.compare_spec 0 (m * 1)); try done. lia.
  - rewrite leb_mk by done. apply Z.leb_le. lia.
  - unfold is_zero; cbn [mant]. split; [|done].
    intros ?%Z.eqb_eq. lia.
Qed.

(** Full coverage: [(n / n) * 100] is exactly 100. *)
Lemma percentage_full n :
  0 < n → mul (round_ratio n n) (of_int 100) = mk (100 * 2 ^ 46) (-46).
Proof.
  intros Hn. unfold round_ratio.
  destruct (Z.eqb_spec n 0); [lia|].
  replace (Z.log2 n - Z.log2 n - 53) with (-53) by lia.
  change (Z.max 0 (- -53)) with 53. change (Z.max 0 (-53)) with 0.
  change (2 ^ 0) with 1. rewrite Z.mul_1_r.
  rewrite (Z.mul_comm n (2 ^ 53)), Z.div_mul by lia.
  change (2 ^ 53 <? 2 ^ 53) with false. cbv iota.
  change (Z.max 0 (- (-53 + 1))) with 52. change (Z.max 0 (-53 + 1)) with 0.
  change (2 ^ 0) with 1. rewrite Z.mul_1_r.
  rewrite rne_exact by (lia || (rewrite Z.mul_comm; apply Z.mod_mul; lia)).
  rewrite (Z.mul_comm n (2 ^ 52)), Z.div_mul by lia.
  reflexivity.
Qed.

(** The fractions of the region table other than [0.35], and [int] of
    their products with a side length below [2 ^ 32]. *)
Definition exact_percentages : list Z :=
  [15; 20; 25; 40; 45; 50; 55; 60; 65; 75; 80; 85; 90].

Lemma to_int_mul_literal p h :
  p ∈ exact_percentages → 0 ≤ h < 2 ^ 32 →
  to_int (mul (of_int h) (literal p 100)) = p * h / 100.
Proof.
  intros Hp Hh. unfold exact_percentages in Hp.
  repeat (apply elem_of_cons in Hp as [->|Hp]);
    [..|by apply elem_of_nil in Hp];
    match goal with |- context [literal ?p 100] =>
      let v := eval vm_compute in (literal p 100) in
      change (literal p 100) with v;
      match v with
      | mk ?mc ?e =>
          let E := eval vm_compute in (- e) in
          let eps := eval vm_compute in (100 * mc - p * 2 ^ E) in
          apply (to_int_mul_pct p mc E eps h)
      end
    end; try lia; try reflexivity; try (intros _; vm_compute; congruence);
    vm_compute; split; congruence.
Qed.

End Float64_facts.

(** ** NumPy arrays: two-dimensional uint8 rasters *)

Module Np.

(** A 2-D array as its list of rows; a mask holds values [0..255]. *)
Abbreviation ndarray := (list (list Z)) (only parsing).

(** [a.shape] as [(rows, columns)]. *)
Definition shape (a : ndarray) : Z * Z :=
  (Z.of_nat (length a), Z.of_nat (length (default [] (head a)))).

(** [a[y][x]], [None] outside the array. *)
Definition get (a : ndarray) (y x : Z) : option Z :=
  if bool_decide (0 ≤ y ∧ 0 ≤ x)
  then a !! Z.to_nat y ≫= λ row, row !! Z.to_nat x
  else None.

(** The array of shape [(h, w)] holding [f y x] at row [y], column [x]. *)
Definition tabulate (h w : Z) (f : Z → Z → Z) : ndarray :=
  (λ y, f y <$> seqZ 0 w) <$> seqZ 0 h.

(** [np.zeros((h, w), dtype=np.uint8)]. *)
Definition zeros (h w : Z) : ndarray := tabulate h w (λ _ _, 0).

(** [a.size]. *)
Definition size (a : ndarray) : Z := Z.of_nat (length (concat a)).

(** [np.count_nonzero(a)]. *)
Definition count_nonzero (a : ndarray) : Z :=
  Z.of_nat (length (filter (λ v, v ≠ 0) (concat a))).

(** A well-formed uint8 array of [h] rows and [w] columns. *)
Definition is_uint8 (h w : Z) (a : ndarray) : Prop :=
  Z.of_nat (length a) = h ∧
  Forall (λ row, Z.of_nat (length row) = w ∧ Forall (λ v, 0 ≤ v ≤ 255) row) a.

End Np.

(** Membership in a list given by its elements. *)
Ltac in_list :=
  repeat first [apply list_elem_of_here | apply list_elem_of_further].

Section Np_facts.
Import Np.
Implicit Types (a : ndarray) (f g : Z → Z → Z).

Lemma length_tabulate h w f : length (tabulate h w f) = Z.to_nat h.
Proof. unfold tabulate. by rewrite length_fmap, length_seqZ. Qed.

Lemma tabulate_lookup h w f (i : nat) :
  Z.of_nat i < h → tabulate h w f !! i = Some (f (Z.of_nat i) <$> seqZ 0 w).
Proof.
  intros Hi. unfold tabulate. rewrite list_lookup_fmap, lookup_seqZ_lt by done.
  simpl. by rewrite Z.add_0_l.
Qed.

Lemma get_tabulate h w f y x :
  0 ≤ y < h → 0 ≤ x < w → get (tabulate h w f) y x = Some (f y x).
Proof.
  intros Hy Hx. unfold get. rewrite bool_decide_eq_true_2 by lia.
  rewrite tabulate_lookup by lia. simpl.
  rewrite list_lookup_fmap, lookup_seqZ_lt by lia. simpl.
  rewrite !Z2Nat.id by lia. by rewrite Z.add_0_l.
Qed.

Lemma get_tabulate_Some h w f y x v :
  get (tabulate h w f) y x = Some v → 0 ≤ y < h ∧ 0 ≤ x < w ∧ v = f y x.
Proof.
  unfold get. case_bool_decide as Hyx; [|done].
  destruct (decide (y < h)) as [Hy|Hy].
  - rewrite tabulate_lookup by lia. simpl.
    rewrite list_lookup_fmap.
    destruct (decide (x < w)) as [Hx|Hx].
    + rewrite lookup_seqZ_lt by lia. simpl. rewrite !Z2Nat.id by lia.
      rewrite Z.add_0_l. intros [= <-]. lia.
    + rewrite lookup_seqZ_ge by lia. done.
  - unfold tabulate. rewrite list_lookup_fmap, lookup_seqZ_ge by lia. done.
Qed.

Lemma shape_tabulate h w f :
  0 < h → 0 ≤ w → shape (tabulate h w f) = (h, w).
Proof.
  intros Hh Hw. unfold shape. rewrite length_tabulate.
  unfold tabulate. rewrite (seqZ_cons 0 h) by lia. simpl.
  rewrite length_fmap, length_seqZ. f_equal; lia.
Qed.

Lemma tabulate_ext h w f g :
  (∀ y x, 0 ≤ y < h → 0 ≤ x < w → f y x = g y x) →
  tabulate h w f = tabulate h w g.
Proof.
  intros Hfg. unfold tabulate.
  apply list_fmap_ext. intros i y Hy.
  apply lookup_seqZ in Hy as [-> Hi].
  apply list_fmap_ext. intros j x Hx.
  apply lookup_seqZ in Hx as [-> Hj].
  apply Hfg; lia.
Qed.

Lemma is_uint8_tabulate h w f :
  0 ≤ h → 0 ≤ w →
  (∀ y x, 0 ≤ y < h → 0 ≤ x < w → 0 ≤ f y x ≤ 255) →
  is_uint8 h w (tabulate h w f).
Proof.
  intros Hh Hw Hf. split.
  - rewrite length_tabulate. lia.
  - unfold tabulate. apply Forall_fmap, Forall_seqZ. intros y Hy. simpl. split.
    + rewrite length_fmap, length_seqZ. lia.
    + apply Forall_fmap, Forall_seqZ. intros x Hx. simpl. apply Hf; lia.
Qed.

(** A well-formed array is the table of its own entries. *)
Lemma is_uint8_tabulate_get h w a :
  is_uint8 h w a → a = tabulate h w (λ y x, default 0 (get a y x)).
Proof.
  intros [Hlen Hrows]. apply list_eq. intros i.
  destruct (decide (Z.of_nat i < h)) as [Hi|Hi].
  - rewrite tabulate_lookup by done.
    destruct (lookup_lt_is_Some_2 a i ltac:(lia)) as [row Hrow].
    rewrite Hrow. f_equal.
    rewrite Forall_lookup in Hrows. destruct (Hrows _ _ Hrow) as [Hw _].
    apply list_eq. intros j. rewrite list_lookup_fmap.
    destruct (decide (Z.of_nat j < w)) as [Hj|Hj].
    + rewrite lookup_seqZ_lt by done. simpl.
      destruct (lookup_lt_is_Some_2 row j ltac:(lia)) as [v Hv].
      rewrite Hv. f_equal. unfold get.
      rewrite bool_decide_eq_true_2 by lia.
      rewrite Z.add_0_l, !Nat2Z.id, Hrow. simpl. by rewrite Hv.
    + rewrite lookup_seqZ_ge by lia. simpl.
      apply lookup_ge_None_2. lia.
  - unfold tabulate. rewrite list_lookup_fmap, lookup_seqZ_ge by lia. simpl.
    apply lookup_ge_None_2. lia.
Qed.

Lemma is_uint8_get h w a y x :
  is_uint8 h w a → 0 ≤ y < h → 0 ≤ x < w →
  ∃ v, get a y x = Some v ∧ 0 ≤ v ≤ 255.
Proof.
  intros [Hlen Hrows] Hy Hx. unfold get.
  rewrite bool_decide_eq_true_2 by lia.
  destruct (lookup_lt_is_Some_2 a (Z.to_nat y) ltac:(lia)) as [row Hrow].
  rewrite Hrow. simpl.
  rewrite Forall_lookup in Hrows. destruct (Hrows _ _ Hrow) as [Hw Hv].
  destruct (lookup_lt_is_Some_2 row (Z.to_nat x) ltac:(lia)) as [v Hvx].
  exists v. split; [done|].
  rewrite Forall_lookup in Hv. eauto.
Qed.

Lemma is_uint8_get_Some h w a y x v :
  is_uint8 h w a → get a y x = Some v → 0 ≤ y < h ∧ 0 ≤ x < w ∧ 0 ≤ v ≤ 255.
Proof.
  intros [Hlen Hrows]. unfold get. case_bool_decide as Hyx; [|done].
  destruct (a !! Z.to_nat y) as [row|] eqn:Hrow; [|done]. simpl. intros Hv.
  apply lookup_lt_Some in Hrow as Hlt.
  rewrite Forall_lookup in Hrows. destruct (Hrows _ _ Hrow) as [Hw Hall].
  apply lookup_lt_Some in Hv as Hlt'.
  rewrite Forall_lookup in Hall. specialize (Hall _ _ Hv). lia.
Qed.

Lemma is_uint8_shape h w a : 0 < h → is_uint8 h w a → shape a = (h, w).
Proof.
  intros Hh [Hlen Hrows]. unfold shape. rewrite Hlen. f_equal.
  destruct a as [|row a]; [simpl in Hlen; lia|]. simpl.
  by apply Forall_cons in Hrows as [[-> _] _].
Qed.

(** Two arrays of the same shape with the same entries are equal. *)
Lemma ndarray_ext h w a b :
  is_uint8 h w a → is_uint8 h w b →
  (∀ y x, 0 ≤ y < h → 0 ≤ x < w → get a y x = get b y x) → a = b.
Proof.
  intros Ha Hb Hab.
  rewrite (is_uint8_tabulate_get h w a Ha), (is_uint8_tabulate_get h w b Hb).
  apply tabulate_ext. intros y x Hy Hx. by rewrite Hab.
Qed.

Lemma elem_of_concat (ls : list (list Z)) v :
  v ∈ concat ls ↔ ∃ l, v ∈ l ∧ l ∈ ls.
Proof.
  induction ls as [|l ls IH]; simpl.
  - split; [by intros ?%elem_of_nil | by intros (? & _ & ?%elem_of_nil)].
  - rewrite elem_of_app, IH. split.
    + intros [Hv|(l' & Hv & Hl')]; [exists l | exists l']; split; try done;
        [left | by right].
    + intros (l' & Hv & Hl'). apply elem_of_cons in Hl' as [->|Hl']; eauto.
Qed.

Lemma elem_of_concat_get a v :
  v ∈ concat a ↔ ∃ y x, get a y x = Some v.
Proof.
  rewrite elem_of_concat. split.
  - intros (row & Hv & Hrow).
    apply list_elem_of_lookup in Hrow as [i Hi].
    apply list_elem_of_lookup in Hv as [j Hj].
    exists (Z.of_nat i), (Z.of_nat j). unfold get.
    rewrite bool_decide_eq_true_2 by lia.
    rewrite !Nat2Z.id, Hi. simpl. done.
  - intros (y & x & Hget). unfold get in Hget.
    case_bool_decide; [|done].
    destruct (a !! Z.to_nat y) as [row|] eqn:Hrow; [|done]. simpl in Hget.
    exists row. split; eapply list_elem_of_lookup_2; eauto.
Qed.

Lemma count_nonzero_le_size a : 0 ≤ count_nonzero a ≤ size a.
Proof.
  unfold count_nonzero, size.
  pose proof (length_filter (λ v : Z, v ≠ 0) (concat a)). lia.
Qed.

(** The count is positive exactly when some entry is non-zero. *)
Lemma count_nonzero_pos a :
  0 < count_nonzero a ↔ ∃ y x v, get a y x = Some v ∧ v ≠ 0.
Proof.
  unfold count_nonzero. split.
  - intros Hpos.
    destruct (filter (λ v : Z, v ≠ 0) (concat a)) as [|v l] eqn:Hf;
      [simpl in Hpos; lia|].
    assert (v ∈ filter (λ v : Z, v ≠ 0) (concat a)) as Hv
      by (rewrite Hf; left).
    apply list_elem_of_filter in Hv as [Hne Hin].
    apply elem_of_concat_get in Hin as (y & x & Hget). eauto.
  - intros (y & x & v & Hget & Hne).
    assert (v ∈ filter (λ v : Z, v ≠ 0) (concat a)) as Hv.
    { apply list_elem_of_filter. split; [done|].
      apply elem_of_concat_get. eauto. }
    destruct (filter (λ v : Z, v ≠ 0) (concat a)); [by apply elem_of_nil in Hv|].
    simpl. lia.
Qed.

Lemma count_nonzero_zero a :
  count_nonzero a = 0 ↔ ∀ y x v, get a y x = Some v → v = 0.
Proof.
  pose proof (count_nonzero_le_size a) as [H0 _].
  pose proof (count_nonzero_pos a) as Hpos. split.
  - intros Hz y x v Hget. destruct (decide (v = 0)) as [|Hne]; [done|].
    assert (0 < count_nonzero a) by (apply Hpos; eauto). lia.
  - intros Hall. destruct (decide (count_nonzero a = 0)) as [|Hne]; [done|].
    assert (0 < count_nonzero a) as Hp by lia.
    apply Hpos in Hp as (y & x & v & Hget & Hv). by apply Hall in Hget.
Qed.

Lemma length_concat_fmap {A} (g : A → list Z) (l : list A) (n : nat) :
  (∀ y, length (g y) = n) → length (concat (g <$> l)) = (length l * n)%nat.
Proof.
  intros Hg. induction l as [|y l IH]; [done|].
  rewrite fmap_cons. cbn [concat length Nat.mul].
  rewrite length_app, Hg, IH. done.
Qed.

Lemma size_tabulate h w f : 0 ≤ h → 0 ≤ w → size (tabulate h w f) = h * w.
Proof.
  intros Hh Hw. unfold size, tabulate.
  rewrite (length_concat_fmap _ _ (Z.to_nat w)).
  - rewrite length_seqZ. lia.
  - intros y. by rewrite length_fmap, length_seqZ.
Qed.

Lemma size_is_uint8 h w a : 0 ≤ w → is_uint8 h w a → size a = h * w.
Proof.
  intros Hw Ha. pose proof Ha as [Hlen _].
  rewrite (is_uint8_tabulate_get h w a Ha) at 1.
  apply size_tabulate; lia.
Qed.

(** An array without zero entries counts every entry. *)
Lemma count_nonzero_all a :
  (∀ y x v, get a y x = Some v → v ≠ 0) → count_nonzero a = size a.
Proof.
  intros Hall. unfold count_nonzero, size. f_equal. f_equal.
  assert (Forall (λ v, v ≠ 0) (concat a)) as HF.
  { apply Forall_forall. intros v Hv.
    apply elem_of_concat_get in Hv as (y & x & Hget). eauto. }
  induction HF as [|v l Hv HF IH]; [done|].
  rewrite filter_cons_True by done. by rewrite IH.
Qed.

End Np_facts.

(** ** The OpenCV operations used by the masker *)

Module Cv2.
Import Np.

(** The entry at [(y, x)], 0 outside the array. *)
Definition pix (a : ndarray) (y x : Z) : Z := default 0 (get a y x).

(** [cv2.rectangle(img, pt1, pt2, color, -1)]: the filled rectangle with
    opposite corners [pt1 = (x1, y1)] and [pt2 = (x2, y2)], both corners
    included, clipped to the image. *)
Definition rectangle (img : ndarray) (pt1 pt2 : Z * Z) (color : Z) : ndarray :=
  tabulate (shape img).1 (shape img).2 (λ y x,
    if bool_decide (Z.min pt1.1 pt2.1 ≤ x ≤ Z.max pt1.1 pt2.1 ∧
                    Z.min pt1.2 pt2.2 ≤ y ≤ Z.max pt1.2 pt2.2)
    then color else pix img y x).

(** [cv2.getStructuringElement(cv2.MORPH_ELLIPSE, (kw, kh))]: row [i] is
    set on the columns [c - dx .. c + dx], with [dx] the rounded half-width
    [c * sqrt ((r*r - dy*dy) / (r*r))] of the inscribed ellipse. *)
Definition getStructuringElement (ksize : Z * Z) : ndarray :=
  let kw := ksize.1 in
  let kh := ksize.2 in
  let r := kh / 2 in
  let c := kw / 2 in
  tabulate kh kw (λ i j,
    let dy := i - r in
    if bool_decide (Z.abs dy ≤ r) then
      let dx := if r =? 0 then 0
                else (Z.sqrt (4 * c * c * (r * r - dy * dy) / (r * r)) + 1) / 2 in
      let j1 := Z.max (c - dx) 0 in
      let j2 := Z.min (c + dx + 1) kw in
      if bool_decide (j1 ≤ j < j2) then 1 else 0
    else 0).

(** The non-zero positions of a kernel, relative to its anchor (the
    centre, OpenCV's default), as [(dy, dx)]. *)
Definition anchor_offsets (kernel : ndarray) : list (Z * Z) :=
  let kh := (shape kernel).1 in
  let kw := (shape kernel).2 in
  i ← seqZ 0 kh;
  j ← seqZ 0 kw;
  if bool_decide (pix kernel i j ≠ 0) then [(i - kh / 2, j - kw / 2)] else [].

(** The source pixels under the kernel placed at [(y, x)]; positions
    outside the image do not take part (the default constant border of the
    morphological operations never wins the max or the min). *)
Definition window (src : ndarray) (offs : list (Z * Z)) (y x : Z) : list Z :=
  omap (λ d, get src (y + d.1) (x + d.2)) offs.

Definition dilate_once (src kernel : ndarray) : ndarray :=
  tabulate (shape src).1 (shape src).2 (λ y x,
    foldr Z.max 0 (window src (anchor_offsets kernel) y x)).

Definition erode_once (src kernel : ndarray) : ndarray :=
  tabulate (shape src).1 (shape src).2 (λ y x,
    foldr Z.min 255 (window src (anchor_offsets kernel) y x)).

(** [cv2.dilate(src, kernel, iterations=n)]. *)
Definition dilate (src kernel : ndarray) (iterations : nat) : ndarray :=
  Nat.iter iterations (λ m, dilate_once m kernel) src.

(** [cv2.erode(src, kernel, iterations=n)]. *)
Definition erode (src kernel : ndarray) (iterations : nat) : ndarray :=
  Nat.iter iterations (λ m, erode_once m kernel) src.

Inductive MorphTypes := MORPH_OPEN | MORPH_CLOSE.

(** [cv2.morphologyEx(src, op, kernel, iterations=n)]. *)
Definition morphologyEx (src : ndarray) (op : MorphTypes) (kernel : ndarray)
    (iterations : nat) : ndarray :=
  match op with
  | MORPH_OPEN => dilate (erode src kernel iterations) kernel iterations
  | MORPH_CLOSE => erode (dilate src kernel iterations) kernel iterations
  end.

(** [cv2.borderInterpolate(p, len, cv2.BORDER_REFLECT_101)], the default
    border of the filters: [gfedcb|abcdefgh|gfedcba]. *)
Definition borderInterpolate (p len : Z) : Z :=
  if len =? 1 then 0
  else
    let m := 2 * (len - 1) in
    let r := p mod m in
    if r <? len then r else m - r.

(** The taps [(offset, weight)] of the Gaussian kernel OpenCV uses for a
    uint8 image when sigma is 0 and the aperture is 1, 3, 5 or 7, in its
    fixed-point form (weights in 1/256). *)
Definition gaussian_taps (ksize : Z) : list (Z * Z) :=
  match ksize with
  | 1 => [(0, 256)]
  | 3 => [(-1, 64); (0, 128); (1, 64)]
  | 5 => [(-2, 16); (-1, 64); (0, 96); (1, 64); (2, 16)]
  | 7 => [(-3, 8); (-2, 28); (-1, 56); (0, 72); (1, 56); (2, 28); (3, 8)]
  | _ => []
  end.

Definition sumZ (l : list Z) : Z := foldr Z.add 0 l.

(** The separable convolution at [(y, x)], in 1/65536. *)
Definition convolve (src : ndarray) (ky kx : list (Z * Z)) (y x : Z) : Z :=
  let h := (shape src).1 in
  let w := (shape src).2 in
  sumZ ((λ ty, sumZ ((λ tx,
    ty.2 * tx.2 *
    pix src (borderInterpolate (y + ty.1) h) (borderInterpolate (x + tx.1) w))
    <$> kx)) <$> ky).

(** [cv2.GaussianBlur(src, ksize, 0)] on a uint8 image: the convolution
    rounded to the nearest integer and saturated. *)
Definition GaussianBlur (src : ndarray) (ksize : Z * Z) : ndarray :=
  tabulate (shape src).1 (shape src).2 (λ y x,
    Z.min 255
      ((convolve src (gaussian_taps ksize.2) (gaussian_taps ksize.1) y x
        + 2 ^ 15) / 2 ^ 16)).

End Cv2.

(** The 5x5 elliptical kernel is the familiar one. *)
Example ellipse_5x5 :
  Cv2.getStructuringElement (5, 5) =
  [[0; 0; 1; 0; 0];
   [1; 1; 1; 1; 1];
   [1; 1; 1; 1; 1];
   [1; 1; 1; 1; 1];
   [0; 0; 1; 0; 0]].
Proof. reflexivity. Qed.

Example ellipse_15x15_rows :
  (λ row, Np.count_nonzero [row]) <$> Cv2.getStructuringElement (15, 15) =
  [1; 9; 11; 13; 13; 15; 15; 15; 15; 15; 13; 13; 11; 9; 1].
Proof. reflexivity. Qed.

Example rectangle_inclusive :
  Cv2.rectangle (Np.zeros 4 5) (1, 1) (3, 2) 255 =
  [[0; 0; 0; 0; 0];
   [0; 255; 255; 255; 0];
   [0; 255; 255; 255; 0];
   [0; 0; 0; 0; 0]].
Proof. reflexivity. Qed.

Example dilate_point :
  Cv2.dilate (Cv2.rectangle (Np.zeros 5 5) (2, 2) (2, 2) 255)
             (Cv2.getStructuringElement (3, 3)) 1 =
  [[0; 0; 0; 0; 0];
   [0; 0; 255; 0; 0];
   [0; 255; 255; 255; 0];
   [0; 0; 255; 0; 0];
   [0; 0; 0; 0; 0]].
Proof. reflexivity. Qed.

Example blur_point :
  Cv2.GaussianBlur (Cv2.rectangle (Np.zeros 7 7) (3, 3) (3, 3) 255) (5, 5) =
  [[0; 0; 0; 0; 0; 0; 0];
   [0; 1; 4; 6; 4; 1; 0];
   [0; 4; 16; 24; 16; 4; 0];
   [0; 6; 24; 36; 24; 6; 0];
   [0; 4; 16; 24; 16; 4; 0];
   [0; 1; 4; 6; 4; 1; 0];
   [0; 0; 0; 0; 0; 0; 0]].
Proof. reflexivity. Qed.

(** At the border the image is reflected about its edge pixel. *)
Example blur_corner :
  Cv2.GaussianBlur (Cv2.rectangle (Np.zeros 3 3) (0, 0) (0, 0) 255) (5, 5) =
  [[36; 24; 12];
   [24; 16; 8];
   [12; 8; 4]].
Proof. reflexivity. Qed.

(** ** Adjunctions, closings and openings

    The lattice-theoretic core of mathematical morphology: when dilation
    and erosion form an adjunction, "close then open" is idempotent. *)

Section Galois.
Context {M : Type} (ok : M → Prop) (le : M → M → Prop) (dil ero : M → M).
Hypothesis le_refl : ∀ x, le x x.
Hypothesis le_trans : ∀ x y z, le x y → le y z → le x z.
Hypothesis le_antisym : ∀ x y, ok x → ok y → le x y → le y x → x = y.
Hypothesis dil_ok : ∀ x, ok x → ok (dil x).
Hypothesis ero_ok : ∀ x, ok x → ok (ero x).
Hypothesis adjunction : ∀ x y, ok x → ok y → (le (dil x) y ↔ le x (ero y)).

Lemma galois_unit x : ok x → le x (ero (dil x)).
Proof. intros Hx. apply adjunction; auto. Qed.

Lemma galois_counit x : ok x → le (dil (ero x)) x.
Proof. intros Hx. apply adjunction; auto. Qed.

Lemma galois_dil_mono x y : ok x → ok y → le x y → le (dil x) (dil y).
Proof.
  intros Hx Hy Hxy. apply adjunction; auto.
  eapply le_trans; [exact Hxy | by apply galois_unit].
Qed.

Lemma galois_ero_mono x y : ok x → ok y → le x y → le (ero x) (ero y).
Proof.
  intros Hx Hy Hxy. apply adjunction; auto.
  eapply le_trans; [by apply galois_counit | exact Hxy].
Qed.

Lemma galois_closing_idem x : ok x → ero (dil (ero (dil x))) = ero (dil x).
Proof.
  intros Hx. apply le_antisym; auto.
  - apply galois_ero_mono; auto. apply galois_counit; auto.
  - apply galois_unit; auto.
Qed.

Lemma galois_opening_idem x : ok x → dil (ero (dil (ero x))) = dil (ero x).
Proof.
  intros Hx. apply le_antisym; auto.
  - apply galois_counit; auto.
  - apply galois_dil_mono; auto. apply galois_unit; auto.
Qed.

(** Closing followed by opening is idempotent. *)
Lemma galois_open_close_idem x :
  ok x →
  dil (ero (ero (dil (dil (ero (ero (dil x))))))) = dil (ero (ero (dil x))).
Proof.
  intros Hx.
  set (c := λ z, ero (dil z)). set (o := λ z, dil (ero z)).
  change (o (c (o (c x))) = o (c x)).
  assert (Hc : ∀ z, ok z → ok (c z)) by (intros; unfold c; auto).
  assert (Ho : ∀ z, ok z → ok (o z)) by (intros; unfold o; auto).
  assert (Hcm : ∀ z z', ok z → ok z' → le z z' → le (c z) (c z')).
  { intros. unfold c. apply galois_ero_mono, galois_dil_mono; auto. }
  assert (Hom : ∀ z z', ok z → ok z' → le z z' → le (o z) (o z')).
  { intros. unfold o. apply galois_dil_mono, galois_ero_mono; auto. }
  apply le_antisym; auto.
  - (* o (c (o (c x))) ≤ o (c (c x)) = o (c x) *)
    apply Hom; auto.
    replace (c x) with (c (c x)) at 2 by (apply galois_closing_idem; auto).
    apply Hcm; auto. unfold o. apply galois_counit; auto.
  - (* o (c x) = o (o (c x)) ≤ o (c (o (c x))) *)
    replace (o (c x)) with (o (o (c x))) at 1
      by (apply galois_opening_idem; auto).
    apply Hom; auto. unfold c at 2. apply galois_unit; auto.
Qed.

(** Iterating both maps keeps the adjunction. *)
Lemma galois_iter_ok (f : M → M) n x :
  (∀ z, ok z → ok (f z)) → ok x → ok (Nat.iter n f x).
Proof. intros Hf Hx. induction n; simpl; auto. Qed.

Lemma galois_iter_adjunction n x y :
  ok x → ok y → (le (Nat.iter n dil x) y ↔ le x (Nat.iter n ero y)).
Proof.
  revert y. induction n as [|n IH]; intros y Hx Hy; [done|].
  rewrite (Nat.iter_succ_r n ero).
  change (Nat.iter (S n) dil x) with (dil (Nat.iter n dil x)).
  assert (ok (Nat.iter n dil x)) by (apply galois_iter_ok; auto).
  split; intros H'.
  - apply IH; auto. apply adjunction; auto.
  - apply adjunction; auto. apply IH; auto.
Qed.

End Galois.

(** The same for [n] rounds of dilation and erosion, as
    [cv2.morphologyEx] applies them. *)
Lemma galois_iter_open_close_idem {M : Type} (ok : M → Prop)
    (le : M → M → Prop) (dil ero : M → M) (n : nat) :
  (∀ x, le x x) →
  (∀ x y z, le x y → le y z → le x z) →
  (∀ x y, ok x → ok y → le x y → le y x → x = y) →
  (∀ x, ok x → ok (dil x)) →
  (∀ x, ok x → ok (ero x)) →
  (∀ x y, ok x → ok y → (le (dil x) y ↔ le x (ero y))) →
  ∀ x, ok x →
  let D := Nat.iter n dil in
  let E := Nat.iter n ero in
  D (E (E (D (D (E (E (D x))))))) = D (E (E (D x))).
Proof.
  intros Hrefl Htrans Hanti Hd He Hadj x Hx D E.
  apply (galois_open_close_idem ok le D E); auto; subst D E.
  - intros z Hz. by apply (galois_iter_ok ok).
  - intros z Hz. by apply (galois_iter_ok ok).
  - intros z z' Hz Hz'. by apply (galois_iter_adjunction ok).
Qed.

(** ** Facts about the OpenCV operations *)

Section Cv2_facts.
Import Np Cv2.
Implicit Types (a src : ndarray) (offs : list (Z * Z)).

Lemma pix_get a y x v : get a y x = Some v → pix a y x = v.
Proof. unfold pix. by intros ->. Qed.

Lemma pix_uint8 h w a y x : is_uint8 h w a → 0 ≤ pix a y x ≤ 255.
Proof.
  intros Ha. unfold pix. destruct (get a y x) as [v|] eqn:Hv; simpl; [|lia].
  by apply (is_uint8_get_Some h w) in Hv as (_ & _ & ?).
Qed.

Lemma tabulate_zero_rows w f : tabulate 0 w f = [].
Proof. unfold tabulate. by rewrite (seqZ_nil 0 0). Qed.

(** Operations tabulate over the shape of their source. *)
Lemma tabulate_shape h w a f :
  is_uint8 h w a → tabulate (shape a).1 (shape a).2 f = tabulate h w f.
Proof.
  intros Ha. destruct (decide (0 < h)) as [Hh|Hh].
  - by rewrite (is_uint8_shape h w a Hh Ha).
  - destruct Ha as [Hlen _]. assert (h = 0) as -> by lia.
    destruct a; [|simpl in Hlen; lia]. simpl.
    by rewrite !tabulate_zero_rows.
Qed.

Lemma is_uint8_nonneg h w a : is_uint8 h w a → 0 ≤ h.
Proof. intros [<- _]. lia. Qed.

Lemma is_uint8_tabulate' h w a f :
  is_uint8 h w a →
  (∀ y x, 0 ≤ y < h → 0 ≤ x < w → 0 ≤ f y x ≤ 255) →
  is_uint8 h w (tabulate h w f).
Proof.
  intros Ha Hf. pose proof (is_uint8_nonneg _ _ _ Ha) as Hh.
  destruct (decide (0 ≤ w)) as [Hw|Hw]; [by apply is_uint8_tabulate|].
  (* a negative width only fits the array without rows *)
  destruct Ha as [Hlen Hrows]. destruct a as [|row a].
  - simpl in Hlen. subst h. rewrite tabulate_zero_rows. by split.
  - apply Forall_cons in Hrows as [[Hrow _] _]. lia.
Qed.

Lemma is_uint8_zeros h w : 0 ≤ h → 0 ≤ w → is_uint8 h w (zeros h w).
Proof. intros. apply is_uint8_tabulate; auto. intros. lia. Qed.

(** *** [cv2.rectangle] *)

Lemma rectangle_uint8 h w img pt1 pt2 color :
  is_uint8 h w img → 0 ≤ color ≤ 255 →
  is_uint8 h w (rectangle img pt1 pt2 color).
Proof.
  intros Hi Hc. unfold rectangle. rewrite (tabulate_shape h w) by done.
  apply (is_uint8_tabulate' h w img); [done|].
  intros y x _ _. case_bool_decide; [done | by apply (pix_uint8 h w)].
Qed.

Lemma rectangle_get h w img pt1 pt2 color y x :
  is_uint8 h w img → 0 ≤ y < h → 0 ≤ x < w →
  get (rectangle img pt1 pt2 color) y x =
  Some (if bool_decide (Z.min pt1.1 pt2.1 ≤ x ≤ Z.max pt1.1 pt2.1 ∧
                        Z.min pt1.2 pt2.2 ≤ y ≤ Z.max pt1.2 pt2.2)
        then color else pix img y x).
Proof.
  intros Hi Hy Hx. unfold rectangle. rewrite (tabulate_shape h w) by done.
  by rewrite get_tabulate.
Qed.

(** *** Max and min over a window *)

Lemma foldr_max_ge (l : list Z) v : v ∈ l → v ≤ foldr Z.max 0 l.
Proof.
  induction l as [|u l IH]; [by intros ?%elem_of_nil|].
  intros [->|Hv]%elem_of_cons; simpl; [lia|]. specialize (IH Hv). lia.
Qed.

Lemma foldr_max_nonneg (l : list Z) : 0 ≤ foldr Z.max 0 l.
Proof. induction l; simpl; lia. Qed.

Lemma foldr_max_le (l : list Z) b :
  0 ≤ b → (∀ v, v ∈ l → v ≤ b) → foldr Z.max 0 l ≤ b.
Proof.
  intros Hb. induction l as [|u l IH]; intros Hl; simpl; [done|].
  assert (u ≤ b) by (apply Hl; left).
  assert (foldr Z.max 0 l ≤ b) by (apply IH; intros; apply Hl; by right). lia.
Qed.

Lemma foldr_max_elem (l : list Z) :
  foldr Z.max 0 l = 0 ∨ foldr Z.max 0 l ∈ l.
Proof.
  induction l as [|u l IH]; simpl; [by left|].
  destruct (Z.max_spec u (foldr Z.max 0 l)) as [[_ ->]|[_ ->]].
  - destruct IH as [IH|IH]; [by left | right; by right].
  - right. left.
Qed.

Lemma foldr_min_le (l : list Z) v : v ∈ l → foldr Z.min 255 l ≤ v.
Proof.
  induction l as [|u l IH]; [by intros ?%elem_of_nil|].
  intros [->|Hv]%elem_of_cons; simpl; [lia|]. specialize (IH Hv). lia.
Qed.

Lemma foldr_min_le_255 (l : list Z) : foldr Z.min 255 l ≤ 255.
Proof. induction l; simpl; lia. Qed.

Lemma foldr_min_ge (l : list Z) b :
  b ≤ 255 → (∀ v, v ∈ l → b ≤ v) → b ≤ foldr Z.min 255 l.
Proof.
  intros Hb. induction l as [|u l IH]; intros Hl; simpl; [done|].
  assert (b ≤ u) by (apply Hl; left).
  assert (b ≤ foldr Z.min 255 l) by (apply IH; intros; apply Hl; by right). lia.
Qed.

Lemma elem_of_window src offs y x v :
  v ∈ window src offs y x ↔
  ∃ d, d ∈ offs ∧ get src (y + d.1) (x + d.2) = Some v.
Proof. unfold window. by rewrite list_elem_of_omap. Qed.

(** *** Dilation and erosion, one round *)

Lemma dilate_once_get h w src kernel y x :
  is_uint8 h w src → 0 ≤ y < h → 0 ≤ x < w →
  get (dilate_once src kernel) y x =
  Some (foldr Z.max 0 (window src (anchor_offsets kernel) y x)).
Proof.
  intros Hs Hy Hx. unfold dilate_once.
  rewrite (tabulate_shape h w) by done. by rewrite get_tabulate.
Qed.

Lemma erode_once_get h w src kernel y x :
  is_uint8 h w src → 0 ≤ y < h → 0 ≤ x < w →
  get (erode_once src kernel) y x =
  Some (foldr Z.min 255 (window src (anchor_offsets kernel) y x)).
Proof.
  intros Hs Hy Hx. unfold erode_once.
  rewrite (tabulate_shape h w) by done. by rewrite get_tabulate.
Qed.

Lemma window_uint8 h w src offs y x v :
  is_uint8 h w src → v ∈ window src offs y x → 0 ≤ v ≤ 255.
Proof.
  intros Hs (d & _ & Hv)%elem_of_window.
  by apply (is_uint8_get_Some h w) in Hv as (_ & _ & ?).
Qed.

Lemma dilate_once_uint8 h w src kernel :
  is_uint8 h w src → is_uint8 h w (dilate_once src kernel).
Proof.
  intros Hs. unfold dilate_once. rewrite (tabulate_shape h w) by done.
  apply (is_uint8_tabulate' h w src); [done|]. intros y x _ _. split.
  - apply foldr_max_nonneg.
  - apply foldr_max_le; [lia|]. intros v Hv.
    by apply (window_uint8 h w) in Hv as [_ ?].
Qed.

Lemma erode_once_uint8 h w src kernel :
  is_uint8 h w src → is_uint8 h w (erode_once src kernel).
Proof.
  intros Hs. unfold erode_once. rewrite (tabulate_shape h w) by done.
  apply (is_uint8_tabulate' h w src); [done|]. intros y x _ _. split.
  - apply foldr_min_ge; [lia|]. intros v Hv.
    by apply (window_uint8 h w) in Hv as [? _].
  - apply foldr_min_le_255.
Qed.

Lemma dilate_uint8 h w src kernel n :
  is_uint8 h w src → is_uint8 h w (dilate src kernel n).
Proof.
  intros Hs. unfold dilate. induction n; simpl; [done|].
  by apply dilate_once_uint8.
Qed.

Lemma erode_uint8 h w src kernel n :
  is_uint8 h w src → is_uint8 h w (erode src kernel n).
Proof.
  intros Hs. unfold erode. induction n; simpl; [done|].
  by apply erode_once_uint8.
Qed.

(** A kernel that contains its anchor never lowers a pixel by dilation. *)
Lemma dilate_once_extensive h w src kernel y x v :
  is_uint8 h w src → (0, 0) ∈ anchor_offsets kernel →
  get src y x = Some v →
  ∃ v', get (dilate_once src kernel) y x = Some v' ∧ v ≤ v'.
Proof.
  intros Hs Hc Hv.
  destruct (is_uint8_get_Some h w _ _ _ _ Hs Hv) as (Hy & Hx & _).
  rewrite (dilate_once_get h w) by done. eexists. split; [done|].
  apply foldr_max_ge, elem_of_window. exists (0, 0). split; [done|].
  simpl. by rewrite !Z.add_0_r.
Qed.

(** A non-zero pixel of the dilation has a non-zero source pixel under
    the kernel. *)
Lemma dilate_once_support h w src kernel y x v :
  is_uint8 h w src →
  get (dilate_once src kernel) y x = Some v → v ≠ 0 →
  ∃ d v', d ∈ anchor_offsets kernel ∧
          get src (y + d.1) (x + d.2) = Some v' ∧ v' ≠ 0.
Proof.
  intros Hs Hv Hne.
  assert (is_uint8 h w (dilate_once src kernel)) as Hd
    by by apply dilate_once_uint8.
  destruct (is_uint8_get_Some h w _ _ _ _ Hd Hv) as (Hy & Hx & _).
  rewrite (dilate_once_get h w) in Hv by done. injection Hv as <-.
  destruct (foldr_max_elem (window src (anchor_offsets kernel) y x))
    as [H0|Hin]; [done|].
  apply elem_of_window in Hin as (d & Hd' & Hget). eauto.
Qed.

(** *** Dilation and erosion are adjoint

    For a kernel symmetric about its anchor, on uint8 masks of a fixed
    shape ordered pixel by pixel. *)

Definition mask_le (h w : Z) (a b : ndarray) : Prop :=
  ∀ y x, 0 ≤ y < h → 0 ≤ x < w → pix a y x ≤ pix b y x.

Definition kernel_symmetric (kernel : ndarray) : Prop :=
  ∀ d, d ∈ anchor_offsets kernel → (- d.1, - d.2) ∈ anchor_offsets kernel.

Lemma mask_le_refl h w a : mask_le h w a a.
Proof. intros y x _ _. lia. Qed.

Lemma mask_le_trans h w a b c :
  mask_le h w a b → mask_le h w b c → mask_le h w a c.
Proof.
  intros Hab Hbc y x Hy Hx. specialize (Hab y x Hy Hx).
  specialize (Hbc y x Hy Hx). lia.
Qed.

Lemma mask_le_antisym h w a b :
  is_uint8 h w a → is_uint8 h w b →
  mask_le h w a b → mask_le h w b a → a = b.
Proof.
  intros Ha Hb Hab Hba. apply (ndarray_ext h w); [done..|].
  intros y x Hy Hx.
  destruct (is_uint8_get h w a y x Ha Hy Hx) as (va & Hva & _).
  destruct (is_uint8_get h w b y x Hb Hy Hx) as (vb & Hvb & _).
  specialize (Hab y x Hy Hx). specialize (Hba y x Hy Hx).
  rewrite (pix_get _ _ _ _ Hva), (pix_get _ _ _ _ Hvb) in Hab, Hba.
  rewrite Hva, Hvb. f_equal. lia.
Qed.

Lemma morph_adjunction h w kernel a b :
  kernel_symmetric kernel → is_uint8 h w a → is_uint8 h w b →
  mask_le h w (dilate_once a kernel) b ↔ mask_le h w a (erode_once b kernel).
Proof.
  intros Hsym Ha Hb. split; intros H y x Hy Hx.
  - rewrite (pix_get _ _ _ _ (erode_once_get h w b kernel y x Hb Hy Hx)).
    apply foldr_min_ge; [by apply (pix_uint8 h w)|].
    intros v (d & Hd & Hv)%elem_of_window.
    destruct (is_uint8_get_Some h w _ _ _ _ Hb Hv) as (Hy' & Hx' & _).
    specialize (H _ _ Hy' Hx').
    rewrite (pix_get _ _ _ _ Hv) in H.
    rewrite (pix_get _ _ _ _ (dilate_once_get h w a kernel _ _ Ha Hy' Hx')) in H.
    etrans; [|exact H].
    apply foldr_max_ge, elem_of_window.
    exists (- d.1, - d.2). split; [by apply Hsym|]. simpl.
    replace (y + d.1 + - d.1) with y by lia.
    replace (x + d.2 + - d.2) with x by lia.
    destruct (is_uint8_get h w a y x Ha Hy Hx) as (va & Hva & _).
    by rewrite (pix_get _ _ _ _ Hva).
  - rewrite (pix_get _ _ _ _ (dilate_once_get h w a kernel y x Ha Hy Hx)).
    apply foldr_max_le; [by apply (pix_uint8 h w)|].
    intros v (d & Hd & Hv)%elem_of_window.
    destruct (is_uint8_get_Some h w _ _ _ _ Ha Hv) as (Hy' & Hx' & _).
    specialize (H _ _ Hy' Hx').
    rewrite (pix_get _ _ _ _ Hv) in H.
    rewrite (pix_get _ _ _ _ (erode_once_get h w b kernel _ _ Hb Hy' Hx')) in H.
    etrans; [exact H|].
    apply foldr_min_le, elem_of_window.
    exists (- d.1, - d.2). split; [by apply Hsym|]. simpl.
    replace (y + d.1 + - d.1) with y by lia.
    replace (x + d.2 + - d.2) with x by lia.
    destruct (is_uint8_get h w b y x Hb Hy Hx) as (vb & Hvb & _).
    by rewrite (pix_get _ _ _ _ Hvb).
Qed.

(** Closing then opening, with any number of rounds, is idempotent on
    every uint8 mask. *)
Lemma open_close_idempotent h w kernel n m :
  kernel_symmetric kernel → is_uint8 h w m →
  let oc := λ x, morphologyEx (morphologyEx x MORPH_CLOSE kernel n)
                              MORPH_OPEN kernel n in
  oc (oc m) = oc m.
Proof.
  intros Hsym Hm oc. subst oc. unfold morphologyEx, dilate, erode.
  apply (galois_iter_open_close_idem (is_uint8 h w) (mask_le h w)
           (λ x, dilate_once x kernel) (λ x, erode_once x kernel) n).
  - apply mask_le_refl.
  - apply mask_le_trans.
  - apply mask_le_antisym.
  - intros x. apply dilate_once_uint8.
  - intros x. apply erode_once_uint8.
  - intros x y. by apply morph_adjunction.
  - done.
Qed.

(** *** Border reflection *)

Lemma borderInterpolate_range p len :
  0 < len → 0 ≤ borderInterpolate p len < len.
Proof.
  intros Hlen. unfold borderInterpolate.
  destruct (Z.eqb_spec len 1); [lia|].
  pose proof (Z.mod_pos_bound p (2 * (len - 1)) ltac:(lia)).
  destruct (Z.ltb_spec (p mod (2 * (len - 1))) len); lia.
Qed.

Lemma borderInterpolate_id p len :
  0 ≤ p < len → borderInterpolate p len = p.
Proof.
  intros Hp. unfold borderInterpolate.
  destruct (Z.eqb_spec len 1); [lia|].
  rewrite Z.mod_small by lia.
  destruct (Z.ltb_spec p len); lia.
Qed.

(** A tap at distance at most 2 reads a row at most 2 above. *)
Lemma borderInterpolate_near y d len :
  0 ≤ y < len → -2 ≤ d ≤ 2 → y - 2 ≤ borderInterpolate (y + d) len.
Proof.
  intros Hy Hd.
  pose proof (borderInterpolate_range (y + d) len ltac:(lia)) as Hr.
  destruct (decide (0 ≤ y + d < len)) as [Hin|Hout].
  { rewrite borderInterpolate_id by done. lia. }
  destruct (decide (y + d < 0)); [lia|].
  destruct (decide (len ≤ 3)); [lia|].
  unfold borderInterpolate in *.
  destruct (Z.eqb_spec len 1); [lia|].
  rewrite Z.mod_small in * by lia.
  destruct (Z.ltb_spec (y + d) len); lia.
Qed.

(** *** Gaussian blur with the 5x5 aperture *)

Lemma sumZ_fmap_nonneg {A} (f : A → Z) (l : list A) :
  (∀ t, t ∈ l → 0 ≤ f t) → 0 ≤ sumZ (f <$> l).
Proof.
  induction l as [|t l IH]; intros Hf; [done|].
  rewrite fmap_cons. cbn [sumZ foldr].
  assert (0 ≤ f t) by (apply Hf; left).
  assert (0 ≤ sumZ (f <$> l)) by (apply IH; intros; apply Hf; by right).
  unfold sumZ in *. lia.
Qed.

Lemma sumZ_fmap_nonzero {A} (f : A → Z) (l : list A) :
  sumZ (f <$> l) ≠ 0 → ∃ t, t ∈ l ∧ f t ≠ 0.
Proof.
  induction l as [|t l IH]; [done|].
  rewrite fmap_cons. cbn [sumZ foldr]. intros Hne.
  destruct (decide (f t = 0)) as [H0|H0].
  - destruct IH as (t' & Ht' & Hft'); [unfold sumZ in *; lia|].
    exists t'. split; [by right | done].
  - exists t. split; [left | done].
Qed.

Lemma convolve_nonneg h w src ky kx y x :
  is_uint8 h w src →
  (∀ t, t ∈ ky → 0 ≤ t.2) → (∀ t, t ∈ kx → 0 ≤ t.2) →
  0 ≤ convolve src ky kx y x.
Proof.
  intros Hs Hky Hkx. unfold convolve.
  apply sumZ_fmap_nonneg. intros ty Hty.
  apply sumZ_fmap_nonneg. intros tx Htx.
  pose proof (pix_uint8 h w src
    (borderInterpolate (y + ty.1) (shape src).1)
    (borderInterpolate (x + tx.1) (shape src).2) Hs).
  specialize (Hky _ Hty). specialize (Hkx _ Htx).
  apply Z.mul_nonneg_nonneg; [apply Z.mul_nonneg_nonneg|]; lia.
Qed.

Lemma gaussian_taps_5_nonneg t : t ∈ gaussian_taps 5 → 0 ≤ t.2 ∧ -2 ≤ t.1 ≤ 2.
Proof.
  cbn [gaussian_taps]. rewrite !elem_of_cons, elem_of_nil.
  intros [->|[->|[->|[->|[->|[]]]]]]; simpl; lia.
Qed.

Lemma GaussianBlur_get h w src y x :
  is_uint8 h w src → 0 ≤ y < h → 0 ≤ x < w →
  get (GaussianBlur src (5, 5)) y x =
  Some (Z.min 255
         ((convolve src (gaussian_taps 5) (gaussian_taps 5) y x + 2 ^ 15)
          / 2 ^ 16)).
Proof.
  intros Hs Hy Hx. unfold GaussianBlur.
  rewrite (tabulate_shape h w) by done. by rewrite get_tabulate.
Qed.

Lemma GaussianBlur_uint8 h w src :
  is_uint8 h w src → is_uint8 h w (GaussianBlur src (5, 5)).
Proof.
  intros Hs. unfold GaussianBlur. rewrite (tabulate_shape h w) by done.
  apply (is_uint8_tabulate' h w src); [done|]. intros y x _ _.
  pose proof (convolve_nonneg h w src (gaussian_taps 5) (gaussian_taps 5) y x
    Hs (λ t Ht, proj1 (gaussian_taps_5_nonneg t Ht))
       (λ t Ht, proj1 (gaussian_taps_5_nonneg t Ht))) as Hc.
  cbn [fst snd].
  assert (0 ≤ (convolve src (gaussian_taps 5) (gaussian_taps 5) y x + 2 ^ 15)
              / 2 ^ 16) by (apply Z.div_pos; lia).
  lia.
Qed.

(** A non-zero pixel of the blurred image has a non-zero source pixel
    among the 25 under the aperture (reflected at the border). *)
Lemma GaussianBlur_support h w src y x v :
  is_uint8 h w src → 0 < h →
  get (GaussianBlur src (5, 5)) y x = Some v → v ≠ 0 →
  ∃ dy dx, -2 ≤ dy ≤ 2 ∧ -2 ≤ dx ≤ 2 ∧
    pix src (borderInterpolate (y + dy) h) (borderInterpolate (x + dx) w) ≠ 0.
Proof.
  intros Hs Hh Hv Hne.
  assert (is_uint8 h w (GaussianBlur src (5, 5))) as Hb
    by by apply GaussianBlur_uint8.
  destruct (is_uint8_get_Some h w _ _ _ _ Hb Hv) as (Hy & Hx & _).
  rewrite (GaussianBlur_get h w) in Hv by done.
  apply (inj Some) in Hv. subst v.
  assert (convolve src (gaussian_taps 5) (gaussian_taps 5) y x ≠ 0) as Hc.
  { intros H0. rewrite H0 in Hne. by apply Hne. }
  unfold convolve in Hc. rewrite (is_uint8_shape h w src Hh Hs) in Hc.
  cbn [fst snd] in Hc.
  apply sumZ_fmap_nonzero in Hc as (ty & Hty & Hc).
  apply sumZ_fmap_nonzero in Hc as (tx & Htx & Hc).
  exists ty.1, tx.1.
  apply gaussian_taps_5_nonneg in Hty as [_ ?].
  apply gaussian_taps_5_nonneg in Htx as [_ ?].
  split; [lia|]. split; [lia|]. intros Hz. rewrite Hz in Hc. lia.
Qed.

(** The centre tap alone contributes 36/256 of the pixel. *)
Lemma GaussianBlur_centre h w src y x :
  is_uint8 h w src → 0 ≤ y < h → 0 ≤ x < w →
  96 * 96 * pix src y x ≤
  convolve src (gaussian_taps 5) (gaussian_taps 5) y x.
Proof.
  intros Hs Hy Hx. unfold convolve.
  rewrite (is_uint8_shape h w src ltac:(lia) Hs).
  cbn [gaussian_taps fmap list_fmap sumZ foldr fst snd].
  rewrite !Z.add_0_r.
  rewrite (borderInterpolate_id y h), (borderInterpolate_id x w) by done.
  repeat match goal with
  | |- context [pix src (borderInterpolate ?p h) ?q] =>
      let H := fresh in
      pose proof (pix_uint8 h w src (borderInterpolate p h) q Hs) as H;
      generalize dependent (pix src (borderInterpolate p h) q); intros
  | |- context [pix src ?p (borderInterpolate ?q w)] =>
      let H := fresh in
      pose proof (pix_uint8 h w src p (borderInterpolate q w) Hs) as H;
      generalize dependent (pix src p (borderInterpolate q w)); intros
  end.
  pose proof (pix_uint8 h w src y x Hs). lia.
Qed.

(** Blurring a constant image returns it. *)
Lemma GaussianBlur_const h w src c :
  is_uint8 h w src → 0 < h → 0 < w → 0 ≤ c ≤ 255 →
  (∀ y x, 0 ≤ y < h → 0 ≤ x < w → get src y x = Some c) →
  ∀ y x, 0 ≤ y < h → 0 ≤ x < w → get (GaussianBlur src (5, 5)) y x = Some c.
Proof.
  intros Hs Hh Hw Hc Hconst y x Hy Hx.
  rewrite (GaussianBlur_get h w) by done. f_equal.
  assert (Hpix : ∀ p q, pix src (borderInterpolate p h) (borderInterpolate q w) = c).
  { intros p q. apply pix_get, Hconst; by apply borderInterpolate_range. }
  unfold convolve. rewrite (is_uint8_shape h w src Hh Hs).
  cbn [gaussian_taps fmap list_fmap sumZ foldr fst snd].
  rewrite !Hpix.
  replace (_ + 2 ^ 15) with (c * 2 ^ 16 + 2 ^ 15) by lia.
  rewrite Z.div_add_l by lia. change (2 ^ 15 / 2 ^ 16) with 0. lia.
Qed.

End Cv2_facts.

(** ** Python values: exceptions and strings *)

Module Py.

(** A raised exception: its class and [str(e)]. *)
Record exn := mk_exn { exn_class : string; exn_str : string }.

(** The outcome of a call that may raise. *)
Inductive result (A : Type) : Type :=
  | Ok (a : A)
  | Raise (e : exn).
Global Arguments Ok {A} a.
Global Arguments Raise {A} e.

(** [str.lower] on one character.  A [string] is read as a Python [str]
    whose code points are below 256; there the upper-case letters are
    [A-Z] and the Latin-1 letters U+00C0..U+00DE other than U+00D7, each
    32 below its lower-case form. *)
Definition lower_char (c : ascii) : ascii :=
  let n := N_of_ascii c in
  if ((65 <=? n) && (n <=? 90) ||
      (192 <=? n) && (n <=? 222) && negb (n =? 215))%N
  then ascii_of_N (n + 32) else c.

(** [s.lower()]. *)
Fixpoint lower (s : string) : string :=
  match s with
  | EmptyString => EmptyString
  | String c s' => String (lower_char c) (lower s')
  end.

(** [sub in s]: [sub] occurs in [s] as a contiguous substring. *)
Fixpoint contains (s sub : string) : bool :=
  String.prefix sub s ||
  match s with
  | EmptyString => false
  | String _ s' => contains s' sub
  end.

End Py.

Example lower_mixed_case : Py.lower "T-Shirt" = "t-shirt".
Proof. reflexivity. Qed.

(** ** [config.py] *)

Module Config.

Definition MAX_IMAGE_SIZE : Z * Z := (768, 1024).

Definition GUIDANCE_SCALE : Float64.float := Float64.literal 75 10.
Definition NUM_INFERENCE_STEPS : Z := 50.


Definition MASK_DILATION_KERNEL : Z := 15.
Definition MASK_BLUR_SIZE : Z * Z := (5, 5).

End Config.

(** ** PIL images *)

Module Pil.

(** The value of an [Image] object in mode RGB: its size and raster. *)
Record Image := mkImage {
  width : Z;
  height : Z;
  getpixel : Z → Z → Z * Z * Z
}.

(** [Image.new("RGB", (w, h), color)]. *)
Definition new (size : Z * Z) (color : Z * Z * Z) : Image :=
  mkImage size.1 size.2 (λ _ _, color).

End Pil.

(** ** [backend/utils/masking.py]: [SemanticMasker] *)

Module Masking.
Import Np Cv2.

(** [int(n * 0.pp)] for the fraction [pp / 100]. *)
Definition scaled (n p : Z) : Z :=
  Float64.to_int (Float64.mul (Float64.of_int n) (Float64.literal p 100)).

(** The items of the [garment_regions] dict for an image of the given
    size, each region as [(x1, y1, x2, y2)]. *)
Definition garment_region_items (width height : Z)
    : list (string * (Z * Z * Z * Z)) :=
  [ ("hat", (0, 0, width, scaled height 15));
    ("glasses", (scaled width 25, scaled height 15,
                 scaled width 75, scaled height 25));
    ("shirt", (0, scaled height 15, width, scaled height 60));
    ("t-shirt", (0, scaled height 15, width, scaled height 50));
    ("blouse", (0, scaled height 15, width, scaled height 55));
    ("dress", (0, scaled height 15, width, scaled height 85));
    ("jacket", (0, scaled height 15, width, scaled height 65));
    ("pants", (0, scaled height 45, width, scaled height 90));
    ("jeans", (0, scaled height 45, width, scaled height 90));
    ("skirt", (0, scaled height 40, width, scaled height 75));
    ("shoes", (0, scaled height 85, width, height));
    ("scarf", (scaled width 20, scaled height 20,
               scaled width 80, scaled height 35)) ].

Definition garment_regions (width height : Z) : gmap string (Z * Z * Z * Z) :=
  list_to_map (garment_region_items width height).

(** [garment_regions.get(garment_type.lower(), (0, 0, width, height))]. *)
Definition garment_region (width height : Z) (garment_type : string)
    : Z * Z * Z * Z :=
  default (0, 0, width, height)
          (garment_regions width height !! Py.lower garment_type).

(** [SemanticMasker.create_garment_region_mask(image, garment_type)]. *)
Definition create_garment_region_mask (image : Pil.Image)
    (garment_type : string) : ndarray :=
  let height := Pil.height image in
  let width := Pil.width image in
  let mask := zeros height width in
  let '(x1, y1, x2, y2) := garment_region width height garment_type in
  let mask := rectangle mask (x1, y1) (x2, y2) 255 in
  let kernel := getStructuringElement
                  (Config.MASK_DILATION_KERNEL, Config.MASK_DILATION_KERNEL) in
  let mask := dilate mask kernel 1 in
  GaussianBlur mask Config.MASK_BLUR_SIZE.

(** [SemanticMasker.refine_mask(mask, iterations)]; the Python default is
    [iterations=2]. *)
Definition refine_mask (mask : ndarray) (iterations : nat) : ndarray :=
  let kernel := getStructuringElement (5, 5) in
  let mask := morphologyEx mask MORPH_CLOSE kernel iterations in
  morphologyEx mask MORPH_OPEN kernel iterations.

(** The dict [get_mask_statistics] returns. *)
Record statistics := mk_statistics {
  total_pixels : Z;
  masked_pixels : Z;
  coverage_percentage : Float64.float
}.

(** [SemanticMasker.get_mask_statistics(mask)]. *)
Definition get_mask_statistics (mask : ndarray) : Py.result statistics :=
  let total_pixels := size mask in
  let masked_pixels := count_nonzero mask in
  match Float64.div_int masked_pixels total_pixels with
  | None => Py.Raise (Py.mk_exn "ZeroDivisionError" "division by zero")
  | Some q =>
      let coverage := Float64.mul q (Float64.of_int 100) in
      Py.Ok (mk_statistics total_pixels masked_pixels coverage)
  end.

(** The keys of [garment_regions]. *)
Definition region_keys : list string :=
  [ "hat"; "glasses"; "shirt"; "t-shirt"; "blouse"; "dress"; "jacket";
    "pants"; "jeans"; "skirt"; "shoes"; "scarf" ].

End Masking.

(** The test suite's image: 512x512, one colour. *)
Example hat_region_512 :
  Masking.garment_region 512 512 "hat" = (0, 0, 512, 76).
Proof. reflexivity. Qed.

(** The lower edge of the "scarf" region is [int(height * 0.35)], computed
    in double precision: for a height of 180 it is row 62, one less than
    35% of 180, because the double nearest to 0.35 lies below 0.35. *)
Example scarf_region_180 :
  Masking.garment_region 180 180 "scarf" = (36, 36, 144, 62).
Proof. reflexivity. Qed.

Example statistics_half :
  Masking.get_mask_statistics [[0; 255]; [7; 0]] =
  Py.Ok (Masking.mk_statistics 4 2 (Float64.mk 7036874417766400 (-47))).
Proof. reflexivity. Qed.

Example statistics_third :
  Masking.get_mask_statistics [[0; 255; 0]] =
  Py.Ok (Masking.mk_statistics 3 1 (Float64.mk 4691249611844266 (-47))).
Proof. reflexivity. Qed.

(** ** Facts about the masker *)

Section Masking_facts.
Import Np Cv2 Masking.

(** *** The two structuring elements *)

Lemma dilation_kernel_centre :
  (0, 0) ∈ anchor_offsets (getStructuringElement
     (Config.MASK_DILATION_KERNEL, Config.MASK_DILATION_KERNEL)).
Proof. apply (bool_decide_unpack _). by vm_compute. Qed.

Lemma dilation_kernel_reach d :
  d ∈ anchor_offsets (getStructuringElement
     (Config.MASK_DILATION_KERNEL, Config.MASK_DILATION_KERNEL)) →
  -7 ≤ d.1 ≤ 7 ∧ -7 ≤ d.2 ≤ 7.
Proof.
  revert d. apply Forall_forall. apply (bool_decide_unpack _). by vm_compute.
Qed.

Lemma refine_kernel_symmetric : kernel_symmetric (getStructuringElement (5, 5)).
Proof.
  unfold kernel_symmetric. apply Forall_forall.
  apply (bool_decide_unpack _). by vm_compute.
Qed.

(** *** The region table *)

Lemma region_keys_items width height :
  (garment_region_items width height).*1 = region_keys.
Proof. reflexivity. Qed.



Lemma garment_regions_lookup_None width height key :
  key ∉ region_keys → garment_regions width height !! key = None.
Proof.
  intros Hk. apply not_elem_of_list_to_map_1. by rewrite region_keys_items.
Qed.

Lemma garment_regions_lookup_Some width height key region :
  garment_regions width height !! key = Some region →
  (key, region) ∈ garment_region_items width height.
Proof. apply elem_of_list_to_map_2. Qed.

(** A category whose lower-case form is no key gets the whole frame. *)
Lemma garment_region_fallback width height garment_type :
  Py.lower garment_type ∉ region_keys →
  garment_region width height garment_type = (0, 0, width, height).
Proof.
  intros Hk. unfold garment_region.
  by rewrite garment_regions_lookup_None.
Qed.

Lemma scaled_exact n p :
  p ∈ exact_percentages → 0 ≤ n < 2 ^ 32 → scaled n p = p * n / 100.
Proof. apply to_int_mul_literal. Qed.

Lemma scaled_lt n p :
  p ∈ exact_percentages → 1 ≤ n < 2 ^ 32 → 0 ≤ scaled n p < n.
Proof.
  intros Hp Hn. rewrite scaled_exact by (done || lia).
  assert (0 < p < 100).
  { unfold exact_percentages in Hp.
    repeat (apply elem_of_cons in Hp as [->|Hp]); try lia.
    by apply elem_of_nil in Hp. }
  split.
  - apply Z.div_pos; [|lia]. apply Z.mul_nonneg_nonneg; lia.
  - apply Z.div_lt_upper_bound; [lia|]. apply Z.mul_lt_mono_pos_r; lia.
Qed.

(** The first corner of every region lies inside the image. *)
Lemma garment_region_corner width height garment_type x1 y1 x2 y2 :
  1 ≤ width < 2 ^ 32 → 1 ≤ height < 2 ^ 32 →
  garment_region width height garment_type = (x1, y1, x2, y2) →
  0 ≤ x1 < width ∧ 0 ≤ y1 < height.
Proof.
  intros Hw Hh. unfold garment_region.
  destruct (garment_regions width height !! Py.lower garment_type)
    as [region|] eqn:Hlookup; simpl.
  - apply garment_regions_lookup_Some in Hlookup.
    unfold garment_region_items in Hlookup.
    intros ->.
    assert (∀ p, p ∈ exact_percentages → 0 ≤ scaled width p < width)
      as Hsw by (intros; by apply scaled_lt).
    assert (∀ p, p ∈ exact_percentages → 0 ≤ scaled height p < height)
      as Hsh by (intros; by apply scaled_lt).
    assert (∀ p, bool_decide (p ∈ exact_percentages) = true →
                 p ∈ exact_percentages) as Hdec
      by (intros p; apply bool_decide_eq_true_1).
    repeat (apply elem_of_cons in Hlookup as [Heq|Hlookup];
            [inversion Heq; subst; clear Heq;
             split; [first [lia | by apply Hsw, Hdec]
                    |first [lia | by apply Hsh, Hdec]] |]).
    by apply elem_of_nil in Hlookup.
  - intros [= <- <- _ _]. lia.
Qed.

(** *** The three stages of [create_garment_region_mask] *)

Lemma create_garment_region_mask_unfold image garment_type x1 y1 x2 y2 :
  garment_region (Pil.width image) (Pil.height image) garment_type
    = (x1, y1, x2, y2) →
  create_garment_region_mask image garment_type =
  GaussianBlur
    (dilate_once
       (rectangle (zeros (Pil.height image) (Pil.width image))
                  (x1, y1) (x2, y2) 255)
       (getStructuringElement
          (Config.MASK_DILATION_KERNEL, Config.MASK_DILATION_KERNEL)))
    (5, 5).
Proof. intros Hr. unfold create_garment_region_mask. by rewrite Hr. Qed.

Lemma create_garment_region_mask_uint8 image garment_type :
  0 ≤ Pil.width image → 0 ≤ Pil.height image →
  is_uint8 (Pil.height image) (Pil.width image)
           (create_garment_region_mask image garment_type).
Proof.
  intros Hw Hh.
  destruct (garment_region (Pil.width image) (Pil.height image) garment_type)
    as [[[x1 y1] x2] y2] eqn:Hr.
  rewrite (create_garment_region_mask_unfold _ _ _ _ _ _ Hr).
  apply GaussianBlur_uint8, dilate_once_uint8, rectangle_uint8; [|lia].
  by apply is_uint8_zeros.
Qed.

(** A pixel the rectangle covers stays non-zero through dilation and
    blur. *)
Lemma create_garment_region_mask_corner image garment_type x1 y1 x2 y2 :
  garment_region (Pil.width image) (Pil.height image) garment_type
    = (x1, y1, x2, y2) →
  0 ≤ x1 < Pil.width image → 0 ≤ y1 < Pil.height image →
  ∃ v, get (create_garment_region_mask image garment_type) y1 x1 = Some v
       ∧ v ≠ 0.
Proof.
  intros Hr Hx Hy. rewrite (create_garment_region_mask_unfold _ _ _ _ _ _ Hr).
  set (h := Pil.height image) in *. set (w := Pil.width image) in *.
  set (m1 := rectangle (zeros h w) (x1, y1) (x2, y2) 255).
  assert (Hm1 : is_uint8 h w m1).
  { apply rectangle_uint8; [|lia]. apply is_uint8_zeros; lia. }
  assert (Hg1 : get m1 y1 x1 = Some 255).
  { unfold m1. rewrite (rectangle_get h w) by (done || apply is_uint8_zeros; lia).
    rewrite bool_decide_eq_true_2; [done|]. simpl. lia. }
  set (k := getStructuringElement _).
  destruct (dilate_once_extensive h w m1 k y1 x1 255 Hm1
              dilation_kernel_centre Hg1) as (v2 & Hg2 & Hv2).
  assert (Hm2 : is_uint8 h w (dilate_once m1 k)) by by apply dilate_once_uint8.
  rewrite (GaussianBlur_get h w) by done.
  eexists. split; [done|].
  pose proof (GaussianBlur_centre h w _ y1 x1 Hm2 Hy Hx) as Hc.
  rewrite (pix_get _ _ _ _ Hg2) in Hc.
  set (c := convolve _ _ _ _ _) in *.
  assert (96 * 96 * 255 ≤ c) by lia.
  assert (1 ≤ (c + 2 ^ 15) / 2 ^ 16); [|lia].
  apply Z.div_le_lower_bound; lia.
Qed.


(** The whole-frame rectangle gives the mask that is 255 everywhere. *)
Lemma create_garment_region_mask_full image garment_type y x :
  garment_region (Pil.width image) (Pil.height image) garment_type
    = (0, 0, Pil.width image, Pil.height image) →
  0 ≤ y < Pil.height image → 0 ≤ x < Pil.width image →
  get (create_garment_region_mask image garment_type) y x = Some 255.
Proof.
  intros Hr Hy Hx. rewrite (create_garment_region_mask_unfold _ _ _ _ _ _ Hr).
  set (h := Pil.height image) in *. set (w := Pil.width image) in *.
  set (m1 := rectangle (zeros h w) (0, 0) (w, h) 255).
  assert (Hm0 : is_uint8 h w (zeros h w)) by (apply is_uint8_zeros; lia).
  assert (Hm1 : is_uint8 h w m1) by (apply rectangle_uint8; [done | lia]).
  set (k := getStructuringElement _).
  assert (Hm2 : is_uint8 h w (dilate_once m1 k)) by by apply dilate_once_uint8.
  apply (GaussianBlur_const h w); [done | lia | lia | lia | | done..].
  intros y' x' Hy' Hx'.
  assert (Hg1 : get m1 y' x' = Some 255).
  { unfold m1. rewrite (rectangle_get h w) by done.
    rewrite bool_decide_eq_true_2; [done|]. simpl. lia. }
  destruct (dilate_once_extensive h w m1 k y' x' 255 Hm1
              dilation_kernel_centre Hg1) as (v2 & Hg2 & Hv2).
  destruct (is_uint8_get_Some h w _ _ _ _ Hm2 Hg2) as (_ & _ & Hb).
  rewrite Hg2. f_equal. lia.
Qed.

(** *** [refine_mask] *)


(** Refining a refined mask changes nothing, whatever the mask and the
    number of rounds. *)
Lemma refine_mask_idempotent h w mask n :
  is_uint8 h w mask →
  refine_mask (refine_mask mask n) n = refine_mask mask n.
Proof.
  intros Hm. unfold refine_mask.
  by apply (open_close_idempotent h w _ n mask refine_kernel_symmetric).
Qed.

End Masking_facts.

(** ** PIL image objects in a store *)

Module PilStore.
Import Pil.

(** Image objects are mutable and passed by reference: the store maps an
    object's identity to its current value. *)
Record World := mkWorld {
  images : gmap nat Image;
  clock_reads : nat          (* calls of [time.time()] so far *)
}.

(** What the program takes from its environment: the resampling filter of
    [Image.resize], the wall clock and the subtraction of two of its
    readings. *)
Record Runtime := mkRuntime {
  lanczos : Image → Z * Z → Z → Z → Z * Z * Z;
  wall_clock : nat → Float64.float;
  float_sub : Float64.float → Float64.float → Float64.float
}.

(** A computation that reads and writes the store and may raise; the
    store survives a raise. *)
Definition M (A : Type) : Type := World → Py.result A * World.

Definition ret {A} (a : A) : M A := λ σ, (Py.Ok a, σ).

Definition raise {A} (e : Py.exn) : M A := λ σ, (Py.Raise e, σ).

Definition bind {A B} (m : M A) (k : A → M B) : M B :=
  λ σ, match m σ with
       | (Py.Ok a, σ') => k a σ'
       | (Py.Raise e, σ') => (Py.Raise e, σ')
       end.

(** [try: m  except Exception as e: handler e]. *)
Definition try_except {A} (m : M A) (handler : Py.exn → M A) : M A :=
  λ σ, match m σ with
       | (Py.Ok a, σ') => (Py.Ok a, σ')
       | (Py.Raise e, σ') => handler e σ'
       end.

(** The outcome of a call into a library that leaves the store alone. *)
Definition call {A} (r : Py.result A) : M A := λ σ, (r, σ).

(** The current value of an image object. *)
Definition deref (image : nat) : M Image :=
  λ σ, match images σ !! image with
       | Some im => (Py.Ok im, σ)
       | None => (Py.Raise (Py.mk_exn "ReferenceError" "no such object"), σ)
       end.

(** [time.time()]. *)
Definition time_time (rt : Runtime) : M Float64.float :=
  λ σ, (Py.Ok (wall_clock rt (clock_reads σ)),
        mkWorld (images σ) (S (clock_reads σ))).

(** [round_aspect(number, key)] of [Image.thumbnail], for the number
    [num / den] and a key given by the error's numerator and denominator:
    the better of floor and ceiling, the floor on a tie, and at least 1. *)
Definition round_aspect (num den : Z) (key : Z → Z * Z) : Z :=
  let lo := num / den in
  let hi := - ((- num) / den) in
  let klo := key lo in
  let khi := key hi in
  Z.max (if klo.1 * khi.2 <=? khi.1 * klo.2 then lo else hi) 1.

(** [preserve_aspect_ratio()] of [Image.thumbnail]: the new size of a
    [w] x [h] image for the bound [(x, y)], [None] when it already fits.
    Pillow evaluates the quotients in double precision; they are exact
    here. *)
Definition thumbnail_size (w h : Z) (size : Z * Z) : option (Z * Z) :=
  let x := size.1 in
  let y := size.2 in
  if (w <=? x) && (h <=? y) then None
  else if w * y <=? x * h
  then Some (round_aspect (y * w) h (λ n, (Z.abs (w * y - n * h), h * y)), y)
  else Some (x, round_aspect (x * h) w
                  (λ n, if n =? 0 then (0, 1)
                        else (Z.abs (w * n - x * h), h * n))).

(** The value [im.thumbnail(size, LANCZOS)] leaves in [im]. *)
Definition thumbnail_value (rt : Runtime) (im : Image) (size : Z * Z) : Image :=
  match thumbnail_size (width im) (height im) size with
  | None => im
  | Some new_size =>
      if decide ((width im, height im) = new_size) then im
      else mkImage new_size.1 new_size.2 (lanczos rt im new_size)
  end.

(** [image.thumbnail(size, Image.Resampling.LANCZOS)]: in place. *)
Definition thumbnail (rt : Runtime) (image : nat) (size : Z * Z) : M () :=
  bind (deref image) (λ im σ,
    (Py.Ok (), mkWorld (<[image := thumbnail_value rt im size]> (images σ))
                       (clock_reads σ))).

End PilStore.

Declare Scope py_scope.
Delimit Scope py_scope with py.
Notation "x <- m ;; k" := (PilStore.bind m (λ x, k))
  (at level 100, m at next level, right associativity) : py_scope.

Example thumbnail_size_portrait :
  PilStore.thumbnail_size 1536 2048 (768, 1024) = Some (768, 1024).
Proof. reflexivity. Qed.

Example thumbnail_size_square :
  PilStore.thumbnail_size 2000 2000 (768, 1024) = Some (768, 768).
Proof. reflexivity. Qed.

Example thumbnail_size_wide :
  PilStore.thumbnail_size 4000 1000 (768, 1024) = Some (768, 192).
Proof. reflexivity. Qed.

Example thumbnail_size_small :
  PilStore.thumbnail_size 512 512 (768, 1024) = None.
Proof. reflexivity. Qed.

(** ** [backend/utils/image_processor.py]: [ImageProcessor] *)

Module ImageProcessor.
Import PilStore.
Local Open Scope py_scope.

(** [ImageProcessor.resize_image(image, max_size)]. *)
Definition resize_image (rt : Runtime) (image : nat) (max_size : Z * Z) : M nat :=
  _ <- thumbnail rt image max_size ;;
  ret image.

End ImageProcessor.

(** ** [backend/utils/inference.py]: [InferencePipeline] *)

Module Classifier.

(** The dict [ClothingClassifier.classify] returns. *)
Record classification := mk_classification {
  garment_type : string;
  confidence : Float64.float;
  alternatives : list string
}.

End Classifier.

Module Inference.
Import Np PilStore.
Local Open Scope py_scope.

(** The items of the [garment_prompts] dict. *)
Definition garment_prompt_items : list (string * string) :=
  [ ("hat", "wearing a stylish hat");
    ("cap", "wearing a cap");
    ("glasses", "wearing glasses");
    ("sunglasses", "wearing sunglasses");
    ("shirt", "wearing a button-up shirt");
    ("t-shirt", "wearing a t-shirt");
    ("blouse", "wearing a blouse");
    ("dress", "wearing a dress");
    ("jacket", "wearing a jacket");
    ("coat", "wearing a coat");
    ("sweater", "wearing a sweater");
    ("hoodie", "wearing a hoodie");
    ("pants", "wearing pants");
    ("jeans", "wearing jeans");
    ("skirt", "wearing a skirt");
    ("shoes", "wearing shoes");
    ("scarf", "wearing a scarf");
    ("tie", "wearing a tie") ].

Definition garment_prompts : gmap string string :=
  list_to_map garment_prompt_items.

(** The fixed tail of every prompt. *)
Definition prompt_suffix : string :=
  ", photorealistic, high quality, " +:+
  "professional photography, natural lighting, detailed fabric texture".

(** [InferencePipeline._generate_prompt(garment_type, base_prompt)]. *)
Definition _generate_prompt (garment_type base_prompt : string) : string :=
  let garment_detail :=
    default ("wearing " +:+ garment_type)
            (garment_prompts !! Py.lower garment_type) in
  "A person " +:+ garment_detail +:+ prompt_suffix.

(** The collaborators an [InferencePipeline] holds: the garment
    classifier ([backend.models.ClothingClassifier.classify]) and the
    inpainting pipeline, called with prompt, image, mask image, guidance
    scale and step count.  Either may raise. *)
Record InferencePipeline := mkPipeline {
  device : string;
  classifier : Pil.Image → Py.result Classifier.classification;
  pipeline : string → Pil.Image → ndarray → Float64.float → Z →
             Py.result Pil.Image
}.

(** The dict [generate_try_on] returns; [mask] is the mode-L image made
    of the mask array. *)
Record TryOnResult := mkTryOnResult {
  result_image : Pil.Image;
  garment_detected : string;
  confidence : Float64.float;
  mask : ndarray;
  processing_time : Float64.float
}.

(** [InferencePipeline.classify_garment(garment_image)]. *)
Definition classify_garment (self : InferencePipeline) (garment_image : nat)
    : M Classifier.classification :=
  im <- deref garment_image ;;
  call (classifier self im).

(** [InferencePipeline.generate_try_on(person_image, garment_image,
    garment_type, guided_scale, num_inference_steps)]. *)
Definition generate_try_on (rt : Runtime) (self : InferencePipeline)
    (person_image garment_image : nat) (garment_type : option string)
    (guided_scale : Float64.float) (num_inference_steps : Z) : M TryOnResult :=
  start_time <- time_time rt ;;
  try_except
    (person_image <-
       ImageProcessor.resize_image rt person_image Config.MAX_IMAGE_SIZE ;;
     garment_image <-
       ImageProcessor.resize_image rt garment_image Config.MAX_IMAGE_SIZE ;;
     detected <-
       match garment_type with
       | None =>
           classification <- classify_garment self garment_image ;;
           ret (Classifier.garment_type classification,
                Classifier.confidence classification)
       | Some garment_type => ret (garment_type, Float64.one)
       end ;;
     let garment_type := detected.1 in
     let confidence := detected.2 in
     person <- deref person_image ;;
     let mask := Masking.create_garment_region_mask person garment_type in
     let mask := Masking.refine_mask mask 2 in
     let mask_image := mask in
     let prompt :=
       _generate_prompt garment_type "person wearing high-quality clothing" in
     result_image <-
       call (pipeline self prompt person mask_image guided_scale
               num_inference_steps) ;;
     end_time <- time_time rt ;;
     let processing_time := float_sub rt end_time start_time in
     ret (mkTryOnResult result_image garment_type confidence mask_image
            processing_time))
    (λ e, raise e).

(** An entry of the list [batch_try_on] returns: a result dict or
    [{"error": str(e)}]. *)
Inductive BatchEntry :=
  | Success (result : TryOnResult)
  | Failure (error : string).

(** [garment_types[i] if garment_types else None]: an empty list counts as
    absent, an index past the end raises. *)
Definition garment_type_at (garment_types : option (list (option string)))
    (i : nat) : M (option string) :=
  match garment_types with
  | None | Some [] => ret None
  | Some types =>
      match types !! i with
      | Some garment_type => ret garment_type
      | None => raise (Py.mk_exn "IndexError" "list index out of range")
      end
  end.

(** The loop of [batch_try_on] from index [i] on. *)
Fixpoint batch_loop (rt : Runtime) (self : InferencePipeline) (i : nat)
    (pairs : list (nat * nat)) (garment_types : option (list (option string)))
    (results : list BatchEntry) : M (list BatchEntry) :=
  match pairs with
  | [] => ret results
  | (person_img, garment_img) :: pairs =>
      garment_type <- garment_type_at garment_types i ;;
      results <-
        try_except
          (result <- generate_try_on rt self person_img garment_img
                       garment_type Config.GUIDANCE_SCALE
                       Config.NUM_INFERENCE_STEPS ;;
           ret (results ++ [Success result]))
          (λ e, ret (results ++ [Failure (Py.exn_str e)])) ;;
      batch_loop rt self (S i) pairs garment_types results
  end.

(** [InferencePipeline.batch_try_on(person_images, garment_images,
    garment_types)]. *)
Definition batch_try_on (rt : Runtime) (self : InferencePipeline)
    (person_images garment_images : list nat)
    (garment_types : option (list (option string))) : M (list BatchEntry) :=
  batch_loop rt self 0 (zip person_images garment_images) garment_types [].

End Inference.

Example prompt_hat :
  Inference._generate_prompt "hat" "person wearing high-quality clothing" =
  "A person wearing a stylish hat, photorealistic, high quality, professional photography, natural lighting, detailed fabric texture".
Proof. reflexivity. Qed.

Example prompt_unknown :
  Inference._generate_prompt "Kimono" "" =
  "A person wearing Kimono, photorealistic, high quality, professional photography, natural lighting, detailed fabric texture".
Proof. reflexivity. Qed.

(** ** The region mask: table, shape and support *)

Section Region_mask_claims.
Import Np Cv2 Masking.



(** C2.  For every garment category (the supported ones and any other
    string) and every image of width and height at least 1, the mask the
    region-mask operation returns has the image's dimensions [(h, w)] and
    at least one non-zero pixel. *)
Theorem region_mask_shape_and_coverage (image : Pil.Image)
    (garment_type : string) :
  let w := Pil.width image in
  let h := Pil.height image in
  1 ≤ w < 2 ^ 32 → 1 ≤ h < 2 ^ 32 →
  shape (create_garment_region_mask image garment_type) = (h, w) ∧
  0 < count_nonzero (create_garment_region_mask image garment_type).
Proof.
  intros w h Hw Hh. split.
  - apply is_uint8_shape; [lia|].
    apply create_garment_region_mask_uint8; lia.
  - destruct (garment_region w h garment_type) as [[[x1 y1] x2] y2] eqn:Hr.
    destruct (garment_region_corner w h garment_type _ _ _ _ Hw Hh Hr)
      as [Hx1 Hy1].
    destruct (create_garment_region_mask_corner image garment_type
                _ _ _ _ Hr Hx1 Hy1) as (v & Hv & Hne).
    apply count_nonzero_pos. eauto.
Qed.

Lemma region_mask_shape_and_coverage_witness :
  let image := Pil.new (512, 512) (0, 0, 255) in
  (1 ≤ Pil.width image < 2 ^ 32 ∧ 1 ≤ Pil.height image < 2 ^ 32) ∧
  shape (create_garment_region_mask image "shirt") = (512, 512) ∧
  0 < count_nonzero (create_garment_region_mask image "shirt").
Proof.
  intros image.
  assert (H1 : 1 ≤ Pil.width image < 2 ^ 32) by (simpl; lia).
  assert (H2 : 1 ≤ Pil.height image < 2 ^ 32) by (simpl; lia).
  split; [by split|].
  exact (region_mask_shape_and_coverage image "shirt" H1 H2).
Defined.

End Region_mask_claims.

(** ** Refinement and statistics *)

Section Refine_statistics_claims.
Import Np Cv2 Masking.

(** C7.  Mask refinement is stable after one application: for a solid
    filled rectangle, as the region engine draws it, refining twice with
    the default iteration count 2 gives the same mask as refining once, and
    so does any further number of rounds. *)
Theorem refine_mask_stable_on_rectangle (h w : Z) (pt1 pt2 : Z * Z) :
  0 ≤ h → 0 ≤ w →
  let mask := rectangle (zeros h w) pt1 pt2 255 in
  refine_mask (refine_mask mask 2) 2 = refine_mask mask 2 ∧
  ∀ rounds : nat,
    Nat.iter (S rounds) (λ m, refine_mask m 2) mask = refine_mask mask 2.
Proof.
  intros Hh Hw mask.
  assert (Hm : is_uint8 h w mask).
  { apply rectangle_uint8; [|lia]. by apply is_uint8_zeros. }
  split; [by apply (refine_mask_idempotent h w)|].
  intros rounds. induction rounds as [|rounds IH]; [done|].
  change (Nat.iter (S (S rounds)) (λ m, refine_mask m 2) mask)
    with (refine_mask (Nat.iter (S rounds) (λ m, refine_mask m 2) mask) 2).
  rewrite IH. by apply (refine_mask_idempotent h w).
Qed.

Lemma refine_mask_stable_on_rectangle_witness :
  (0 ≤ 6 ∧ 0 ≤ 8) ∧
  let mask := rectangle (zeros 6 8) (2, 1) (5, 3) 255 in
  refine_mask (refine_mask mask 2) 2 = refine_mask mask 2.
Proof.
  assert (H1 : 0 ≤ 6) by lia. assert (H2 : 0 ≤ 8) by lia.
  split; [by split|].
  exact (proj1 (refine_mask_stable_on_rectangle 6 8 (2, 1) (5, 3) H1 H2)).
Defined.

(** C8.  For every non-empty mask the statistics operation returns a
    result (it does not raise) whose total is the number of pixels, whose
    masked count is the number of non-zero pixels, and whose coverage
    percentage lies in [0, 100] and is 0 exactly when no pixel is non-zero.
    The operation is a function of the mask's value alone: it reads the
    mask and the store does not occur in it. *)
Theorem mask_statistics_coverage (h w : Z) (mask : ndarray) :
  is_uint8 h w mask → 0 < h → 0 < w →
  ∃ st, get_mask_statistics mask = Py.Ok st ∧
    total_pixels st = h * w ∧
    masked_pixels st = count_nonzero mask ∧
    0 ≤ masked_pixels st ≤ total_pixels st ∧
    Float64.leb (Float64.of_int 0) (coverage_percentage st) = true ∧
    Float64.leb (coverage_percentage st) (Float64.of_int 100) = true ∧
    (Float64.is_zero (coverage_percentage st) = true ↔
     ∀ y x v, get mask y x = Some v → v = 0).
Proof.
  intros Hm Hh Hw.
  pose proof (size_is_uint8 h w mask ltac:(lia) Hm) as Hsize.
  pose proof (count_nonzero_le_size mask) as Hcount.
  assert (0 < size mask) by (rewrite Hsize; by apply Z.mul_pos_pos).
  unfold get_mask_statistics, Float64.div_int.
  destruct (Z.eqb_spec (size mask) 0); [lia|].
  eexists. split; [done|]. cbn [total_pixels masked_pixels coverage_percentage].
  destruct (percentage_bounds (count_nonzero mask) (size mask) Hcount
              ltac:(lia)) as (H0 & H100 & Hzero).
  repeat split; try done; try lia.
  - intros Hz. by apply count_nonzero_zero, Hzero.
  - intros Hall. by apply Hzero, count_nonzero_zero.
Qed.

Lemma mask_statistics_coverage_witness :
  (is_uint8 2 3 [[0; 255; 0]; [0; 0; 9]] ∧ 0 < 2 ∧ 0 < 3) ∧
  ∃ st, get_mask_statistics [[0; 255; 0]; [0; 0; 9]] = Py.Ok st ∧
        total_pixels st = 2 * 3.
Proof.
  assert (H1 : is_uint8 2 3 [[0; 255; 0]; [0; 0; 9]]).
  { split; [done|]. repeat constructor; simpl; lia. }
  assert (H2 : 0 < 2) by lia. assert (H3 : 0 < 3) by lia.
  split; [done|].
  destruct (mask_statistics_coverage 2 3 _ H1 H2 H3) as (st & Hst & Htot & _).
  by exists st.
Defined.

End Refine_statistics_claims.

(** ** Unknown categories and the prompt builder *)

Section Fallback_prompt_claims.
Import Np Cv2 Masking Inference.

(** The keys of [garment_prompts]. *)
Definition prompt_keys : list string := garment_prompt_items.*1.

Lemma prompt_keys_NoDup : NoDup prompt_keys.
Proof. apply (bool_decide_unpack _). by vm_compute. Qed.

Lemma garment_prompts_lookup key clause :
  (key, clause) ∈ garment_prompt_items → garment_prompts !! key = Some clause.
Proof.
  intros Hin. apply elem_of_list_to_map_1; [apply prompt_keys_NoDup | done].
Qed.

Lemma garment_prompts_lookup_None key :
  key ∉ prompt_keys → garment_prompts !! key = None.
Proof. apply not_elem_of_list_to_map_1. Qed.

Lemma prefix_app (sub post : string) : String.prefix sub (sub +:+ post) = true.
Proof.
  induction sub as [|c sub IH]; simpl; [by destruct post|].
  destruct (Ascii.ascii_dec c c); [exact IH | done].
Qed.

Lemma contains_prefix (s sub : string) :
  String.prefix sub s = true → Py.contains s sub = true.
Proof. intros H. destruct s; simpl in *; by rewrite H. Qed.

Lemma contains_app (pre sub post : string) :
  Py.contains (pre +:+ sub +:+ post) sub = true.
Proof.
  induction pre as [|c pre IH].
  - change ("" +:+ sub +:+ post) with (sub +:+ post).
    apply contains_prefix, prefix_app.
  - change (String c pre +:+ sub +:+ post)
      with (String c (pre +:+ sub +:+ post)).
    cbn [Py.contains]. rewrite IH. apply orb_true_r.
Qed.

(** What the prompt-builder returns for a category outside its table. *)
Lemma generate_prompt_unknown garment_type base_prompt :
  Py.lower garment_type ∉ prompt_keys →
  _generate_prompt garment_type base_prompt =
  "A person " +:+ ("wearing " +:+ garment_type) +:+ prompt_suffix.
Proof.
  intros Hk. unfold _generate_prompt.
  by rewrite garment_prompts_lookup_None.
Qed.

(** What it returns for a category of the table. *)
Lemma generate_prompt_known garment_type base_prompt clause :
  (Py.lower garment_type, clause) ∈ garment_prompt_items →
  _generate_prompt garment_type base_prompt =
  "A person " +:+ clause +:+ prompt_suffix.
Proof.
  intros Hk. unfold _generate_prompt.
  by rewrite (garment_prompts_lookup _ clause).
Qed.

(** C3, as the code has it.  The tables are looked up with the category
    in lower case.  For every category string whose lower-case form is not
    a key of the region table, the region-mask operation uses the
    full-frame rectangle [(0, 0, width, height)] and does not fail: every
    pixel of the mask is 255 and the coverage is 100%.  For every category
    string whose lower-case form is not a key of the prompt table, the
    prompt is "A person wearing " followed by the category string verbatim
    and the fixed suffix, so it contains "wearing " + category. *)
Theorem unknown_category_fallback (image : Pil.Image)
    (garment_type base_prompt : string) :
  let w := Pil.width image in
  let h := Pil.height image in
  1 ≤ w → 1 ≤ h →
  (Py.lower garment_type ∉ region_keys →
     garment_region w h garment_type = (0, 0, w, h) ∧
     (∀ y x, 0 ≤ y < h → 0 ≤ x < w →
        get (create_garment_region_mask image garment_type) y x = Some 255) ∧
     ∃ st,
       get_mask_statistics (create_garment_region_mask image garment_type)
         = Py.Ok st ∧
       masked_pixels st = total_pixels st ∧
       Float64.eqb (coverage_percentage st) (Float64.of_int 100) = true) ∧
  (Py.lower garment_type ∉ prompt_keys →
     _generate_prompt garment_type base_prompt =
       "A person " +:+ ("wearing " +:+ garment_type) +:+ prompt_suffix ∧
     Py.contains (_generate_prompt garment_type base_prompt)
                 ("wearing " +:+ garment_type) = true).
Proof.
  intros w h Hw Hh. split.
  - intros Hk.
    pose proof (garment_region_fallback w h garment_type Hk) as Hr.
    split; [exact Hr|].
    assert (Hall : ∀ y x, 0 ≤ y < h → 0 ≤ x < w →
       get (create_garment_region_mask image garment_type) y x = Some 255)
      by (intros; by apply create_garment_region_mask_full).
    split; [exact Hall|].
    set (m := create_garment_region_mask image garment_type) in *.
    assert (Hm : is_uint8 h w m)
      by (apply create_garment_region_mask_uint8; lia).
    assert (Hcount : count_nonzero m = size m).
    { apply count_nonzero_all. intros y x v Hv.
      destruct (is_uint8_get_Some h w _ _ _ _ Hm Hv) as (Hy & Hx & _).
      rewrite Hall in Hv by done. by injection Hv as <-. }
    assert (Hsize : size m = h * w) by (apply size_is_uint8; [lia | done]).
    assert (0 < size m) by (rewrite Hsize; apply Z.mul_pos_pos; lia).
    unfold get_mask_statistics, Float64.div_int.
    destruct (Z.eqb_spec (size m) 0); [lia|].
    eexists. split; [done|].
    cbn [total_pixels masked_pixels coverage_percentage].
    split; [done|]. rewrite Hcount, percentage_full by done. reflexivity.
  - intros Hk. rewrite (generate_prompt_unknown _ _ Hk). split; [done|].
    apply contains_app.
Qed.

Lemma unknown_category_fallback_witness :
  let image := Pil.new (512, 512) (0, 0, 255) in
  (1 ≤ Pil.width image ∧ 1 ≤ Pil.height image ∧
   (Py.lower "Kimono" ∉ region_keys) ∧ (Py.lower "Kimono" ∉ prompt_keys)) ∧
  garment_region 512 512 "Kimono" = (0, 0, 512, 512) ∧
  Py.contains (_generate_prompt "Kimono" "") "wearing Kimono" = true.
Proof.
  intros image.
  assert (H1 : 1 ≤ Pil.width image) by (simpl; lia).
  assert (H2 : 1 ≤ Pil.height image) by (simpl; lia).
  assert (H3 : Py.lower "Kimono" ∉ region_keys)
    by (apply (bool_decide_unpack _); by vm_compute).
  assert (H4 : Py.lower "Kimono" ∉ prompt_keys)
    by (apply (bool_decide_unpack _); by vm_compute).
  split; [repeat split; assumption|].
  destruct (unknown_category_fallback image "Kimono" "" H1 H2) as [Hr Hp].
  split.
  - exact (proj1 (Hr H3)).
  - exact (proj2 (Hp H4)).
Defined.

(** C3 as stated fails on a category that differs from a key only in
    case: "HAT" is not a key of either table, yet the region is the hat's
    and the prompt does not contain "wearing HAT". *)
Lemma unknown_category_fallback_counterexample :
  ("HAT" ∉ region_keys) ∧
  garment_region 512 512 "HAT" = (0, 0, 512, 76) ∧
  garment_region 512 512 "HAT" ≠ (0, 0, 512, 512) ∧
  ("HAT" ∉ prompt_keys) ∧
  _generate_prompt "HAT" "person wearing high-quality clothing" =
    "A person wearing a stylish hat" +:+ prompt_suffix ∧
  Py.contains (_generate_prompt "HAT" "person wearing high-quality clothing")
              "wearing HAT" = false.
Proof.
  split; [apply (bool_decide_unpack _); by vm_compute|].
  split; [by vm_compute|]. split; [by vm_compute|].
  split; [apply (bool_decide_unpack _); by vm_compute|].
  split; by vm_compute.
Qed.

(** C4.  The prompt is "A person ", the category's clause and the fixed
    suffix: the clause is the table entry when the lower-cased category is
    a key ("wearing a hoodie" for "hoodie") and "wearing " + category
    otherwise; the suffix is the same text for every input, and the prompt
    depends on the category alone (the base prompt is not used). *)
Theorem prompt_structure (garment_type base_prompt : string) :
  prompt_suffix =
    ", photorealistic, high quality, professional photography, natural lighting, detailed fabric texture" ∧
  (∃ clause,
     _generate_prompt garment_type base_prompt =
       "A person " +:+ clause +:+ prompt_suffix ∧
     ((Py.lower garment_type, clause) ∈ garment_prompt_items ∨
      ((Py.lower garment_type ∉ prompt_keys) ∧
       clause = "wearing " +:+ garment_type))) ∧
  _generate_prompt "hoodie" base_prompt =
    "A person wearing a hoodie" +:+ prompt_suffix ∧
  (∀ other_base : string,
     _generate_prompt garment_type other_base =
     _generate_prompt garment_type base_prompt).
Proof.
  split; [reflexivity|]. split; [|split; [reflexivity | done]].
  unfold _generate_prompt.
  destruct (garment_prompts !! Py.lower garment_type) as [clause|] eqn:Hl.
  - exists clause. split; [done|]. left.
    by apply elem_of_list_to_map_2.
  - exists ("wearing " +:+ garment_type). split; [done|]. right.
    split; [|done]. by apply not_elem_of_list_to_map.
Qed.



End Fallback_prompt_claims.

(** ** Resizing in place *)

Section Resize_facts.
Import Pil PilStore ImageProcessor.

(** An image with at least one pixel. *)
Definition valid_image (im : Image) : Prop := 1 ≤ width im ∧ 1 ≤ height im.

Lemma round_aspect_bounds num den key B :
  0 < den → 1 ≤ B → num ≤ B * den → 1 ≤ round_aspect num den key ≤ B.
Proof.
  intros Hden HB Hnum. unfold round_aspect.
  assert (num / den ≤ B) by (apply Z.div_le_upper_bound; lia).
  assert (- B ≤ - num / den) by (apply Z.div_le_lower_bound; lia).
  case_match; lia.
Qed.

(** The size [thumbnail] picks fits within the bound. *)
Lemma thumbnail_size_fits w h size new_size :
  1 ≤ w → 1 ≤ h → 1 ≤ size.1 → 1 ≤ size.2 →
  thumbnail_size w h size = Some new_size →
  1 ≤ new_size.1 ≤ size.1 ∧ 1 ≤ new_size.2 ≤ size.2.
Proof.
  intros Hw Hh Hx Hy. unfold thumbnail_size.
  destruct ((w <=? size.1) && (h <=? size.2)); [done|].
  destruct (Z.leb_spec (w * size.2) (size.1 * h)) as [Hle|Hgt];
    intros [= <-]; simpl.
  - split; [|lia]. apply round_aspect_bounds; lia.
  - split; [lia|]. apply round_aspect_bounds; lia.
Qed.

Lemma thumbnail_size_None w h size :
  w ≤ size.1 → h ≤ size.2 → thumbnail_size w h size = None.
Proof.
  intros Hw Hh. unfold thumbnail_size.
  destruct (Z.leb_spec w size.1); [|lia].
  destruct (Z.leb_spec h size.2); [|lia]. done.
Qed.

Lemma thumbnail_size_Some w h size :
  ¬ (w ≤ size.1 ∧ h ≤ size.2) → is_Some (thumbnail_size w h size).
Proof.
  intros Hbig. unfold thumbnail_size.
  destruct (Z.leb_spec w size.1); destruct (Z.leb_spec h size.2);
    simpl; try lia; case_match; eauto.
Qed.

Lemma thumbnail_value_fits rt im size :
  valid_image im → 1 ≤ size.1 → 1 ≤ size.2 →
  valid_image (thumbnail_value rt im size) ∧
  width (thumbnail_value rt im size) ≤ size.1 ∧
  height (thumbnail_value rt im size) ≤ size.2.
Proof.
  intros [Hw Hh] Hx Hy. unfold thumbnail_value.
  destruct (thumbnail_size (width im) (height im) size) as [new_size|] eqn:Hs.
  - pose proof (thumbnail_size_fits _ _ _ _ Hw Hh Hx Hy Hs) as [H1 H2].
    case_decide as Heq.
    + rewrite <- Heq in H1, H2. simpl in *. split; [done|]. lia.
    + unfold valid_image. simpl. lia.
  - unfold thumbnail_size in Hs.
    destruct (Z.leb_spec (width im) size.1);
      destruct (Z.leb_spec (height im) size.2);
      simpl in Hs; try (by case_match); done.
Qed.

(** An image that already fits is left as it is. *)
Lemma thumbnail_value_small rt im size :
  width im ≤ size.1 → height im ≤ size.2 → thumbnail_value rt im size = im.
Proof.
  intros Hw Hh. unfold thumbnail_value. by rewrite thumbnail_size_None.
Qed.


(** Making a thumbnail of a thumbnail changes nothing. *)
Lemma thumbnail_value_idempotent rt im size :
  valid_image im → 1 ≤ size.1 → 1 ≤ size.2 →
  thumbnail_value rt (thumbnail_value rt im size) size =
  thumbnail_value rt im size.
Proof.
  intros Hv Hx Hy.
  destruct (thumbnail_value_fits rt im size Hv Hx Hy) as (_ & ? & ?).
  by apply thumbnail_value_small.
Qed.

(** [resize_image] returns the reference it was given and replaces the
    object's value by its thumbnail. *)
Lemma resize_image_run rt image max_size σ im :
  images σ !! image = Some im →
  resize_image rt image max_size σ =
  (Py.Ok image,
   mkWorld (<[image := thumbnail_value rt im max_size]> (images σ))
           (clock_reads σ)).
Proof.
  intros Him. unfold resize_image, thumbnail, bind, deref, ret.
  by rewrite Him.
Qed.

Lemma resize_image_missing rt image max_size σ :
  images σ !! image = None →
  resize_image rt image max_size σ =
  (Py.Raise (Py.mk_exn "ReferenceError" "no such object"), σ).
Proof.
  intros Him. unfold resize_image, thumbnail, bind, deref, ret.
  by rewrite Him.
Qed.


End Resize_facts.

(** A concrete runtime for examples: nearest-neighbour resampling and a
    clock that reads whole seconds. *)
Definition example_runtime : PilStore.Runtime :=
  PilStore.mkRuntime
    (λ im size y x,
       Pil.getpixel im (y * Pil.height im / size.2) (x * Pil.width im / size.1))
    (λ n, Float64.mk (1700000000 + Z.of_nat n) 0)
    (λ a b, Float64.mk (Float64.mant a - Float64.mant b) 0).




(** ** The orchestrator *)

Section Orchestrator_facts.
Import Np Pil PilStore ImageProcessor Masking Inference.

(** The value the Normalize stage leaves in an image object. *)
Definition normalized (rt : Runtime) (im : Image) : Image :=
  thumbnail_value rt im Config.MAX_IMAGE_SIZE.

(** The Classify stage: the category and confidence the later stages
    use. *)
Definition resolve_category (self : InferencePipeline) (garment : Image)
    (garment_type : option string) : Py.result (string * Float64.float) :=
  match garment_type with
  | None =>
      match classifier self garment with
      | Py.Ok c => Py.Ok (Classifier.garment_type c, Classifier.confidence c)
      | Py.Raise e => Py.Raise e
      end
  | Some t => Py.Ok (t, Float64.one)
  end.

(** The stages after Normalize, on the resized person and garment
    images, with the clock readings of the call's start and end. *)
Definition try_on_outcome (self : InferencePipeline) (person garment : Image)
    (garment_type : option string) (guided_scale : Float64.float)
    (num_inference_steps : Z) (elapsed : Float64.float)
    : Py.result TryOnResult :=
  match resolve_category self garment garment_type with
  | Py.Raise e => Py.Raise e
  | Py.Ok (t, c) =>
      let mask := refine_mask (create_garment_region_mask person t) 2 in
      match pipeline self
              (_generate_prompt t "person wearing high-quality clothing")
              person mask guided_scale num_inference_steps with
      | Py.Raise e => Py.Raise e
      | Py.Ok image => Py.Ok (mkTryOnResult image t c mask elapsed)
      end
  end.

(** One call of [generate_try_on], for image objects that exist: both are
    resized in place, the outcome is the one of the later stages on the
    resized values, and the clock is read once at the start and once more
    on success. *)
Lemma generate_try_on_run rt self p g gt gs n σ ip ig :
  images σ !! p = Some ip → images σ !! g = Some ig →
  valid_image ip → valid_image ig →
  let elapsed := float_sub rt (wall_clock rt (S (clock_reads σ)))
                              (wall_clock rt (clock_reads σ)) in
  let res := try_on_outcome self (normalized rt ip) (normalized rt ig)
               gt gs n elapsed in
  generate_try_on rt self p g gt gs n σ =
  (res,
   mkWorld (<[g := normalized rt ig]> (<[p := normalized rt ip]> (images σ)))
           (match res with
            | Py.Ok _ => S (S (clock_reads σ))
            | Py.Raise _ => S (clock_reads σ)
            end)).
Proof.
  intros Hp Hg Hvp Hvg elapsed res.
  assert (Hmax : 1 ≤ Config.MAX_IMAGE_SIZE.1 ∧ 1 ≤ Config.MAX_IMAGE_SIZE.2)
    by (simpl; lia).
  destruct Hmax as [Hx Hy].
  set (store2 := <[g := normalized rt ig]>
                   (<[p := normalized rt ip]> (images σ))).
  assert (H2g : store2 !! g = Some (normalized rt ig))
    by apply lookup_insert_eq.
  assert (H2p : store2 !! p = Some (normalized rt ip)).
  { unfold store2. destruct (decide (g = p)) as [->|Hne].
    - rewrite lookup_insert_eq. congruence.
    - rewrite lookup_insert_ne by done. apply lookup_insert_eq. }
  assert (Hstep : resize_image rt g Config.MAX_IMAGE_SIZE
            (mkWorld (<[p := normalized rt ip]> (images σ))
                     (S (clock_reads σ)))
          = (Py.Ok g, mkWorld store2 (S (clock_reads σ)))).
  { destruct (decide (g = p)) as [->|Hne].
    - assert (ig = ip) as -> by congruence.
      rewrite (resize_image_run rt p _ _ (normalized rt ip))
        by apply lookup_insert_eq.
      cbn [images clock_reads]. unfold store2, normalized.
      by rewrite thumbnail_value_idempotent.
    - rewrite (resize_image_run rt g _ _ ig)
        by (cbn [images]; by rewrite lookup_insert_ne).
      done. }
  unfold generate_try_on.
  unfold bind at 1. unfold time_time at 1.
  unfold try_except.
  unfold bind at 1.
  rewrite (resize_image_run rt p _ _ ip) by done.
  cbn [images clock_reads].
  unfold bind at 1.
  fold (normalized rt ip). rewrite Hstep.
  subst res. unfold try_on_outcome, resolve_category.
  destruct gt as [t|].
  - unfold bind, ret, deref, call, time_time, raise. cbn [images clock_reads fst snd].
    rewrite H2p.
    destruct (pipeline self _ _ _ _ _); done.
  - unfold classify_garment, bind, ret, deref, call, time_time, raise.
    cbn [images clock_reads fst snd]. rewrite H2g.
    destruct (classifier self (normalized rt ig)) as [c|e]; [|done].
    cbn [images clock_reads fst snd]. rewrite H2p.
    destruct (pipeline self _ _ _ _ _); done.
Qed.

Lemma normalized_valid rt im : valid_image im → valid_image (normalized rt im).
Proof.
  intros Hv. by apply thumbnail_value_fits; [|simpl; lia..].
Qed.

Lemma normalized_idempotent rt im :
  valid_image im → normalized rt (normalized rt im) = normalized rt im.
Proof.
  intros Hv. by apply thumbnail_value_idempotent; [|simpl; lia..].
Qed.

(** The fields of a result other than the elapsed time. *)
Definition same_result (r r' : TryOnResult) : Prop :=
  result_image r = result_image r' ∧
  garment_detected r = garment_detected r' ∧
  confidence r = confidence r' ∧
  mask r = mask r'.

(** The elapsed time only shows in [processing_time]. *)
Lemma try_on_outcome_elapsed self person garment gt gs n elapsed elapsed' :
  match try_on_outcome self person garment gt gs n elapsed,
        try_on_outcome self person garment gt gs n elapsed' with
  | Py.Ok r, Py.Ok r' => same_result r r'
  | Py.Raise e, Py.Raise e' => e = e'
  | _, _ => False
  end.
Proof.
  unfold try_on_outcome.
  destruct (resolve_category self garment gt) as [[t c]|e]; [|done].
  destruct (pipeline self _ _ _ _ _); done.
Qed.

(** Two stores show the same images to [generate_try_on] when each object
    of the first is, in the second, either as it was or already resized. *)
Definition same_view (rt : Runtime) (m m' : gmap nat Image) : Prop :=
  ∀ r im, m !! r = Some im → valid_image im →
    ∃ im', m' !! r = Some im' ∧ valid_image im' ∧
           normalized rt im' = normalized rt im.

Lemma same_view_refl rt m : same_view rt m m.
Proof. intros r im Hr Hv. eauto. Qed.

Lemma same_view_step rt m m' p g xp xg :
  same_view rt m m' →
  m' !! p = Some xp → m' !! g = Some xg → valid_image xp → valid_image xg →
  same_view rt m (<[g := normalized rt xg]> (<[p := normalized rt xp]> m')).
Proof.
  intros Hview Hp Hg Hvp Hvg r im Hr Hv.
  destruct (Hview r im Hr Hv) as (im' & Hr' & Hv' & Hn).
  destruct (decide (r = g)) as [->|Hrg].
  - exists (normalized rt xg). rewrite lookup_insert_eq.
    assert (im' = xg) as -> by congruence.
    split; [done|]. split; [by apply normalized_valid|].
    by rewrite normalized_idempotent.
  - rewrite lookup_insert_ne by done.
    destruct (decide (r = p)) as [->|Hrp].
    + exists (normalized rt xp). rewrite lookup_insert_eq.
      assert (im' = xp) as -> by congruence.
      split; [done|]. split; [by apply normalized_valid|].
      by rewrite normalized_idempotent.
    + rewrite lookup_insert_ne by done. eauto.
Qed.

(** [garment_types[i] if garment_types else None] for a list that covers
    the index. *)
Definition category_at (garment_types : option (list (option string)))
    (i : nat) : option string :=
  match garment_types with
  | Some types => default None (types !! i)
  | None => None
  end.

Lemma garment_type_at_covered garment_types i σ :
  match garment_types with
  | Some types => (i < length types)%nat
  | None => True
  end →
  garment_type_at garment_types i σ = (Py.Ok (category_at garment_types i), σ).
Proof.
  intros Hlen. unfold garment_type_at, category_at.
  destruct garment_types as [[|t types]|]; [simpl in Hlen; lia| |done].
  destruct (lookup_lt_is_Some_2 (t :: types) i Hlen) as [c Hc].
  by rewrite Hc.
Qed.

(** A call from a store with the same view has the outcome of the call
    from the original store, up to the elapsed time, and keeps the view. *)
Lemma generate_try_on_view rt self p g gt gs n σ σ' ip ig :
  images σ !! p = Some ip → images σ !! g = Some ig →
  valid_image ip → valid_image ig →
  same_view rt (images σ) (images σ') →
  ∃ elapsed' σ'',
    generate_try_on rt self p g gt gs n σ' =
      (try_on_outcome self (normalized rt ip) (normalized rt ig)
         gt gs n elapsed', σ'') ∧
    same_view rt (images σ) (images σ'').
Proof.
  intros Hp Hg Hvp Hvg Hview.
  destruct (Hview p ip Hp Hvp) as (xp & Hxp & Hvxp & Hnp).
  destruct (Hview g ig Hg Hvg) as (xg & Hxg & Hvxg & Hng).
  pose proof (generate_try_on_run rt self p g gt gs n σ' xp xg
                Hxp Hxg Hvxp Hvxg) as Hrun.
  cbv zeta in Hrun. rewrite Hnp, Hng in Hrun.
  eexists _, _. split; [exact Hrun|]. cbn [images].
  rewrite <- Hnp, <- Hng. by apply same_view_step.
Qed.

(** One round of the loop of [batch_try_on]: the item's outcome becomes
    an entry, a result or an error record, and the loop goes on. *)
Lemma batch_loop_cons rt self i p g pairs garment_types results σ :
  match garment_types with
  | Some types => (i < length types)%nat
  | None => True
  end →
  batch_loop rt self i ((p, g) :: pairs) garment_types results σ =
  let out := generate_try_on rt self p g (category_at garment_types i)
               Config.GUIDANCE_SCALE Config.NUM_INFERENCE_STEPS σ in
  batch_loop rt self (S i) pairs garment_types
    (results ++ [match out.1 with
                 | Py.Ok r => Success r
                 | Py.Raise e => Failure (Py.exn_str e)
                 end])
    out.2.
Proof.
  intros Hlen. cbn [batch_loop]. unfold bind at 1.
  rewrite garment_type_at_covered by done.
  unfold bind at 1. unfold try_except. unfold bind at 1.
  destruct (generate_try_on rt self p g _ _ _ σ) as [[r|e] σ']; done.
Qed.


(** C5, as the code has it.  If the caller supplied a garment category,
    the classification stage is skipped (the classifier has no influence on
    the call), the detected garment is the supplied category and the
    confidence is 1.0.  If no category was supplied, category and confidence
    are those the classifier returned for the resized garment image, so the
    confidence is 1.0 only if the classifier reported 1.0; with a classifier
    that never reports 1.0, the confidence is 1.0 exactly when a category
    was supplied. *)
Theorem try_on_confidence (rt : Runtime) (self : InferencePipeline)
    (person_image garment_image : nat) (garment_type : option string)
    (guided_scale : Float64.float) (num_inference_steps : Z)
    (σ : World) (ip ig : Image) :
  images σ !! person_image = Some ip → images σ !! garment_image = Some ig →
  valid_image ip → valid_image ig →
  match generate_try_on rt self person_image garment_image garment_type
          guided_scale num_inference_steps σ with
  | (Py.Ok r, σ') =>
      match garment_type with
      | Some t =>
          garment_detected r = t ∧ confidence r = Float64.one ∧
          ∀ other_classifier,
            generate_try_on rt
              (mkPipeline (device self) other_classifier (pipeline self))
              person_image garment_image garment_type
              guided_scale num_inference_steps σ = (Py.Ok r, σ')
      | None =>
          ∃ c garment,
            images σ' !! garment_image = Some garment ∧
            classifier self garment = Py.Ok c ∧
            garment_detected r = Classifier.garment_type c ∧
            confidence r = Classifier.confidence c
      end ∧
      ((∀ garment c, classifier self garment = Py.Ok c →
          Float64.eqb (Classifier.confidence c) Float64.one = false) →
       (Float64.eqb (confidence r) Float64.one = true ↔ is_Some garment_type))
  | (Py.Raise _, _) => True
  end.
Proof.
  intros Hp Hg Hvp Hvg.
  pose proof (generate_try_on_run rt self person_image garment_image
                garment_type guided_scale num_inference_steps σ ip ig
                Hp Hg Hvp Hvg) as Hrun.
  cbv zeta in Hrun. rewrite Hrun.
  destruct (try_on_outcome self _ _ garment_type _ _ _) as [r|e] eqn:Hout;
    [|done].
  unfold try_on_outcome, resolve_category in Hout.
  destruct garment_type as [t|].
  - destruct (pipeline self _ _ _ _ _) as [image|e] eqn:Hpipe; [|done].
    injection Hout as <-. cbn [garment_detected confidence].
    split; [|done].
    split; [done|]. split; [done|]. intros other_classifier.
    pose proof (generate_try_on_run rt
                  (mkPipeline (device self) other_classifier (pipeline self))
                  person_image garment_image
                  (Some t) guided_scale num_inference_steps σ ip ig
                  Hp Hg Hvp Hvg) as Hrun'.
    cbv zeta in Hrun'. rewrite Hrun'.
    unfold try_on_outcome, resolve_category. cbn [pipeline].
    by rewrite Hpipe.
  - destruct (classifier self (normalized rt ig)) as [c|e] eqn:Hc; [|done].
    destruct (pipeline self _ _ _ _ _) as [image|e] eqn:Hpipe; [|done].
    injection Hout as <-. cbn [garment_detected confidence images].
    split.
    + exists c, (normalized rt ig). by rewrite lookup_insert_eq.
    + intros Hnever. rewrite (Hnever _ _ Hc). split; [done|].
      by intros [? ?].
Qed.

(** A classifier that is sure of its answer, and a generator that returns
    the person image; a store with two small images. *)
Definition sure_pipeline : InferencePipeline :=
  mkPipeline "cpu"
    (λ _, Py.Ok (Classifier.mk_classification "shirt" Float64.one
                   ["t-shirt"; "blouse"]))
    (λ _ person _ _ _, Py.Ok person).

Definition small_world : World :=
  mkWorld {[ 0%nat := Pil.new (4, 6) (200, 180, 160);
             1%nat := Pil.new (3, 3) (10, 20, 200) ]} 0.

Lemma try_on_confidence_witness :
  (images small_world !! 0%nat = Some (Pil.new (4, 6) (200, 180, 160)) ∧
   images small_world !! 1%nat = Some (Pil.new (3, 3) (10, 20, 200)) ∧
   valid_image (Pil.new (4, 6) (200, 180, 160)) ∧
   valid_image (Pil.new (3, 3) (10, 20, 200))) ∧
  match generate_try_on example_runtime sure_pipeline 0 1 (Some "hat")
          Config.GUIDANCE_SCALE Config.NUM_INFERENCE_STEPS small_world with
  | (Py.Ok r, _) => garment_detected r = "hat" ∧ confidence r = Float64.one
  | (Py.Raise _, _) => True
  end.
Proof.
  assert (H1 : images small_world !! 0%nat
               = Some (Pil.new (4, 6) (200, 180, 160))) by reflexivity.
  assert (H2 : images small_world !! 1%nat
               = Some (Pil.new (3, 3) (10, 20, 200))) by reflexivity.
  assert (H3 : valid_image (Pil.new (4, 6) (200, 180, 160)))
    by (split; simpl; lia).
  assert (H4 : valid_image (Pil.new (3, 3) (10, 20, 200)))
    by (split; simpl; lia).
  split; [exact (conj H1 (conj H2 (conj H3 H4)))|].
  pose proof (try_on_confidence example_runtime sure_pipeline 0 1 (Some "hat")
                Config.GUIDANCE_SCALE Config.NUM_INFERENCE_STEPS small_world
                _ _ H1 H2 H3 H4) as Hthm.
  destruct (generate_try_on example_runtime sure_pipeline 0 1 (Some "hat")
              Config.GUIDANCE_SCALE Config.NUM_INFERENCE_STEPS small_world)
    as [[r|e] σ']; [|exact I].
  destruct Hthm as [(Hd & Hc & _) _]. by split.
Defined.

(** C5 as stated fails: without a supplied category the confidence is
    1.0 all the same when the classifier reports 1.0. *)
Lemma try_on_confidence_counterexample :
  match (generate_try_on example_runtime sure_pipeline 0 1 None
           Config.GUIDANCE_SCALE Config.NUM_INFERENCE_STEPS small_world).1 with
  | Py.Ok r =>
      garment_detected r = "shirt" ∧
      Float64.eqb (confidence r) Float64.one = true
  | Py.Raise _ => False
  end.
Proof. by vm_compute. Qed.

(** C6.  Batch try-on isolates per-item failures.  Take three
    index-aligned items over image objects of one store, with the category
    list absent or of length 3.  If, processed alone from that store, items
    1 and 3 succeed with results [r1] and [r3] and item 2 raises [e] (a
    generation failure or any other exception), then the batch returns a
    list of length 3: entry 1 is [r1], entry 2 is the error record of [e],
    and entry 3 is a successful result with the image, garment, confidence
    and mask of [r3] (its elapsed time is read off the clock later).  The
    failure of item 2 does not stop item 3, although the items share the
    store and resize its images in place. *)
Theorem batch_try_on_isolates_failure (rt : Runtime) (self : InferencePipeline)
    (σ : World) (p1 g1 p2 g2 p3 g3 : nat)
    (ip1 ig1 ip2 ig2 ip3 ig3 : Image)
    (garment_types : option (list (option string)))
    (r1 r3 : TryOnResult) (e : Py.exn) :
  images σ !! p1 = Some ip1 → images σ !! g1 = Some ig1 →
  images σ !! p2 = Some ip2 → images σ !! g2 = Some ig2 →
  images σ !! p3 = Some ip3 → images σ !! g3 = Some ig3 →
  valid_image ip1 → valid_image ig1 → valid_image ip2 →
  valid_image ig2 → valid_image ip3 → valid_image ig3 →
  match garment_types with
  | Some types => length types = 3%nat
  | None => True
  end →
  (generate_try_on rt self p1 g1 (category_at garment_types 0)
     Config.GUIDANCE_SCALE Config.NUM_INFERENCE_STEPS σ).1 = Py.Ok r1 →
  (generate_try_on rt self p2 g2 (category_at garment_types 1)
     Config.GUIDANCE_SCALE Config.NUM_INFERENCE_STEPS σ).1 = Py.Raise e →
  (generate_try_on rt self p3 g3 (category_at garment_types 2)
     Config.GUIDANCE_SCALE Config.NUM_INFERENCE_STEPS σ).1 = Py.Ok r3 →
  ∃ r3' σ',
    batch_try_on rt self [p1; p2; p3] [g1; g2; g3] garment_types σ =
      (Py.Ok [Success r1; Failure (Py.exn_str e); Success r3'], σ') ∧
    same_result r3' r3.
Proof.
  intros Hp1 Hg1 Hp2 Hg2 Hp3 Hg3 Hvp1 Hvg1 Hvp2 Hvg2 Hvp3 Hvg3 Hlen H1 H2 H3.
  set (gs := Config.GUIDANCE_SCALE) in *.
  set (n := Config.NUM_INFERENCE_STEPS) in *.
  (* the three items, alone *)
  destruct (generate_try_on_view rt self p1 g1 (category_at garment_types 0)
              gs n σ σ ip1 ig1 Hp1 Hg1 Hvp1 Hvg1 (same_view_refl _ _))
    as (el1 & σ1 & Hrun1 & Hview1).
  destruct (generate_try_on_view rt self p2 g2 (category_at garment_types 1)
              gs n σ σ ip2 ig2 Hp2 Hg2 Hvp2 Hvg2 (same_view_refl _ _))
    as (el2 & σ2 & Hrun2 & _).
  destruct (generate_try_on_view rt self p3 g3 (category_at garment_types 2)
              gs n σ σ ip3 ig3 Hp3 Hg3 Hvp3 Hvg3 (same_view_refl _ _))
    as (el3 & σ3 & Hrun3 & _).
  rewrite Hrun1 in H1. rewrite Hrun2 in H2. rewrite Hrun3 in H3.
  cbn [fst] in H1, H2, H3.
  (* the three items, one after the other *)
  destruct (generate_try_on_view rt self p2 g2 (category_at garment_types 1)
              gs n σ σ1 ip2 ig2 Hp2 Hg2 Hvp2 Hvg2 Hview1)
    as (el2' & σ2' & Hrun2' & Hview2).
  destruct (generate_try_on_view rt self p3 g3 (category_at garment_types 2)
              gs n σ σ2' ip3 ig3 Hp3 Hg3 Hvp3 Hvg3 Hview2)
    as (el3' & σ3' & Hrun3' & _).
  pose proof (try_on_outcome_elapsed self (normalized rt ip2)
                (normalized rt ig2) (category_at garment_types 1) gs n
                el2' el2) as Hel2.
  pose proof (try_on_outcome_elapsed self (normalized rt ip3)
                (normalized rt ig3) (category_at garment_types 2) gs n
                el3' el3) as Hel3.
  rewrite H2 in Hel2. rewrite H3 in Hel3.
  destruct (try_on_outcome self (normalized rt ip2) _ _ _ _ el2')
    as [?|e'] eqn:Hout2; [done|]. subst e'.
  destruct (try_on_outcome self (normalized rt ip3) _ _ _ _ el3')
    as [r3'|?] eqn:Hout3; [|done].
  exists r3', σ3'. split; [|done].
  unfold batch_try_on. cbn [zip zip_with].
  rewrite batch_loop_cons by (destruct garment_types; [lia | done]).
  cbv zeta. fold gs n. rewrite Hrun1, H1. cbn [fst snd].
  rewrite batch_loop_cons by (destruct garment_types; [lia | done]).
  cbv zeta. fold gs n. rewrite Hrun2'. cbn [fst snd].
  rewrite batch_loop_cons by (destruct garment_types; [lia | done]).
  cbv zeta. fold gs n. rewrite Hrun3'. cbn [fst snd].
  done.
Qed.

(** A generator that runs out of memory on images of width 5, and a
    store with three persons (objects 0, 2, 4) and three garments. *)
Definition flaky_pipeline : InferencePipeline :=
  mkPipeline "cuda"
    (λ _, Py.Ok (Classifier.mk_classification "scarf"
                   (Float64.literal 80 100) ["tie"]))
    (λ _ person _ _ _,
       if Pil.width person =? 5
       then Py.Raise (Py.mk_exn "OutOfMemoryError" "CUDA out of memory")
       else Py.Ok person).

Definition batch_world : World :=
  mkWorld {[ 0%nat := Pil.new (4, 6) (200, 180, 160);
             1%nat := Pil.new (3, 3) (10, 20, 200);
             2%nat := Pil.new (5, 4) (90, 90, 90);
             3%nat := Pil.new (2, 2) (0, 0, 0);
             4%nat := Pil.new (6, 6) (255, 255, 255);
             5%nat := Pil.new (3, 2) (120, 0, 0) ]} 0.

Lemma batch_try_on_isolates_failure_witness :
  let types := Some [Some "hat"; Some "shirt"; None] in
  let run p g i :=
    (generate_try_on example_runtime flaky_pipeline p g (category_at types i)
       Config.GUIDANCE_SCALE Config.NUM_INFERENCE_STEPS batch_world).1 in
  match run 0%nat 1%nat 0%nat, run 2%nat 3%nat 1%nat, run 4%nat 5%nat 2%nat with
  | Py.Ok r1, Py.Raise e, Py.Ok r3 =>
      ∃ r3' σ',
        batch_try_on example_runtime flaky_pipeline [0; 2; 4]%nat [1; 3; 5]%nat
          types batch_world =
          (Py.Ok [Success r1; Failure (Py.exn_str e); Success r3'], σ') ∧
        same_result r3' r3
  | _, _, _ => False
  end.
Proof.
  intros types run.
  destruct (run 0%nat 1%nat 0%nat) as [r1|e1] eqn:H1;
    [|by vm_compute in H1].
  destruct (run 2%nat 3%nat 1%nat) as [r2|e] eqn:H2;
    [by vm_compute in H2|].
  destruct (run 4%nat 5%nat 2%nat) as [r3|e3] eqn:H3;
    [|by vm_compute in H3].
  apply (batch_try_on_isolates_failure example_runtime flaky_pipeline
           batch_world 0 1 2 3 4 5
           (Pil.new (4, 6) (200, 180, 160)) (Pil.new (3, 3) (10, 20, 200))
           (Pil.new (5, 4) (90, 90, 90)) (Pil.new (2, 2) (0, 0, 0))
           (Pil.new (6, 6) (255, 255, 255)) (Pil.new (3, 2) (120, 0, 0))
           types r1 r3 e);
    try reflexivity; try (split; simpl; lia); assumption.
Defined.

End Orchestrator_facts.

(** ** Further properties of the masker and of the batch loop *)

Section Further_properties.
Import Np Cv2 Pil PilStore Masking Inference.

(** Refinement is idempotent on every uint8 mask and for every iteration
    count, not only on solid rectangles: closing and opening come from an
    adjunction between dilation and erosion. *)
Theorem refine_mask_stable_on_any_mask (h w : Z) (mask : ndarray)
    (iterations : nat) :
  is_uint8 h w mask →
  refine_mask (refine_mask mask iterations) iterations =
  refine_mask mask iterations.
Proof. apply refine_mask_idempotent. Qed.

Lemma refine_mask_stable_on_any_mask_witness :
  is_uint8 3 4 [[0; 200; 0; 7]; [255; 0; 31; 0]; [0; 0; 128; 64]] ∧
  let mask := [[0; 200; 0; 7]; [255; 0; 31; 0]; [0; 0; 128; 64]] in
  refine_mask (refine_mask mask 3) 3 = refine_mask mask 3.
Proof.
  assert (H : is_uint8 3 4 [[0; 200; 0; 7]; [255; 0; 31; 0]; [0; 0; 128; 64]]).
  { split; [done|]. repeat constructor; simpl; lia. }
  split; [exact H|].
  exact (refine_mask_stable_on_any_mask 3 4 _ 3 H).
Defined.



(** A non-empty category list shorter than the batch is an error of the
    whole call: the lookup [garment_types[i]] is outside the [try], so the
    batch raises [IndexError] and the results of the earlier items are
    lost. *)
Theorem batch_try_on_short_category_list (rt : Runtime)
    (self : InferencePipeline) (p1 g1 p2 g2 : nat)
    (garment_type : option string) (σ : World) :
  ∃ σ',
    batch_try_on rt self [p1; p2] [g1; g2] (Some [garment_type]) σ =
    (Py.Raise (Py.mk_exn "IndexError" "list index out of range"), σ').
Proof.
  unfold batch_try_on. cbn [zip zip_with].
  rewrite batch_loop_cons by (simpl; lia). cbv zeta.
  cbn [batch_loop]. unfold bind at 1. unfold garment_type_at, raise.
  cbn [lookup list_lookup]. eauto.
Qed.

End Further_properties.

Section Region_edge_facts.
Import Float64 Np Cv2 Masking.

(** [int(h * c)] for any two-digit fraction [c = p/100]: the exact floor
    of [p * h / 100], or one less when [p * h] is a multiple of 100 and the
    literal lies below the fraction. *)
Lemma to_int_mul_pct_near p mc E eps h :
  2 ^ 52 <= mc < 2 ^ 53 -> 100 * mc = p * 2 ^ E + eps -> 0 < p < 100 ->
  53 <= E <= 60 -> -40 <= eps <= 40 ->
  0 <= h < 2 ^ 32 ->
  let v := to_int (mul (of_int h) (mk mc (- E))) in
  v = p * h / 100 \/
  (v = p * h / 100 - 1 /\ (p * h) mod 100 = 0 /\ 0 < h).
Proof.
  intros Hmc Hlit Hp HE Heps Hh v. subst v.
  rewrite of_int_small by lia.
  unfold mul; cbn [mant expo].
  destruct (Z.eq_dec h 0) as [->|Hh0].
  { left. rewrite Z.mul_0_r. reflexivity. }
  unfold round_mant.
  assert (HMh : 2 ^ 52 * h <= h * mc).
  { apply Z.le_trans with (h * 2 ^ 52); [lia | apply Z.mul_le_mono_nonneg_l; lia]. }
  assert (HMh' : h * mc < 2 ^ 53 * h).
  { rewrite (Z.mul_comm (2 ^ 53) h). apply Z.mul_lt_mono_pos_l; lia. }
  assert (HhE : -40 * h <= h * eps <= 40 * h).
  { split.
    - apply Z.le_trans with (h * -40); [lia | apply Z.mul_le_mono_nonneg_l; lia].
    - apply Z.le_trans with (h * 40); [apply Z.mul_le_mono_nonneg_l; lia | lia]. }
  assert (H100 : 100 * (h * mc) = p * h * 2 ^ E + h * eps).
  { replace (100 * (h * mc)) with (h * (100 * mc)) by ring. rewrite Hlit. ring. }
  set (M := h * mc) in *.
  assert (HM : 2 ^ 52 <= M < 2 ^ 85).
  { change (2 ^ 85) with (2 ^ 53 * 2 ^ 32).
    change (2 ^ 52) with 4503599627370496 in *.
    change (2 ^ 53) with 9007199254740992 in *. lia. }
  assert (HL := Z.log2_spec M ltac:(lia)).
  assert (HL85 : Z.log2 M < 85) by (apply Z.log2_lt_pow2; lia).
  assert (HL52 : 52 <= Z.log2 M) by (apply Z.log2_le_pow2; lia).
  assert (HTE : 2 ^ 53 <= 2 ^ E) by (apply Z.pow_le_mono_r; lia).
  destruct (Z.leb_spec (Z.log2 M - 52) 0) as [Hs|Hs].
  - (* the product needs no rounding: h = 1 *)
    left.
    assert (Z.log2 M = 52) as HL' by lia. rewrite HL' in HL.
    change (2 ^ Z.succ 52) with (2 ^ 53) in HL.
    assert (h = 1).
    { change (2 ^ 52) with 4503599627370496 in *.
      change (2 ^ 53) with 9007199254740992 in *. lia. }
    subst h.
    rewrite to_int_neg by lia.
    replace (- (0 + - E)) with E by lia.
    rewrite Z.div_small by lia.
    symmetry. apply Z.div_small. lia.
  - set (s := Z.log2 M - 52) in *.
    set (D := 2 ^ s).
    assert (HD : 0 < D) by (apply Z.pow_pos_nonneg; lia).
    assert (HDM : 2 ^ 52 * D <= M < 2 ^ 53 * D).
    { subst D. rewrite <- !Z.pow_add_r by lia.
      replace (52 + s) with (Z.log2 M) by (subst s; lia).
      replace (53 + s) with (Z.succ (Z.log2 M)) by (subst s; lia). exact HL. }
    rewrite to_int_neg by lia.
    replace (- (0 + - E + s)) with (E - s) by lia.
    set (P := 2 ^ (E - s)).
    assert (HP : 0 < P) by (apply Z.pow_pos_nonneg; lia).
    assert (HDP : 2 ^ E = D * P).
    { subst D P. rewrite <- Z.pow_add_r by lia. f_equal. lia. }
    rewrite HDP in *.
    pose proof (Z.div_mod (p * h) 100 ltac:(lia)) as HK.
    pose proof (Z.mod_pos_bound (p * h) 100 ltac:(lia)) as Hr.
    pose proof (rne_cases M D HD) as Hrne.
    pose proof (Z.div_mod M D ltac:(lia)) as HqD.
    pose proof (Z.mod_pos_bound M D HD) as HrD.
    assert (HK0 : 0 <= p * h / 100).
    { apply Z.div_pos; [|lia]. apply Z.mul_nonneg_nonneg; lia. }
    set (K := p * h / 100) in *. set (r := (p * h) mod 100) in *.
    rewrite HK in H100.
    assert (HrT : (r = 0 /\ r * (D * P) = 0) \/
                  (1 <= r /\ D * P <= r * (D * P) <= 99 * (D * P))).
    { destruct (Z.eq_dec r 0) as [Hr0|]; [left; rewrite Hr0; lia | right].
      split; [lia|]. split.
      - apply Z.le_trans with (1 * (D * P)); [lia | apply Z.mul_le_mono_nonneg_r; lia].
      - apply Z.mul_le_mono_nonneg_r; lia. }
    replace ((100 * K + r) * (D * P))
      with (100 * (D * (K * P)) + r * (D * P)) in H100 by ring.
    assert (HKP0 : 0 <= K * P) by (apply Z.mul_nonneg_nonneg; lia).
    clearbody M D P. clear HL HL85 HL52 Hs s Hlit.
    change (2 ^ 52) with 4503599627370496 in *.
    change (2 ^ 53) with 9007199254740992 in *.
    change (2 ^ 85) with 38685626227668133590597632 in *.
    change (2 ^ 32) with 4294967296 in *.
    assert (HP2 : 2 <= P).
    { destruct (Z_lt_le_dec P 2); [|assumption].
      assert (P = 1) by lia. subst P. lia. }
    destruct HrT as [[Hr0 HrT]|[Hr1 HrT]].
    + rewrite HrT in *.
      destruct (Z_lt_le_dec eps 0) as [Hlt|Hge].
      * assert (Hneg : h * eps < 0) by (apply Z.mul_pos_neg; lia).
        assert (Hq : M / D = K * P - 1).
        { symmetry. apply Z.div_unique_pos with (r := M - D * (K * P) + D); lia. }
        rewrite Hq in *.
        destruct Hrne as [[-> _]|[-> _]].
        -- right. split; [|split; [exact Hr0 | lia]].
           symmetry. apply Z.div_unique_pos with (r := P - 1); lia.
        -- left. replace (K * P - 1 + 1) with (K * P) by lia.
           apply Z.div_mul. lia.
      * left.
        assert (Hq : M / D = K * P).
        { symmetry. apply Z.div_unique_pos with (r := M - D * (K * P)); lia. }
        rewrite Hq in *.
        symmetry. apply Z.div_unique_pos with (r := rne M D - K * P); lia.
    + left.
      assert (K * P <= M / D) by (apply Z.div_le_lower_bound; lia).
      assert (M / D < (K + 1) * P - 1).
      { apply Z.div_lt_upper_bound; [lia|].
        replace (D * ((K + 1) * P - 1)) with (D * (K * P) + D * P - D) by ring.
        assert (100 * D <= D * P); [|lia].
        rewrite (Z.mul_comm D P). apply Z.mul_le_mono_nonneg_r; [lia|].
        destruct (Z_lt_le_dec P 100); [|assumption]. exfalso.
        assert (D * P <= D * 100) by (apply Z.mul_le_mono_nonneg_l; lia). lia. }
      symmetry. apply Z.div_unique_pos with (r := rne M D - K * P); lia.
Qed.


(** The fractions the region table multiplies the sides by. *)
Definition region_fractions : list Z :=
  [15; 20; 25; 35; 40; 45; 50; 55; 60; 65; 75; 80; 85; 90].

Lemma scaled_near n p :
  p ∈ region_fractions → 0 ≤ n < 2 ^ 32 →
  scaled n p = p * n / 100 ∨
  (scaled n p = p * n / 100 - 1 ∧ p = 35 ∧ (35 * n) mod 100 = 0 ∧ 0 < n).
Proof.
  intros Hp Hn. destruct (decide (p = 35)) as [->|Hne].
  - unfold scaled. change (literal 35 100) with (mk 6305039478318694 (- 54)).
    assert (H1 : 2 ^ 52 <= 6305039478318694 < 2 ^ 53)
      by (vm_compute; split; congruence).
    assert (H2 : 100 * 6305039478318694 = 35 * 2 ^ 54 + -40) by reflexivity.
    assert (H3 : 0 < 35 < 100) by lia.
    assert (H4 : 53 <= 54 <= 60) by lia.
    assert (H5 : -40 <= -40 <= 40) by lia.
    pose proof (to_int_mul_pct_near 35 6305039478318694 54 (-40) n
                  H1 H2 H3 H4 H5 Hn) as Hnear.
    cbv zeta in Hnear. clear H1 H2 H3 H4 H5.
    destruct Hnear as [H|(H & Hr & Hpos)]; [by left | by right].
  - left. apply scaled_exact; [|done].
    unfold region_fractions in Hp. unfold exact_percentages.
    repeat (apply elem_of_cons in Hp as [->|Hp]); try done; try in_list.
    by apply elem_of_nil in Hp.
Qed.

Lemma scaled_35_bounds n :
  0 ≤ n < 2 ^ 32 → 20 * n / 100 ≤ scaled n 35 ≤ 35 * n / 100.
Proof.
  intros Hn.
  destruct (scaled_near n 35) as [->|(-> & _ & Hr & Hpos)];
    [unfold region_fractions; in_list | done | |];
    Z.to_euclidean_division_equations; lia.
Qed.

(** Every rectangle of the table, and the whole-frame fallback, is
    ordered and lies within the frame, and its first corner is a pixel of
    the image. *)
Lemma garment_region_ordered width height garment_type x1 y1 x2 y2 :
  1 ≤ width < 2 ^ 32 → 1 ≤ height < 2 ^ 32 →
  garment_region width height garment_type = (x1, y1, x2, y2) →
  (0 ≤ x1 ≤ x2 ∧ x1 < width ∧ x2 ≤ width) ∧
  (0 ≤ y1 ≤ y2 ∧ y1 < height ∧ y2 ≤ height).
Proof.
  intros Hw Hh. unfold garment_region.
  destruct (garment_regions width height !! Py.lower garment_type)
    as [region|] eqn:Hlookup; simpl.
  - apply garment_regions_lookup_Some in Hlookup.
    unfold garment_region_items in Hlookup.
    intros ->.
    assert (Hsw : ∀ p, bool_decide (p ∈ exact_percentages) = true →
                       scaled width p = p * width / 100)
      by (intros p Hp%bool_decide_eq_true_1; apply scaled_exact; [done | lia]).
    assert (Hsh : ∀ p, bool_decide (p ∈ exact_percentages) = true →
                       scaled height p = p * height / 100)
      by (intros p Hp%bool_decide_eq_true_1; apply scaled_exact; [done | lia]).
    pose proof (scaled_35_bounds height ltac:(lia)) as H35.
    repeat (apply elem_of_cons in Hlookup as [Heq|Hlookup];
            [inversion Heq; subst; clear Heq;
             rewrite ?Hsw, ?Hsh by done;
             Z.to_euclidean_division_equations; lia |]).
    by apply elem_of_nil in Hlookup.
  - intros [= <- <- <- <-]. lia.
Qed.

End Region_edge_facts.

(** ** The region mask: the whole support *)

Section Region_support_facts.
Import Np Cv2 Masking.

(** A tap at distance at most 2 reads a row at most 2 away, also where
    the border reflects it. *)
Lemma borderInterpolate_close y d len :
  0 ≤ y < len → -2 ≤ d ≤ 2 →
  y - 2 ≤ borderInterpolate (y + d) len ≤ y + 2.
Proof.
  intros Hy Hd. split; [by apply borderInterpolate_near|].
  pose proof (borderInterpolate_range (y + d) len ltac:(lia)) as Hr.
  destruct (decide (0 ≤ y + d < len)) as [Hin|Hout].
  { rewrite borderInterpolate_id by done. lia. }
  destruct (decide (len ≤ y + d)); [lia|].
  unfold borderInterpolate in *.
  destruct (Z.eqb_spec len 1); [lia|].
  set (m := 2 * (len - 1)) in *.
  assert (Hmod : (y + d) mod m = y + d + m).
  { replace (y + d) with (y + d + m + (-1) * m) at 1 by lia.
    rewrite Z_mod_plus_full. apply Z.mod_small. lia. }
  rewrite Hmod in *.
  destruct (Z.ltb_spec (y + d + m) len); lia.
Qed.

(** The 15x15 ellipse holds the 5x5 square about its anchor. *)
Lemma dilation_kernel_core dy dx :
  -2 ≤ dy ≤ 2 → -2 ≤ dx ≤ 2 →
  (dy, dx) ∈ anchor_offsets (getStructuringElement
     (Config.MASK_DILATION_KERNEL, Config.MASK_DILATION_KERNEL)).
Proof.
  intros Hdy Hdx.
  assert (Hall : Forall (λ d, d ∈ anchor_offsets (getStructuringElement
              (Config.MASK_DILATION_KERNEL, Config.MASK_DILATION_KERNEL)))
            (dy ← seqZ (-2) 5; dx ← seqZ (-2) 5; [(dy, dx)])).
  { apply (bool_decide_unpack _). by vm_compute. }
  rewrite Forall_forall in Hall. apply Hall.
  apply list_elem_of_bind. exists dy. split; [|apply elem_of_seqZ; lia].
  apply list_elem_of_bind. exists dx. split; [|apply elem_of_seqZ; lia].
  apply list_elem_of_here.
Qed.

(** Dilation raises a pixel to every source pixel under the kernel. *)
Lemma dilate_once_reach h w src kernel y x d v :
  is_uint8 h w src → d ∈ anchor_offsets kernel →
  0 ≤ y < h → 0 ≤ x < w →
  get src (y + d.1) (x + d.2) = Some v →
  ∃ v', get (dilate_once src kernel) y x = Some v' ∧ v ≤ v'.
Proof.
  intros Hs Hd Hy Hx Hv.
  rewrite (dilate_once_get h w) by done. eexists. split; [done|].
  apply foldr_max_ge, elem_of_window. by exists d.
Qed.

(** Where all 25 pixels under the aperture agree, the blur returns their
    value. *)
Lemma GaussianBlur_window_const h w src c y x :
  is_uint8 h w src → 0 ≤ y < h → 0 ≤ x < w →
  (∀ dy dx, -2 ≤ dy ≤ 2 → -2 ≤ dx ≤ 2 →
     pix src (borderInterpolate (y + dy) h) (borderInterpolate (x + dx) w) = c) →
  get (GaussianBlur src (5, 5)) y x = Some c.
Proof.
  intros Hs Hy Hx Hpix.
  pose proof (pix_uint8 h w src (borderInterpolate (y + 0) h)
                (borderInterpolate (x + 0) w) Hs) as Hc.
  rewrite Hpix in Hc by lia.
  rewrite (GaussianBlur_get h w) by done. f_equal.
  unfold convolve. rewrite (is_uint8_shape h w src ltac:(lia) Hs).
  cbn [gaussian_taps fmap list_fmap sumZ foldr fst snd].
  rewrite !Hpix by lia.
  replace (_ + 2 ^ 15) with (c * 2 ^ 16 + 2 ^ 15) by lia.
  rewrite Z.div_add_l by lia. change (2 ^ 15 / 2 ^ 16) with 0. lia.
Qed.

(** On the rectangle the mask is saturated. *)
Lemma create_garment_region_mask_interior image garment_type x1 y1 x2 y2 y x :
  garment_region (Pil.width image) (Pil.height image) garment_type
    = (x1, y1, x2, y2) →
  0 ≤ y < Pil.height image → 0 ≤ x < Pil.width image →
  Z.min x1 x2 ≤ x ≤ Z.max x1 x2 → Z.min y1 y2 ≤ y ≤ Z.max y1 y2 →
  get (create_garment_region_mask image garment_type) y x = Some 255.
Proof.
  intros Hr Hy Hx Hinx Hiny.
  rewrite (create_garment_region_mask_unfold _ _ _ _ _ _ Hr).
  set (h := Pil.height image) in *. set (w := Pil.width image) in *.
  set (m1 := rectangle (zeros h w) (x1, y1) (x2, y2) 255).
  assert (Hm0 : is_uint8 h w (zeros h w)) by (apply is_uint8_zeros; lia).
  assert (Hm1 : is_uint8 h w m1) by (apply rectangle_uint8; [done | lia]).
  set (k := getStructuringElement _).
  assert (Hm2 : is_uint8 h w (dilate_once m1 k)) by by apply dilate_once_uint8.
  assert (Hg1 : get m1 y x = Some 255).
  { unfold m1. rewrite (rectangle_get h w) by done.
    by rewrite bool_decide_eq_true_2. }
  apply (GaussianBlur_window_const h w); [done..|].
  intros dy dx Hdy Hdx.
  pose proof (borderInterpolate_close y dy h Hy Hdy) as Hcy.
  pose proof (borderInterpolate_close x dx w Hx Hdx) as Hcx.
  pose proof (borderInterpolate_range (y + dy) h ltac:(lia)) as Hry.
  pose proof (borderInterpolate_range (x + dx) w ltac:(lia)) as Hrx.
  set (y' := borderInterpolate (y + dy) h) in *.
  set (x' := borderInterpolate (x + dx) w) in *.
  destruct (dilate_once_reach h w m1 k y' x' (y - y', x - x') 255)
    as (v & Hv & Hle); [done | apply dilation_kernel_core; lia | done..| |].
  { cbn [fst snd]. by replace (y' + (y - y')) with y by lia;
      replace (x' + (x - x')) with x by lia. }
  destruct (is_uint8_get_Some h w _ _ _ _ Hm2 Hv) as (_ & _ & Hb).
  apply pix_get. rewrite Hv. f_equal. lia.
Qed.

(** A non-zero pixel of the mask lies within the rectangle grown by the
    kernel's reach and the aperture's half-width on every side. *)
Lemma create_garment_region_mask_support image garment_type x1 y1 x2 y2 y x v :
  garment_region (Pil.width image) (Pil.height image) garment_type
    = (x1, y1, x2, y2) →
  0 < Pil.width image → 0 < Pil.height image →
  get (create_garment_region_mask image garment_type) y x = Some v → v ≠ 0 →
  Z.min x1 x2 - 9 ≤ x ≤ Z.max x1 x2 + 9 ∧
  Z.min y1 y2 - 9 ≤ y ≤ Z.max y1 y2 + 9.
Proof.
  intros Hr Hw Hh. rewrite (create_garment_region_mask_unfold _ _ _ _ _ _ Hr).
  set (h := Pil.height image) in *. set (w := Pil.width image) in *.
  set (m1 := rectangle (zeros h w) (x1, y1) (x2, y2) 255).
  assert (Hm0 : is_uint8 h w (zeros h w)) by (apply is_uint8_zeros; lia).
  assert (Hm1 : is_uint8 h w m1) by (apply rectangle_uint8; [done | lia]).
  set (k := getStructuringElement _).
  assert (Hm2 : is_uint8 h w (dilate_once m1 k)) by by apply dilate_once_uint8.
  intros Hv Hne.
  assert (Hm3 : is_uint8 h w (GaussianBlur (dilate_once m1 k) (5, 5)))
    by by apply GaussianBlur_uint8.
  destruct (is_uint8_get_Some h w _ _ _ _ Hm3 Hv) as (Hy & Hx & _).
  destruct (GaussianBlur_support h w _ y x v Hm2 Hh Hv Hne)
    as (dy & dx & Hdy & Hdx & Hpix).
  pose proof (borderInterpolate_close y dy h Hy Hdy) as Hcy.
  pose proof (borderInterpolate_close x dx w Hx Hdx) as Hcx.
  pose proof (borderInterpolate_range (y + dy) h Hh) as Hry.
  pose proof (borderInterpolate_range (x + dx) w Hw) as Hrx.
  set (y' := borderInterpolate (y + dy) h) in *.
  set (x' := borderInterpolate (x + dx) w) in *.
  destruct (is_uint8_get h w _ y' x' Hm2 Hry Hrx) as (v2 & Hg2 & _).
  rewrite (pix_get _ _ _ _ Hg2) in Hpix.
  destruct (dilate_once_support h w m1 k y' x' v2 Hm1 Hg2 Hpix)
    as (d & v1 & Hd & Hg1 & Hv1).
  apply dilation_kernel_reach in Hd as [Hd1 Hd2].
  destruct (is_uint8_get_Some h w _ _ _ _ Hm1 Hg1) as (Hy1 & Hx1 & _).
  unfold m1 in Hg1. rewrite (rectangle_get h w) in Hg1 by done.
  case_bool_decide as Hin.
  - cbn [fst snd] in Hin. lia.
  - exfalso. apply Hv1. apply (inj Some) in Hg1. subst v1.
    apply pix_get. unfold zeros. by apply get_tabulate.
Qed.

End Region_support_facts.

(** ** Further double-precision operations *)

Module PyFloat.
Import Float64.

(** [x + y]. *)
Definition add (x y : float) : float :=
  let e := Z.min (expo x) (expo y) in
  round_mant (mant x * 2 ^ (expo x - e) + mant y * 2 ^ (expo y - e)) e.

(** [x - y] where it is not negative; [None] where it is, outside the
    values modelled. *)
Definition sub (x y : float) : option float :=
  let e := Z.min (expo x) (expo y) in
  let d := mant x * 2 ^ (expo x - e) - mant y * 2 ^ (expo y - e) in
  if d <? 0 then None else Some (round_mant d e).

(** [round(x)]: the nearest integer, ties to the even one. *)
Definition round (x : float) : Z :=
  rne (mant x * 2 ^ Z.max 0 (expo x)) (2 ^ Z.max 0 (- expo x)).

End PyFloat.

(** [1 - 0.7] is [0x1.3333333333334p-2], just above 0.3. *)
Example one_minus_07 :
  PyFloat.sub Float64.one (Float64.literal 7 10) =
  Some (Float64.mk 2702159776422298 (-53)).
Proof. reflexivity. Qed.

Example round_half_even :
  PyFloat.round <$> [Float64.round_ratio 1 2; Float64.round_ratio 3 2;
                     Float64.round_ratio 5 2; Float64.round_ratio 7 4] =
  [0; 2; 2; 2].
Proof. reflexivity. Qed.

(** ** [backend/utils/masking.py]: the overlay of a mask on an image *)

Module MaskOverlay.
Import Float64 Np Cv2 Pil.

(** The purple of the overlay. *)
Definition overlay_color : Z * Z * Z := (200, 100, 200).

(** One channel of
    [(image_array * (1 - blend_alpha) + overlay * blend_alpha).astype(np.uint8)]:
    the products and the sum are doubles, the cast truncates and keeps the
    low 8 bits. *)
Definition blend_channel (c o : Z) (beta alpha : float) : Z :=
  to_int (PyFloat.add (mul (of_int c) beta) (mul (of_int o) alpha)) mod 256.

Definition blend_pixel (p o : Z * Z * Z) (beta alpha : float) : Z * Z * Z :=
  (blend_channel p.1.1 o.1.1 beta alpha,
   blend_channel p.1.2 o.1.2 beta alpha,
   blend_channel p.2 o.2 beta alpha).

(** The [IndexError] of [overlay[mask > 127] = ...] for a mask whose
    shape differs from the image's along [axis] (NumPy 1.x wording). *)
Definition boolean_index_error (axis n m : Z) : Py.exn :=
  Py.mk_exn "IndexError"
    ("boolean index did not match indexed array along dimension " +:+
     pretty axis +:+ "; dimension is " +:+ pretty n +:+
     " but corresponding boolean dimension is " +:+ pretty m).

(** [SemanticMasker.apply_mask_to_image(image, mask, blend_alpha)], for a
    [blend_alpha] of at most 1; [None] for a larger one, where
    [1 - blend_alpha] is negative.  The Python default is
    [blend_alpha=0.7]. *)
Definition apply_mask_to_image (image : Image) (mask : ndarray)
    (blend_alpha : float) : option (Py.result Image) :=
  beta ← PyFloat.sub one blend_alpha;
  let h := height image in
  let w := width image in
  Some (
    if negb ((shape mask).1 =? h)
    then Py.Raise (boolean_index_error 0 h (shape mask).1)
    else if negb ((shape mask).2 =? w)
    then Py.Raise (boolean_index_error 1 w (shape mask).2)
    else
      Py.Ok (mkImage w h (λ y x,
        let p := getpixel image y x in
        let o := if 127 <? pix mask y x then overlay_color else p in
        blend_pixel p o beta blend_alpha))).

End MaskOverlay.

Example blend_default :
  let alpha := Float64.literal 7 10 in
  let beta := Float64.mk 5404319552844596 (-54) in
  (λ c, MaskOverlay.blend_channel c 200 beta alpha) <$> [0; 1; 128; 255] =
  [140; 140; 178; 216].
Proof. reflexivity. Qed.

Example blend_03_darkens :
  let alpha := Float64.literal 3 10 in
  (λ beta, MaskOverlay.blend_channel 3 3 beta alpha)
    <$> PyFloat.sub Float64.one alpha = Some 2.
Proof. reflexivity. Qed.

(** ** Facts about the overlay *)

Section MaskOverlay_facts.
Import Float64 Np Cv2 Pil MaskOverlay.

(** An image whose channels are bytes. *)
Definition valid_pixels (im : Image) : Prop :=
  ∀ y x, 0 ≤ y < height im → 0 ≤ x < width im →
    let p := getpixel im y x in
    0 ≤ p.1.1 ≤ 255 ∧ 0 ≤ p.1.2 ≤ 255 ∧ 0 ≤ p.2 ≤ 255.

(** With the default factor, blending a byte with itself returns it, and
    blending it with a channel [o] of the overlay colour gives the floor
    of [(3 c + 7 o) / 10]: the rounding errors of [1 - 0.7], of the two
    products and of the sum never reach the next integer. *)
Lemma blend_channel_default c :
  0 ≤ c ≤ 255 →
  let alpha := literal 7 10 in
  let beta := mk 2702159776422298 (-53) in
  blend_channel c c beta alpha = c ∧
  blend_channel c 200 beta alpha = (3 * c + 1400) / 10 ∧
  blend_channel c 100 beta alpha = (3 * c + 700) / 10.
Proof.
  intros Hc alpha beta.
  assert (Hall : Forall (λ c,
            blend_channel c c beta alpha = c ∧
            blend_channel c 200 beta alpha = (3 * c + 1400) / 10 ∧
            blend_channel c 100 beta alpha = (3 * c + 700) / 10)
          (seqZ 0 256)).
  { apply (bool_decide_unpack _). by vm_compute. }
  rewrite Forall_forall in Hall. apply Hall, elem_of_seqZ. lia.
Qed.

Lemma apply_mask_to_image_run image mask :
  shape mask = (height image, width image) →
  apply_mask_to_image image mask (literal 7 10) =
  Some (Py.Ok (mkImage (width image) (height image) (λ y x,
    let p := getpixel image y x in
    let o := if 127 <? pix mask y x then overlay_color else p in
    blend_pixel p o (mk 2702159776422298 (-53)) (literal 7 10)))).
Proof.
  intros Hshape. unfold apply_mask_to_image.
  change (PyFloat.sub one (literal 7 10))
    with (Some (mk 2702159776422298 (-53))).
  cbn [mbind option_bind]. rewrite Hshape. cbn [fst snd].
  by rewrite !Z.eqb_refl.
Qed.

End MaskOverlay_facts.

(** ** Properties of the masker beyond the region table *)

Section Masker_properties.
Import Float64 Np Cv2 Pil Masking MaskOverlay.

(** Each edge of a region is [int(side * 0.pp)], a double-precision
    product.  For sides below [2 ^ 32] it is the exact floor of
    [pp * side / 100] for every fraction of the table but [0.35]; for
    [0.35], whose double lies below 0.35, it is that floor or one less,
    and one less only for a side that is a positive multiple of 20. *)
Theorem region_edge_rounding (n p : Z) :
  p ∈ region_fractions → 0 ≤ n < 2 ^ 32 →
  (p ≠ 35 → scaled n p = p * n / 100) ∧
  (scaled n p = p * n / 100 ∨
   scaled n p = p * n / 100 - 1 ∧ n mod 20 = 0 ∧ 0 < n).
Proof.
  intros Hp Hn.
  destruct (scaled_near n p Hp Hn) as [H|(H & -> & Hr & Hpos)].
  - split; [done | by left].
  - split; [done|]. right. split; [done|]. split; [|done].
    clear H. Z.to_euclidean_division_equations. lia.
Qed.

Lemma region_edge_rounding_witness :
  (35 ∈ region_fractions ∧ 0 ≤ 180 < 2 ^ 32) ∧
  (scaled 180 35 = 35 * 180 / 100 ∨
   scaled 180 35 = 35 * 180 / 100 - 1 ∧ 180 mod 20 = 0 ∧ 0 < 180).
Proof.
  assert (H1 : 35 ∈ region_fractions) by (unfold region_fractions; in_list).
  assert (H2 : 0 ≤ 180 < 2 ^ 32) by lia.
  split; [exact (conj H1 H2)|].
  exact (proj2 (region_edge_rounding 180 35 H1 H2)).
Defined.

(** For every category, known or not, and every image with sides from 1
    to below [2 ^ 32], the rectangle the mask is drawn from is ordered and
    lies within the frame: [0 ≤ x1 ≤ x2 ≤ width] and [0 ≤ y1 ≤ y2 ≤ height],
    and its first corner is a pixel of the image. *)
Theorem garment_region_within_image (width height : Z)
    (garment_type : string) (x1 y1 x2 y2 : Z) :
  1 ≤ width < 2 ^ 32 → 1 ≤ height < 2 ^ 32 →
  garment_region width height garment_type = (x1, y1, x2, y2) →
  (0 ≤ x1 ≤ x2 ∧ x1 < width ∧ x2 ≤ width) ∧
  (0 ≤ y1 ≤ y2 ∧ y1 < height ∧ y2 ≤ height).
Proof. apply garment_region_ordered. Qed.

Lemma garment_region_within_image_witness :
  (1 ≤ 180 < 2 ^ 32 ∧ 1 ≤ 180 < 2 ^ 32 ∧
   garment_region 180 180 "Scarf" = (36, 36, 144, 62)) ∧
  (0 ≤ 36 ≤ 144 ∧ 36 < 180 ∧ 144 ≤ 180) ∧
  (0 ≤ 36 ≤ 62 ∧ 36 < 180 ∧ 62 ≤ 180).
Proof.
  assert (H1 : 1 ≤ 180 < 2 ^ 32) by lia.
  assert (H2 : garment_region 180 180 "Scarf" = (36, 36, 144, 62))
    by reflexivity.
  split; [exact (conj H1 (conj H1 H2))|].
  exact (garment_region_within_image 180 180 "Scarf" 36 36 144 62 H1 H1 H2).
Defined.

(** The mask of every category is 255 on each pixel of its rectangle, and
    every non-zero pixel lies within the rectangle grown, on all four
    sides, by the reach of the dilation kernel (7) plus the half-width of
    the blur (2). *)
Theorem region_mask_saturated_and_bounded (image : Image)
    (garment_type : string) (x1 y1 x2 y2 y x : Z) :
  let w := width image in
  let h := height image in
  let reach := Config.MASK_DILATION_KERNEL / 2 + Config.MASK_BLUR_SIZE.1 / 2 in
  1 ≤ w < 2 ^ 32 → 1 ≤ h < 2 ^ 32 →
  garment_region w h garment_type = (x1, y1, x2, y2) →
  0 ≤ y < h → 0 ≤ x < w →
  ∃ v, get (create_garment_region_mask image garment_type) y x = Some v ∧
       (x1 ≤ x ≤ x2 ∧ y1 ≤ y ≤ y2 → v = 255) ∧
       (v ≠ 0 → x1 - reach ≤ x ≤ x2 + reach ∧ y1 - reach ≤ y ≤ y2 + reach).
Proof.
  intros w h reach Hw Hh Hr Hy Hx.
  destruct (garment_region_ordered w h garment_type _ _ _ _ Hw Hh Hr)
    as [Hox Hoy].
  assert (Hm : is_uint8 h w (create_garment_region_mask image garment_type))
    by (apply create_garment_region_mask_uint8; lia).
  destruct (is_uint8_get h w _ y x Hm Hy Hx) as (v & Hv & _).
  exists v. split; [done|]. split.
  - intros [Hinx Hiny].
    rewrite (create_garment_region_mask_interior image garment_type
               x1 y1 x2 y2 y x Hr Hy Hx) in Hv by lia.
    by apply (inj Some) in Hv.
  - intros Hne.
    pose proof (create_garment_region_mask_support image garment_type
                  x1 y1 x2 y2 y x v Hr ltac:(lia) ltac:(lia) Hv Hne) as Hs.
    change reach with 9. lia.
Qed.

Lemma region_mask_saturated_and_bounded_witness :
  let image := Pil.new (512, 512) (0, 0, 255) in
  (1 ≤ width image < 2 ^ 32 ∧ 1 ≤ height image < 2 ^ 32 ∧
   garment_region 512 512 "glasses" = (128, 76, 384, 128) ∧
   0 ≤ 100 < height image ∧ 0 ≤ 200 < width image) ∧
  ∃ v, get (create_garment_region_mask image "glasses") 100 200 = Some v ∧
       (128 ≤ 200 ≤ 384 ∧ 76 ≤ 100 ≤ 128 → v = 255).
Proof.
  intros image.
  assert (H1 : 1 ≤ width image < 2 ^ 32) by (simpl; lia).
  assert (H2 : 1 ≤ height image < 2 ^ 32) by (simpl; lia).
  assert (H3 : garment_region 512 512 "glasses" = (128, 76, 384, 128))
    by reflexivity.
  assert (H4 : 0 ≤ 100 < height image) by (simpl; lia).
  assert (H5 : 0 ≤ 200 < width image) by (simpl; lia).
  split; [exact (conj H1 (conj H2 (conj H3 (conj H4 H5))))|].
  destruct (region_mask_saturated_and_bounded image "glasses"
              128 76 384 128 100 200 H1 H2 H3 H4 H5) as (v & Hv & Hin & _).
  exists v. split; [exact Hv | exact Hin].
Defined.



(** The statistics of a region mask: for every category and every image
    with sides from 1 to below [2 ^ 32] the call returns, the total is
    [height * width], at least one pixel is masked, and the coverage is
    above 0 and at most 100. *)
Theorem region_mask_statistics_positive (image : Image)
    (garment_type : string) :
  let w := width image in
  let h := height image in
  1 ≤ w < 2 ^ 32 → 1 ≤ h < 2 ^ 32 →
  ∃ st,
    get_mask_statistics (create_garment_region_mask image garment_type)
      = Py.Ok st ∧
    total_pixels st = h * w ∧
    1 ≤ masked_pixels st ≤ h * w ∧
    is_zero (coverage_percentage st) = false ∧
    leb (coverage_percentage st) (of_int 100) = true.
Proof.
  intros w h Hw Hh.
  set (mask := create_garment_region_mask image garment_type).
  assert (Hm : is_uint8 h w mask)
    by (apply create_garment_region_mask_uint8; lia).
  pose proof (size_is_uint8 h w mask ltac:(lia) Hm) as Hsize.
  pose proof (count_nonzero_le_size mask) as Hcount.
  assert (0 < h * w) by (apply Z.mul_pos_pos; lia).
  assert (Hpos : 0 < count_nonzero mask).
  { destruct (garment_region w h garment_type) as [[[x1 y1] x2] y2] eqn:Hr.
    destruct (garment_region_corner w h garment_type _ _ _ _ Hw Hh Hr)
      as [Hx1 Hy1].
    destruct (create_garment_region_mask_corner image garment_type
                _ _ _ _ Hr Hx1 Hy1) as (v & Hv & Hne).
    apply count_nonzero_pos. eauto. }
  unfold get_mask_statistics, div_int.
  destruct (Z.eqb_spec (size mask) 0); [lia|].
  eexists. split; [done|]. cbn [total_pixels masked_pixels coverage_percentage].
  destruct (percentage_bounds (count_nonzero mask) (size mask) Hcount
              ltac:(lia)) as (_ & H100 & Hzero).
  split; [done|]. split; [lia|]. split; [|done].
  apply not_true_is_false. intros Hz%Hzero. lia.
Qed.

Lemma region_mask_statistics_positive_witness :
  let image := Pil.new (512, 512) (0, 0, 255) in
  (1 ≤ width image < 2 ^ 32 ∧ 1 ≤ height image < 2 ^ 32) ∧
  ∃ st,
    get_mask_statistics (create_garment_region_mask image "shirt") = Py.Ok st ∧
    total_pixels st = 512 * 512.
Proof.
  intros image.
  assert (H1 : 1 ≤ width image < 2 ^ 32) by (simpl; lia).
  assert (H2 : 1 ≤ height image < 2 ^ 32) by (simpl; lia).
  split; [exact (conj H1 H2)|].
  destruct (region_mask_statistics_positive image "shirt" H1 H2)
    as (st & Hst & Htot & _).
  exists st. split; [exact Hst | exact Htot].
Defined.

(** [apply_mask_to_image] with the default [blend_alpha = 0.7], on an
    image of bytes and a mask of the image's shape: the result has the
    image's size; where the mask is at most 127 the pixel is the image's,
    unchanged; where it is above 127 each channel [c] becomes the floor of
    [(3 c + 7 o) / 10] for the channel [o] of the purple (200, 100, 200). *)
Theorem overlay_default_blend (image : Image) (mask : ndarray) :
  valid_pixels image → 1 ≤ height image →
  is_uint8 (height image) (width image) mask →
  ∃ out,
    apply_mask_to_image image mask (literal 7 10) = Some (Py.Ok out) ∧
    width out = width image ∧ height out = height image ∧
    ∀ y x, 0 ≤ y < height image → 0 ≤ x < width image →
      getpixel out y x =
      let '(r, g, b) := getpixel image y x in
      if 127 <? pix mask y x
      then ((3 * r + 1400) / 10, (3 * g + 700) / 10, (3 * b + 1400) / 10)
      else (r, g, b).
Proof.
  intros Hpx Hh Hm.
  rewrite apply_mask_to_image_run by (apply is_uint8_shape; [lia | done]).
  eexists. split; [done|]. split; [done|]. split; [done|].
  intros y x Hy Hx. cbn [getpixel]. specialize (Hpx y x Hy Hx).
  destruct (getpixel image y x) as [[r g] b]. cbn [fst snd] in Hpx.
  destruct Hpx as (Hr & Hg & Hb).
  destruct (blend_channel_default r Hr) as (Hr0 & Hr200 & _).
  destruct (blend_channel_default g Hg) as (Hg0 & _ & Hg100).
  destruct (blend_channel_default b Hb) as (Hb0 & Hb200 & _).
  cbv zeta in *. unfold blend_pixel, overlay_color.
  destruct (127 <? pix mask y x); cbn [fst snd]; congruence.
Qed.

Lemma overlay_default_blend_witness :
  let image := Pil.new (3, 2) (10, 20, 30) in
  let mask := [[0; 255; 128]; [127; 0; 200]] in
  (valid_pixels image ∧ 1 ≤ height image ∧
   is_uint8 (height image) (width image) mask) ∧
  ∃ out,
    apply_mask_to_image image mask (literal 7 10) = Some (Py.Ok out) ∧
    width out = 3 ∧ height out = 2.
Proof.
  intros image mask.
  assert (H1 : valid_pixels image) by (intros y x _ _; simpl; lia).
  assert (H2 : 1 ≤ height image) by (simpl; lia).
  assert (H3 : is_uint8 (height image) (width image) mask).
  { split; [done|]. repeat constructor; simpl; lia. }
  split; [exact (conj H1 (conj H2 H3))|].
  destruct (overlay_default_blend image mask H1 H2 H3)
    as (out & Hout & Hw & Hh & _).
  exists out. split; [exact Hout|]. split; [exact Hw | exact Hh].
Defined.

End Masker_properties.

(** ** Halves in double precision *)

Section PyFloat_facts.
Import Float64 PyFloat.

(** Rounding a quotient depends on the quotient alone. *)
Lemma rne_scale N D k : 0 < D → 0 < k → rne (N * k) (D * k) = rne N D.
Proof.
  intros HD Hk. unfold rne.
  rewrite Z.div_mul_cancel_r by lia.
  rewrite Z.mul_mod_distr_r by lia.
  replace (2 * (N mod D * k)) with (2 * (N mod D) * k) by ring.
  assert (HA : (D * k <? 2 * (N mod D) * k) = (D <? 2 * (N mod D))).
  { destruct (Z.ltb_spec D (2 * (N mod D))) as [H|H].
    - apply Z.ltb_lt. by apply Z.mul_lt_mono_pos_r.
    - apply Z.ltb_ge. by apply Z.mul_le_mono_nonneg_r; [lia|]. }
  assert (HB : (2 * (N mod D) * k =? D * k) = (2 * (N mod D) =? D)).
  { destruct (Z.eqb_spec (2 * (N mod D)) D) as [H|H].
    - apply Z.eqb_eq. by rewrite H.
    - apply Z.eqb_neq. intros Heq. apply H.
      by apply Z.mul_cancel_r in Heq; [|lia]. }
  by rewrite HA, HB.
Qed.

(** A value of at most 53 significant bits is kept by the rounding. *)
Lemma round_mant_exact c t E :
  0 ≤ c < 2 ^ 53 → 0 ≤ t →
  ∃ M' E', round_mant (c * 2 ^ t) E = mk M' E' ∧
           E ≤ E' ≤ E + t ∧ M' * 2 ^ (E' - E) = c * 2 ^ t.
Proof.
  intros Hc Ht. unfold round_mant.
  assert (HT : 0 < 2 ^ t) by (apply Z.pow_pos_nonneg; lia).
  destruct (Z.leb_spec (Z.log2 (c * 2 ^ t) - 52) 0) as [Hs|Hs].
  - exists (c * 2 ^ t), E. split; [done|]. split; [lia|].
    rewrite Z.sub_diag. change (2 ^ 0) with 1. lia.
  - set (s := Z.log2 (c * 2 ^ t) - 52) in *.
    assert (Hc0 : 0 < c).
    { destruct (Z.eq_dec c 0) as [Heq|]; [|lia].
      subst s. rewrite Heq in Hs. simpl in Hs. lia. }
    assert (Hst : s ≤ t).
    { assert (Z.log2 (c * 2 ^ t) < 53 + t); [|lia].
      apply Z.log2_lt_pow2; [lia|].
      rewrite Z.pow_add_r by lia.
      apply Z.mul_lt_mono_pos_r; lia. }
    assert (HS : 0 < 2 ^ s) by (apply Z.pow_pos_nonneg; lia).
    assert (Hsplit : c * 2 ^ t = c * 2 ^ (t - s) * 2 ^ s).
    { rewrite <- Z.mul_assoc, <- Z.pow_add_r by lia. do 2 f_equal. lia. }
    exists (c * 2 ^ (t - s)), (E + s). split; [|split; [lia|]].
    + f_equal. rewrite Hsplit.
      rewrite rne_exact by (lia || apply Z.mod_mul; lia).
      apply Z.div_mul. lia.
    + replace (E + s - E) with s by lia. by rewrite Hsplit.
Qed.

(** [x] has the value [v / 2]. *)
Definition half_value (x : float) (v : Z) : Prop :=
  2 * (mant x * 2 ^ Z.max 0 (expo x)) = v * 2 ^ Z.max 0 (- expo x).

Lemma round_half_value x v : half_value x v → round x = rne v 2.
Proof.
  unfold half_value, round. intros Hv.
  set (A := mant x * 2 ^ Z.max 0 (expo x)) in *.
  set (B := 2 ^ Z.max 0 (- expo x)) in *.
  assert (HB : 0 < B) by (apply Z.pow_pos_nonneg; lia).
  rewrite <- (rne_scale A B 2) by lia.
  replace (A * 2) with (v * B) by lia.
  rewrite (Z.mul_comm B 2). apply rne_scale; lia.
Qed.

(** [n / 2] on ints is exact. *)
Lemma round_ratio_half n : 0 ≤ n < 2 ^ 53 → half_value (round_ratio n 2) n.
Proof.
  intros Hn. unfold round_ratio.
  destruct (Z.eqb_spec n 0) as [->|Hn0]; [done|].
  change (Z.log2 2) with 1.
  pose proof (Z.log2_spec n ltac:(lia)) as HL.
  assert (HL53 : Z.log2 n < 53) by (apply Z.log2_lt_pow2; lia).
  pose proof (Z.log2_nonneg n) as HL0.
  set (L := Z.log2 n) in *.
  rewrite (Z.max_r 0 (- (L - 1 - 53))) by lia.
  rewrite (Z.max_l 0 (L - 1 - 53)) by lia.
  change (2 ^ 0) with 1. rewrite Z.mul_1_r.
  assert (Hq0 : n * 2 ^ (- (L - 1 - 53)) / 2 = n * 2 ^ (53 - L)).
  { replace (- (L - 1 - 53)) with (53 - L + 1) by lia.
    rewrite Z.pow_add_r by lia. change (2 ^ 1) with 2.
    rewrite Z.mul_assoc. apply Z.div_mul. lia. }
  rewrite Hq0.
  assert (Hge : 2 ^ 53 ≤ n * 2 ^ (53 - L)).
  { replace (2 ^ 53) with (2 ^ L * 2 ^ (53 - L))
      by (rewrite <- Z.pow_add_r by lia; f_equal; lia).
    apply Z.mul_le_mono_nonneg_r; [|lia]. apply Z.pow_nonneg. lia. }
  destruct (Z.ltb_spec (n * 2 ^ (53 - L)) (2 ^ 53)) as [Hlt|_]; [lia|].
  rewrite (Z.max_r 0 (- (L - 1 - 53 + 1))) by lia.
  rewrite (Z.max_l 0 (L - 1 - 53 + 1)) by lia.
  change (2 ^ 0) with 1. rewrite Z.mul_1_r.
  replace (- (L - 1 - 53 + 1)) with (52 - L + 1) by lia.
  rewrite Z.pow_add_r by lia. change (2 ^ 1) with 2.
  rewrite Z.mul_assoc.
  rewrite rne_exact by (lia || apply Z.mod_mul; lia).
  rewrite Z.div_mul by lia.
  unfold half_value; cbn [mant expo].
  rewrite (Z.max_l 0 (L - 1 - 53 + 1)) by lia.
  rewrite (Z.max_r 0 (- (L - 1 - 53 + 1))) by lia.
  change (2 ^ 0) with 1.
  replace (- (L - 1 - 53 + 1)) with (52 - L + 1) by lia.
  rewrite Z.pow_add_r by lia. change (2 ^ 1) with 2. ring.
Qed.

(** Adding an int to a half keeps it exact below [2 ^ 52]. *)
Lemma add_half_value x v s :
  half_value x v → 0 ≤ v → 0 ≤ s → v + 2 * s < 2 ^ 53 →
  half_value (add x (of_int s)) (v + 2 * s).
Proof.
  unfold half_value. intros Hv Hv0 Hs Hsum.
  rewrite of_int_small by lia. unfold add; cbn [mant expo].
  destruct (Z_le_gt_dec 0 (expo x)) as [He|He].
  - (* an integer value *)
    rewrite Z.min_r by lia.
    rewrite (Z.max_r 0 (expo x)) in Hv by lia.
    rewrite (Z.max_l 0 (- expo x)) in Hv by lia.
    change (2 ^ 0) with 1 in *. rewrite !Z.sub_0_r.
    change (2 ^ (0 - 0)) with 1. rewrite Z.mul_1_r in *.
    set (S := mant x * 2 ^ expo x + s).
    assert (HS : 2 * S = v + 2 * s) by (subst S; lia).
    assert (0 ≤ S) by lia.
    destruct (round_mant_exact S 0 0) as (M' & E' & HR & HE & HM); [lia..|].
    change (2 ^ 0) with 1 in HR, HM. rewrite Z.mul_1_r in HR, HM.
    rewrite HR. cbn [mant expo]. assert (E' = 0) as -> by lia.
    rewrite Z.sub_diag in HM. change (2 ^ 0) with 1 in HM.
    change (Z.max 0 0) with 0. change (Z.max 0 (- 0)) with 0.
    change (2 ^ 0) with 1. lia.
  - rewrite Z.min_l by lia. rewrite Z.sub_diag. change (2 ^ 0) with 1.
    rewrite Z.mul_1_r.
    rewrite (Z.max_l 0 (expo x)) in Hv by lia.
    rewrite (Z.max_r 0 (- expo x)) in Hv by lia.
    change (2 ^ 0) with 1 in Hv. rewrite Z.mul_1_r in Hv.
    set (e := expo x) in *.
    assert (Hpow : 2 ^ (- e) = 2 * 2 ^ (- e - 1)).
    { replace (- e) with (1 + (- e - 1)) at 1 by lia.
      by rewrite Z.pow_add_r by lia. }
    assert (HP : 0 < 2 ^ (- e - 1)) by (apply Z.pow_pos_nonneg; lia).
    rewrite Z.sub_0_l.
    assert (HS : mant x + s * 2 ^ (- e) = (v + 2 * s) * 2 ^ (- e - 1)).
    { rewrite Hpow in *. lia. }
    rewrite HS.
    destruct (round_mant_exact (v + 2 * s) (- e - 1) e)
      as (M' & E' & -> & HE & HM); [lia..|].
    cbn [mant expo].
    rewrite (Z.max_l 0 E') by lia. rewrite (Z.max_r 0 (- E')) by lia.
    change (2 ^ 0) with 1. rewrite Z.mul_1_r.
    assert (HQ : 0 < 2 ^ (E' - e)) by (apply Z.pow_pos_nonneg; lia).
    assert (HR : 0 < 2 ^ (- E')) by (apply Z.pow_pos_nonneg; lia).
    assert (Hsplit : 2 ^ (- e) = 2 ^ (- E') * 2 ^ (E' - e)).
    { rewrite <- Z.pow_add_r by lia. f_equal. lia. }
    apply (Z.mul_cancel_r _ _ (2 ^ (E' - e))); [lia|].
    rewrite <- Z.mul_assoc, HM, <- Z.mul_assoc, <- Hsplit, Hpow. ring.
Qed.

End PyFloat_facts.

Section PyFloat_order.
Import Float64 PyFloat.

Lemma compare_mul_r n m p : 0 < p → (n * p ?= m * p) = (n ?= m).
Proof.
  intros Hp. destruct (Z.compare_spec n m) as [->|Hlt|Hgt].
  - apply Z.compare_refl.
  - apply Z.compare_lt_iff. by apply Z.mul_lt_mono_pos_r.
  - apply Z.compare_gt_iff. by apply Z.mul_lt_mono_pos_r.
Qed.

Lemma compare_cross x y :
  compare x y =
  Z.compare (mant x * 2 ^ Z.max 0 (expo x) * 2 ^ Z.max 0 (- expo y))
            (mant y * 2 ^ Z.max 0 (expo y) * 2 ^ Z.max 0 (- expo x)).
Proof.
  unfold compare. set (e := Z.min (expo x) (expo y)).
  set (k := Z.max 0 (- expo x) + Z.max 0 (- expo y) + e).
  assert (Hk : 0 ≤ k) by lia.
  assert (HK : 0 < 2 ^ k) by (apply Z.pow_pos_nonneg; lia).
  rewrite <- (compare_mul_r _ _ (2 ^ k)) by done.
  f_equal.
  - rewrite <- !Z.mul_assoc, <- !Z.pow_add_r by lia. do 2 f_equal. lia.
  - rewrite <- !Z.mul_assoc, <- !Z.pow_add_r by lia. do 2 f_equal. lia.
Qed.

(** Halves compare as their numerators. *)
Lemma compare_half_value x y v u :
  half_value x v → half_value y u → compare x y = Z.compare v u.
Proof.
  unfold half_value. intros Hx Hy. rewrite compare_cross.
  set (A := mant x * 2 ^ Z.max 0 (expo x)) in *.
  set (B := mant y * 2 ^ Z.max 0 (expo y)) in *.
  set (P := 2 ^ Z.max 0 (- expo x)) in *.
  set (Q := 2 ^ Z.max 0 (- expo y)) in *.
  assert (HP : 0 < P) by (apply Z.pow_pos_nonneg; lia).
  assert (HQ : 0 < Q) by (apply Z.pow_pos_nonneg; lia).
  rewrite <- (compare_mul_r (A * Q) _ 2) by lia.
  assert (A * Q * 2 = v * (P * Q)) as ->
    by (transitivity (2 * A * Q); [ring | rewrite Hx; ring]).
  assert (B * P * 2 = u * (P * Q)) as ->
    by (transitivity (2 * B * P); [ring | rewrite Hy; ring]).
  apply compare_mul_r. by apply Z.mul_pos_pos.
Qed.

End PyFloat_order.

(** ** More of PIL: new images, cropping and pasting

    [getpixel im y x] is the pixel in row [y] and column [x]. *)

Module PilOps.
Import Float64 Pil.

(** [CLIP8]: an ink component as a byte. *)
Definition clip8 (v : Z) : Z := Z.max 0 (Z.min 255 v).

(** [Image.new("RGB", size, color)] with the size check of [_check_size]
    and the ink clipped to bytes. *)
Definition new_rgb (size : Z * Z) (color : Z * Z * Z) : Py.result Image :=
  if (size.1 <? 0) || (size.2 <? 0)
  then Py.Raise (Py.mk_exn "ValueError" "Width and height must be >= 0")
  else Py.Ok (new size (clip8 color.1.1, clip8 color.1.2, clip8 color.2)).

(** [Image.MAX_IMAGE_PIXELS], [int(1024 * 1024 * 1024 // 4 // 3)]. *)
Definition MAX_IMAGE_PIXELS : Z := 1024 * 1024 * 1024 / 4 / 3.

(** [Image._decompression_bomb_check(size)]; between the limit and twice
    the limit it only warns. *)
Definition _decompression_bomb_check (size : Z * Z) : Py.result () :=
  let pixels := Z.max 1 size.1 * Z.max 1 size.2 in
  if 2 * MAX_IMAGE_PIXELS <? pixels
  then Py.Raise (Py.mk_exn "DecompressionBombError"
         ("Image size (" +:+ pretty pixels +:+ " pixels) exceeds limit of " +:+
          pretty (2 * MAX_IMAGE_PIXELS) +:+
          " pixels, could be decompression bomb DOS attack."))
  else Py.Ok ().

(** [im.crop(box)] for a box [(left, upper, right, lower)] of floats: the
    coordinates are rounded, the region outside the image is black. *)
Definition crop (im : Image) (box : float * float * float * float)
    : Py.result Image :=
  let left := box.1.1.1 in
  let upper := box.1.1.2 in
  let right := box.1.2 in
  let lower := box.2 in
  if bool_decide (compare right left = Lt)
  then Py.Raise (Py.mk_exn "ValueError"
                   "Coordinate 'right' is less than 'left'")
  else if bool_decide (compare lower upper = Lt)
  then Py.Raise (Py.mk_exn "ValueError"
                   "Coordinate 'lower' is less than 'upper'")
  else
    let x0 := PyFloat.round left in
    let y0 := PyFloat.round upper in
    let x1 := PyFloat.round right in
    let y1 := PyFloat.round lower in
    match _decompression_bomb_check (Z.abs (x1 - x0), Z.abs (y1 - y0)) with
    | Py.Raise e => Py.Raise e
    | Py.Ok _ =>
        Py.Ok (mkImage (Z.max 0 (x1 - x0)) (Z.max 0 (y1 - y0)) (λ y x,
          if bool_decide (0 ≤ y + y0 < height im ∧ 0 ≤ x + x0 < width im)
          then getpixel im (y + y0) (x + x0)
          else (0, 0, 0)))
    end.

(** The value [dest.paste(im, offset)] leaves in [dest], for two RGB
    images and [offset = (x, y)]: the box of [im]'s size at the offset,
    clipped to [dest], takes [im]'s pixels. *)
Definition paste (dest im : Image) (offset : Z * Z) : Image :=
  mkImage (width dest) (height dest) (λ y x,
    if bool_decide (0 ≤ x - offset.1 < width im ∧ 0 ≤ y - offset.2 < height im)
    then getpixel im (y - offset.2) (x - offset.1)
    else getpixel dest y x).

End PilOps.

(** ** [backend/utils/image_processor.py]: squares *)

Module ImageSquare.
Import Float64 Pil PilOps.

(** [ImageProcessor.crop_to_square(image)]; the result is a new image. *)
Definition crop_to_square (image : Image) : Py.result Image :=
  let width := Pil.width image in
  let height := Pil.height image in
  let size := Z.min width height in
  let left := round_ratio (width - size) 2 in
  let top := round_ratio (height - size) 2 in
  let right := PyFloat.add left (of_int size) in
  let bottom := PyFloat.add top (of_int size) in
  crop image (left, top, right, bottom).

(** [ImageProcessor.pad_to_square(image, fill_color)]; the Python default
    is [fill_color=(0, 0, 0)].  The result is a new image. *)
Definition pad_to_square (image : Image) (fill_color : Z * Z * Z)
    : Py.result Image :=
  let width := Pil.width image in
  let height := Pil.height image in
  let size := Z.max width height in
  match new_rgb (size, size) fill_color with
  | Py.Raise e => Py.Raise e
  | Py.Ok padded =>
      let offset := ((size - width) / 2, (size - height) / 2) in
      Py.Ok (paste padded image offset)
  end.

End ImageSquare.

Example crop_to_square_5x2 :
  (λ im, (Pil.width im, Pil.height im)) <$>
    [Pil.new (5, 2) (1, 2, 3); Pil.new (6, 3) (1, 2, 3);
     Pil.new (4, 1) (1, 2, 3); Pil.new (2, 7) (1, 2, 3)]
  = [(5, 2); (6, 3); (4, 1); (2, 7)] ∧
  (λ im, match ImageSquare.crop_to_square im with
         | Py.Ok out => Some (Pil.width out, Pil.height out)
         | Py.Raise _ => None
         end) <$>
    [Pil.new (5, 2) (1, 2, 3); Pil.new (6, 3) (1, 2, 3);
     Pil.new (4, 1) (1, 2, 3); Pil.new (2, 7) (1, 2, 3)]
  = [Some (2, 2); Some (2, 3); Some (0, 1); Some (2, 2)].
Proof. split; reflexivity. Qed.

(** ** Facts about the squares *)

Section ImageSquare_facts.
Import Float64 Pil PilOps ImageSquare.

(** Rounding a half to even, in closed form. *)
Lemma rne_two n :
  rne n 2 = (n + 1) / 2 - (if n mod 4 =? 1 then 1 else 0).
Proof.
  unfold rne. pose proof (Zmod_odd (n / 2)) as Hodd.
  destruct (Z.ltb_spec 2 (2 * (n mod 2))) as [H1|H1];
    destruct (Z.eqb_spec (2 * (n mod 2)) 2) as [H2|H2];
    destruct (Z.odd (n / 2));
    destruct (Z.eqb_spec (n mod 4) 1) as [H4|H4];
    cbn [orb andb]; Z.to_euclidean_division_equations; lia.
Qed.

(** The box [crop_to_square] computes, rounded: the halves are exact
    doubles. *)
Lemma crop_to_square_run image :
  let w := width image in
  let h := height image in
  let s := Z.min w h in
  0 ≤ s → Z.max w h < 2 ^ 31 →
  let x0 := rne (w - s) 2 in
  let y0 := rne (h - s) 2 in
  let x1 := rne (w + s) 2 in
  let y1 := rne (h + s) 2 in
  crop_to_square image =
  match _decompression_bomb_check (Z.abs (x1 - x0), Z.abs (y1 - y0)) with
  | Py.Raise e => Py.Raise e
  | Py.Ok _ =>
      Py.Ok (mkImage (Z.max 0 (x1 - x0)) (Z.max 0 (y1 - y0)) (λ y x,
        if bool_decide (0 ≤ y + y0 < h ∧ 0 ≤ x + x0 < w)
        then getpixel image (y + y0) (x + x0)
        else (0, 0, 0)))
  end.
Proof.
  intros w h s Hs Hmax x0 y0 x1 y1.
  change (2 ^ 31) with 2147483648 in Hmax.
  assert (Hbox : ∀ n, 0 ≤ n → n < 2 ^ 31 → s ≤ n →
            let lo := round_ratio (n - s) 2 in
            let hi := PyFloat.add lo (of_int s) in
            PyFloat.round lo = rne (n - s) 2 ∧
            PyFloat.round hi = rne (n + s) 2 ∧
            compare hi lo ≠ Lt).
  { intros n Hn0 Hn Hsn lo hi. change (2 ^ 31) with 2147483648 in Hn.
    assert (Hlo : half_value lo (n - s))
      by (apply round_ratio_half; change (2 ^ 53) with 9007199254740992; lia).
    assert (Hhi : half_value hi (n - s + 2 * s))
      by (apply add_half_value;
          [done | try change (2 ^ 53) with 9007199254740992; lia..]).
    split; [by apply round_half_value|]. split.
    - rewrite (round_half_value hi _ Hhi). f_equal. lia.
    - rewrite (compare_half_value hi lo _ _ Hhi Hlo).
      intros Hlt. rewrite Z.compare_lt_iff in Hlt. lia. }
  assert (Hw31 : w < 2 ^ 31) by (change (2 ^ 31) with 2147483648; lia).
  assert (Hh31 : h < 2 ^ 31) by (change (2 ^ 31) with 2147483648; lia).
  destruct (Hbox w ltac:(lia) Hw31 ltac:(lia)) as (Hx0 & Hx1 & Hcx).
  destruct (Hbox h ltac:(lia) Hh31 ltac:(lia)) as (Hy0 & Hy1 & Hcy).
  cbv zeta in *. unfold crop_to_square, crop. cbn [fst snd].
  fold w h s.
  rewrite bool_decide_eq_false_2 by done.
  rewrite bool_decide_eq_false_2 by done.
  by rewrite Hx0, Hx1, Hy0, Hy1.
Qed.

End ImageSquare_facts.

(** ** Properties of the squares *)

Section ImageSquare_properties.
Import Float64 Pil PilOps ImageSquare.

(** [crop_to_square] cuts a window out of the middle of the image: the
    window lies inside the image, centred to within half a pixel, and
    holds the image's pixels.  Its short side is the image's short side
    [s]; its long side is [s] as well when the two sides differ by an even
    amount [d] or [s] is even.  When [d] and [s] are both odd, rounding the
    box [(d/2, d/2 + s)] half-to-even gives a long side of [s + 1] (for
    [d mod 4 = 1]) or [s - 1] (for [d mod 4 = 3]), and the result is not
    square.  (Sides below [2 ^ 31], and a window within Pillow's pixel
    limit.) *)
Theorem crop_to_square_window (image : Image) :
  let w := width image in
  let h := height image in
  let s := Z.min w h in
  let d := Z.max w h - s in
  let delta := if (d mod 2 =? 0) || (s mod 2 =? 0) then 0
               else if d mod 4 =? 1 then 1 else -1 in
  0 ≤ s → Z.max w h < 2 ^ 31 → s * (s + 1) ≤ 2 * MAX_IMAGE_PIXELS →
  ∃ out x0 y0,
    crop_to_square image = Py.Ok out ∧
    width out = (if h <=? w then s + delta else s) ∧
    height out = (if h <=? w then s else s + delta) ∧
    (0 ≤ x0 ∧ x0 + width out ≤ w ∧ -1 ≤ 2 * x0 - (w - s) ≤ 1) ∧
    (0 ≤ y0 ∧ y0 + height out ≤ h ∧ -1 ≤ 2 * y0 - (h - s) ≤ 1) ∧
    ∀ y x, 0 ≤ y < height out → 0 ≤ x < width out →
      getpixel out y x = getpixel image (y + y0) (x + x0).
Proof.
  intros w h s d delta Hs Hmax Hlimit.
  pose proof (crop_to_square_run image Hs Hmax) as Hrun.
  cbv zeta in Hrun. fold w h s in Hrun. rewrite !rne_two in Hrun.
  set (x0 := (w - s + 1) / 2 - (if (w - s) mod 4 =? 1 then 1 else 0)) in *.
  set (y0 := (h - s + 1) / 2 - (if (h - s) mod 4 =? 1 then 1 else 0)) in *.
  set (x1 := (w + s + 1) / 2 - (if (w + s) mod 4 =? 1 then 1 else 0)) in *.
  set (y1 := (h + s + 1) / 2 - (if (h + s) mod 4 =? 1 then 1 else 0)) in *.
  assert (HW : x1 - x0 = if h <=? w then s + delta else s).
  { subst x0 x1 delta d s.
    destruct (Z.leb_spec h w);
      [rewrite ?(Z.min_r w h), ?(Z.max_l w h) by lia
      |rewrite ?(Z.min_l w h), ?(Z.max_r w h) by lia];
      repeat match goal with
             | |- context [?a =? ?b] => destruct (Z.eqb_spec a b)
             end; cbn [orb];
      Z.to_euclidean_division_equations; lia. }
  assert (HH : y1 - y0 = if h <=? w then s else s + delta).
  { subst y0 y1 delta d s.
    destruct (Z.leb_spec h w);
      [rewrite ?(Z.min_r w h), ?(Z.max_l w h) by lia
      |rewrite ?(Z.min_l w h), ?(Z.max_r w h) by lia];
      repeat match goal with
             | |- context [?a =? ?b] => destruct (Z.eqb_spec a b)
             end; cbn [orb];
      Z.to_euclidean_division_equations; lia. }
  assert (Hdelta : -1 ≤ delta ≤ 1 ∧ (s = 0 → delta = 0)).
  { unfold delta. split.
    - repeat case_match; lia.
    - intros ->. change (0 mod 2 =? 0) with true. by rewrite orb_true_r. }
  assert (HX : 0 ≤ x0 ∧ x0 + (x1 - x0) ≤ w ∧ -1 ≤ 2 * x0 - (w - s) ≤ 1).
  { subst x0 x1 s.
    repeat match goal with
           | |- context [?a =? ?b] => destruct (Z.eqb_spec a b)
           end; Z.to_euclidean_division_equations; lia. }
  assert (HY : 0 ≤ y0 ∧ y0 + (y1 - y0) ≤ h ∧ -1 ≤ 2 * y0 - (h - s) ≤ 1).
  { subst y0 y1 s.
    repeat match goal with
           | |- context [?a =? ?b] => destruct (Z.eqb_spec a b)
           end; Z.to_euclidean_division_equations; lia. }
  assert (Hpix : Z.max 1 (Z.abs (x1 - x0)) * Z.max 1 (Z.abs (y1 - y0))
                 ≤ 2 * MAX_IMAGE_PIXELS).
  { destruct (Z.eq_dec s 0) as [Hs0|Hs0].
    - destruct Hdelta as [_ Hd0]. rewrite HW, HH, Hd0, Hs0 by done.
      destruct (h <=? w); by vm_compute.
    - etrans; [|exact Hlimit].
      rewrite HW, HH. destruct (h <=? w).
      + rewrite (Z.mul_comm s (s + 1)).
        apply Z.mul_le_mono_nonneg; lia.
      + apply Z.mul_le_mono_nonneg; lia. }
  unfold _decompression_bomb_check in Hrun. cbn [fst snd] in Hrun.
  destruct (Z.ltb_spec (2 * MAX_IMAGE_PIXELS)
              (Z.max 1 (Z.abs (x1 - x0)) * Z.max 1 (Z.abs (y1 - y0))))
    as [Hbad|_]; [lia|].
  assert (HW0 : 0 ≤ x1 - x0) by (rewrite HW; destruct (h <=? w); lia).
  assert (HH0 : 0 ≤ y1 - y0) by (rewrite HH; destruct (h <=? w); lia).
  eexists _, x0, y0. split; [exact Hrun|]. cbn [width height getpixel].
  rewrite !Z.max_r by done.
  split; [exact HW|]. split; [exact HH|]. split; [exact HX|].
  split; [exact HY|].
  intros y x Hy Hx. rewrite bool_decide_eq_true_2; [done|]. lia.
Qed.

Lemma crop_to_square_window_witness :
  let image := Pil.new (6, 3) (10, 20, 30) in
  (0 ≤ Z.min (width image) (height image) ∧
   Z.max (width image) (height image) < 2 ^ 31 ∧
   Z.min (width image) (height image) * (Z.min (width image) (height image) + 1)
     ≤ 2 * MAX_IMAGE_PIXELS) ∧
  ∃ out, crop_to_square image = Py.Ok out ∧ width out = 2 ∧ height out = 3.
Proof.
  intros image.
  assert (H1 : 0 ≤ Z.min (width image) (height image)) by (simpl; lia).
  assert (H2 : Z.max (width image) (height image) < 2 ^ 31) by (simpl; lia).
  assert (H3 : Z.min (width image) (height image)
               * (Z.min (width image) (height image) + 1)
               ≤ 2 * MAX_IMAGE_PIXELS) by (vm_compute; congruence).
  split; [exact (conj H1 (conj H2 H3))|].
  destruct (crop_to_square_window image H1 H2 H3)
    as (out & x0 & y0 & Hout & Hw & Hh & _).
  exists out. split; [exact Hout|]. split; [exact Hw | exact Hh].
Defined.



(** [pad_to_square] returns a square whose side is the longer side of
    the image.  The image sits in it unchanged and whole, centred with the
    odd pixel of margin on the right or bottom; every other pixel has the
    fill colour, its components clipped to bytes. *)
Theorem pad_to_square_centered (image : Image) (fill_color : Z * Z * Z) :
  let w := width image in
  let h := height image in
  let s := Z.max w h in
  let ox := (s - w) / 2 in
  let oy := (s - h) / 2 in
  0 ≤ w → 0 ≤ h →
  ∃ out,
    pad_to_square image fill_color = Py.Ok out ∧
    width out = s ∧ height out = s ∧
    (0 ≤ ox ∧ 0 ≤ (s - w) - 2 * ox ≤ 1) ∧
    (0 ≤ oy ∧ 0 ≤ (s - h) - 2 * oy ≤ 1) ∧
    (∀ y x, 0 ≤ y < h → 0 ≤ x < w →
       0 ≤ y + oy < s ∧ 0 ≤ x + ox < s ∧
       getpixel out (y + oy) (x + ox) = getpixel image y x) ∧
    (∀ y x, 0 ≤ y < s → 0 ≤ x < s →
       ¬ (oy ≤ y < oy + h ∧ ox ≤ x < ox + w) →
       getpixel out y x =
       (clip8 fill_color.1.1, clip8 fill_color.1.2, clip8 fill_color.2)).
Proof.
  intros w h s ox oy Hw Hh.
  unfold pad_to_square, new_rgb. fold w h s. cbn [fst snd].
  destruct (Z.ltb_spec s 0) as [Hneg|_]; [lia|]. cbn [orb].
  eexists. split; [done|]. unfold paste, new.
  cbn [width height getpixel fst snd]. fold ox oy.
  assert (Hox : 0 ≤ ox ∧ 0 ≤ s - w - 2 * ox ≤ 1)
    by (subst ox; Z.to_euclidean_division_equations; lia).
  assert (Hoy : 0 ≤ oy ∧ 0 ≤ s - h - 2 * oy ≤ 1)
    by (subst oy; Z.to_euclidean_division_equations; lia).
  split; [done|]. split; [done|]. split; [done|]. split; [done|]. split.
  - intros y x Hy Hx. split; [lia|]. split; [lia|].
    rewrite bool_decide_eq_true_2 by lia. f_equal; lia.
  - intros y x Hy Hx Hout. rewrite bool_decide_eq_false_2; [done|]. lia.
Qed.

Lemma pad_to_square_centered_witness :
  let image := Pil.new (5, 2) (10, 20, 30) in
  (0 ≤ width image ∧ 0 ≤ height image) ∧
  ∃ out, pad_to_square image (0, 300, -4) = Py.Ok out ∧
         width out = 5 ∧ height out = 5.
Proof.
  intros image.
  assert (H1 : 0 ≤ width image) by (simpl; lia).
  assert (H2 : 0 ≤ height image) by (simpl; lia).
  split; [exact (conj H1 H2)|].
  destruct (pad_to_square_centered image (0, 300, -4) H1 H2)
    as (out & Hout & Hw & Hh & _).
  exists out. split; [exact Hout|]. split; [exact Hw | exact Hh].
Defined.

End ImageSquare_properties.

(** ** Single-precision arithmetic *)

Module Float32.
Import Float64 (rne).

(** A non-negative binary32 value [mant * 2 ^ expo], as NumPy's [float32]
    arrays hold; only the finite, non-negative range is modelled. *)
Record float := mk { mant : Z; expo : Z }.

(** Round the exact value [M * 2 ^ E] to 24 significant bits. *)
Definition round_mant (M E : Z) : float :=
  let s := Z.log2 M - 23 in
  if s <=? 0 then mk M E else mk (rne M (2 ^ s)) (E + s).

(** [np.float32(k)] for an int. *)
Definition of_int (k : Z) : float := round_mant k 0.

(** [x * y]. *)
Definition mul (x y : float) : float :=
  round_mant (mant x * mant y) (expo x + expo y).

(** [x / y] for [y] other than zero: the quotient of the mantissas,
    rounded at the binade's scale. *)
Definition div (x y : float) : float :=
  let n := mant x in
  let d := mant y in
  if n =? 0 then mk 0 0 else
  let e0 := Z.log2 n - Z.log2 d - 24 in
  let q0 := (n * 2 ^ Z.max 0 (- e0)) / (d * 2 ^ Z.max 0 e0) in
  let e := if q0 <? 2 ^ 24 then e0 else e0 + 1 in
  mk (rne (n * 2 ^ Z.max 0 (- e)) (d * 2 ^ Z.max 0 e)) (e + expo x - expo y).

(** Comparison of the values of two floats, at their common scale. *)
Definition compare (x y : float) : comparison :=
  let e := Z.min (expo x) (expo y) in
  Z.compare (mant x * 2 ^ (expo x - e)) (mant y * 2 ^ (expo y - e)).

Definition eqb (x y : float) : bool :=
  match compare x y with Eq => true | _ => false end.

Definition leb (x y : float) : bool :=
  match compare x y with Gt => false | _ => true end.

(** [np.clip(x, lo, hi)]. *)
Definition clip (x lo hi : float) : float :=
  match compare x lo with
  | Lt => lo
  | _ => match compare x hi with Gt => hi | _ => x end
  end.

(** The cast to an integer type: truncation, the floor on non-negative
    values. *)
Definition to_int (x : float) : Z :=
  (mant x * 2 ^ Z.max 0 (expo x)) / 2 ^ Z.max 0 (- expo x).

End Float32.

(** The model agrees with the bit patterns of NumPy's [float32]:
    [1/255] is [0x1.010102p-8], [128/255] is [0x1.010102p-1]. *)
Example float32_div_255 :
  (λ c, Float32.div (Float32.of_int c) (Float32.of_int 255)) <$> [1; 128; 254] =
  [Float32.mk 8421505 (-31); Float32.mk 8421505 (-24);
   Float32.mk 16711423 (-24)].
Proof. reflexivity. Qed.

(** ** [backend/utils/image_processor.py]: images as arrays *)

Module ImageArrays.
Import Np Pil.

(** An array of shape [(h, w, 3)] as its rows of RGB triples. *)
Abbreviation array3 A := (list (list (A * A * A))) (only parsing).

Definition map3 {A B} (f : A → B) (a : array3 A) : array3 B :=
  (λ row : list (A * A * A),
     (λ p : A * A * A, (f p.1.1, f p.1.2, f p.2)) <$> row) <$> a.

(** [np.array(image)] for an RGB image. *)
Definition of_image (image : Image) : array3 Z :=
  (λ y, getpixel image y <$> seqZ 0 (width image)) <$> seqZ 0 (height image).

(** [Image.fromarray(a)] for a uint8 array of shape [(h, w, 3)]. *)
Definition fromarray (a : array3 Z) : Image :=
  mkImage (Z.of_nat (length (default [] (head a)))) (Z.of_nat (length a))
    (λ y x, default (0, 0, 0)
       (if bool_decide (0 ≤ y ∧ 0 ≤ x)
        then a !! Z.to_nat y ≫= λ row, row !! Z.to_nat x
        else None)).

(** [ImageProcessor.normalize_image(image)]: a [float32] array. *)
Definition normalize_image (image : Image) : array3 Float32.float :=
  map3 (λ c, Float32.div (Float32.of_int c) (Float32.of_int 255))
       (of_image image).

(** What [denormalize_image] returns: a PIL image or a uint8 array. *)
Inductive Denormalized :=
  | AsPIL (image : Image)
  | AsNumpy (image_array : array3 Z).

(** [ImageProcessor.denormalize_image(image_array, format)] on a
    [float32] array; the Python default is [format="PIL"]. *)
Definition denormalize_image (image_array : array3 Float32.float)
    (format : string) : Denormalized :=
  let image_array :=
    map3 (λ v, Float32.to_int
                 (Float32.clip (Float32.mul v (Float32.of_int 255))
                    (Float32.of_int 0) (Float32.of_int 255)))
         image_array in
  if String.eqb format "PIL" then AsPIL (fromarray image_array)
  else AsNumpy image_array.

End ImageArrays.

Example normalize_red :
  ImageArrays.normalize_image (Pil.new (2, 1) (255, 0, 51)) =
  [[(Float32.mk 8388608 (-23), Float32.mk 0 0, Float32.mk 13421773 (-26));
    (Float32.mk 8388608 (-23), Float32.mk 0 0, Float32.mk 13421773 (-26))]].
Proof. reflexivity. Qed.

(** ** Facts about the conversions *)

Section ImageArrays_facts.
Import Np Pil ImageArrays.

Lemma of_image_lookup image y x :
  0 ≤ y < height image → 0 ≤ x < width image →
  of_image image !! Z.to_nat y ≫= (λ row, row !! Z.to_nat x)
  = Some (getpixel image y x).
Proof.
  intros Hy Hx. unfold of_image.
  rewrite list_lookup_fmap, lookup_seqZ_lt by lia. simpl.
  rewrite list_lookup_fmap, lookup_seqZ_lt by lia. simpl.
  by rewrite !Z.add_0_l, !Z2Nat.id by lia.
Qed.

Lemma map3_lookup {A B} (f : A → B) (a : array3 A) i j :
  map3 f a !! i ≫= (λ row, row !! j) =
  (λ p : A * A * A, (f p.1.1, f p.1.2, f p.2)) <$> (a !! i ≫= (λ row, row !! j)).
Proof.
  unfold map3. rewrite list_lookup_fmap.
  destruct (a !! i) as [row|]; [|done]. simpl.
  by rewrite list_lookup_fmap.
Qed.

Lemma map3_shape {A B} (f : A → B) (a : array3 A) :
  length (map3 f a) = length a ∧
  length (default [] (head (map3 f a))) = length (default [] (head a)).
Proof.
  unfold map3. split; [by rewrite length_fmap|].
  destruct a as [|row a]; [done|]. simpl. by rewrite length_fmap.
Qed.

Lemma of_image_shape image :
  0 ≤ width image → 1 ≤ height image →
  Z.of_nat (length (of_image image)) = height image ∧
  Z.of_nat (length (default [] (head (of_image image)))) = width image.
Proof.
  intros Hw Hh. unfold of_image. split.
  - rewrite length_fmap, length_seqZ. lia.
  - destruct (seqZ 0 (height image)) as [|y0 l] eqn:Hseq.
    + apply (f_equal length) in Hseq. rewrite length_seqZ in Hseq.
      simpl in Hseq. lia.
    + simpl. rewrite length_fmap, length_seqZ. lia.
Qed.

(** The path of one byte through [normalize_image] and
    [denormalize_image]: [c / 255], times 255, clipped, truncated. *)
Definition byte_round_trip (c : Z) : Z :=
  Float32.to_int
    (Float32.clip
       (Float32.mul (Float32.div (Float32.of_int c) (Float32.of_int 255))
                    (Float32.of_int 255))
       (Float32.of_int 0) (Float32.of_int 255)).

(** In single precision every byte survives the round trip, and its
    normalized value lies in [0, 1], at the ends only for 0 and 255. *)
Lemma byte_round_trip_id c :
  0 ≤ c ≤ 255 →
  let v := Float32.div (Float32.of_int c) (Float32.of_int 255) in
  byte_round_trip c = c ∧
  Float32.leb (Float32.of_int 0) v = true ∧
  Float32.leb v (Float32.of_int 1) = true ∧
  Float32.eqb v (Float32.of_int 0) = (c =? 0) ∧
  Float32.eqb v (Float32.of_int 1) = (c =? 255).
Proof.
  intros Hc. cbv zeta.
  set (norm := λ c, Float32.div (Float32.of_int c) (Float32.of_int 255)).
  change (Float32.div (Float32.of_int c) (Float32.of_int 255)) with (norm c).
  assert (Hall : Forall (λ c,
      byte_round_trip c = c ∧
      Float32.leb (Float32.of_int 0) (norm c) = true ∧
      Float32.leb (norm c) (Float32.of_int 1) = true ∧
      Float32.eqb (norm c) (Float32.of_int 0) = (c =? 0) ∧
      Float32.eqb (norm c) (Float32.of_int 1) = (c =? 255))
    (seqZ 0 256)).
  { apply (bool_decide_unpack _). by vm_compute. }
  rewrite Forall_forall in Hall. apply Hall, elem_of_seqZ. lia.
Qed.

End ImageArrays_facts.

(** ** Properties of the conversions *)

Section ImageArrays_properties.
Import Np Pil ImageArrays.

(** [normalize_image] returns an array of the image's shape whose values
    all lie in [0, 1]: 0.0 exactly for the byte 0 and 1.0 exactly for the
    byte 255. *)
Theorem normalize_image_range (image : Image) (y x : Z) :
  valid_pixels image → 0 ≤ width image → 1 ≤ height image →
  0 ≤ y < height image → 0 ≤ x < width image →
  let a := normalize_image image in
  Z.of_nat (length a) = height image ∧
  Z.of_nat (length (default [] (head a))) = width image ∧
  ∃ r g b,
    a !! Z.to_nat y ≫= (λ row, row !! Z.to_nat x) = Some (r, g, b) ∧
    Forall2 (λ v c,
        Float32.leb (Float32.of_int 0) v = true ∧
        Float32.leb v (Float32.of_int 1) = true ∧
        Float32.eqb v (Float32.of_int 0) = (c =? 0) ∧
        Float32.eqb v (Float32.of_int 1) = (c =? 255))
      [r; g; b]
      [(getpixel image y x).1.1; (getpixel image y x).1.2;
       (getpixel image y x).2].
Proof.
  intros Hpx Hw Hh Hy Hx a. subst a. unfold normalize_image.
  destruct (of_image_shape image Hw Hh) as [Hlen Hrow].
  destruct (map3_shape
              (λ c, Float32.div (Float32.of_int c) (Float32.of_int 255))
              (of_image image)) as [-> ->].
  split; [done|]. split; [done|].
  rewrite map3_lookup, of_image_lookup by done. simpl.
  eexists _, _, _. split; [done|].
  destruct (Hpx y x Hy Hx) as (Hr & Hg & Hb).
  destruct (byte_round_trip_id _ Hr) as (_ & ? & ? & ? & ?).
  destruct (byte_round_trip_id _ Hg) as (_ & ? & ? & ? & ?).
  destruct (byte_round_trip_id _ Hb) as (_ & ? & ? & ? & ?).
  repeat constructor; done.
Qed.

Lemma normalize_image_range_witness :
  let image := Pil.new (4, 3) (255, 0, 51) in
  (valid_pixels image ∧ 0 ≤ width image ∧ 1 ≤ height image ∧
   0 ≤ 2 < height image ∧ 0 ≤ 1 < width image) ∧
  Z.of_nat (length (normalize_image image)) = 3.
Proof.
  intros image.
  assert (H1 : valid_pixels image) by (intros y x _ _; simpl; lia).
  assert (H2 : 0 ≤ width image) by (simpl; lia).
  assert (H3 : 1 ≤ height image) by (simpl; lia).
  assert (H4 : 0 ≤ 2 < height image) by (simpl; lia).
  assert (H5 : 0 ≤ 1 < width image) by (simpl; lia).
  split; [exact (conj H1 (conj H2 (conj H3 (conj H4 H5))))|].
  exact (proj1 (normalize_image_range image 2 1 H1 H2 H3 H4 H5)).
Defined.

(** Normalizing an image and denormalizing the array gives back an image
    of the same size with the same pixels: in single precision
    [c / 255 * 255] truncates to [c] for every byte [c]. *)
Theorem normalize_denormalize_round_trip (image : Image) :
  valid_pixels image → 0 ≤ width image → 1 ≤ height image →
  ∃ out,
    denormalize_image (normalize_image image) "PIL" = AsPIL out ∧
    width out = width image ∧ height out = height image ∧
    ∀ y x, 0 ≤ y < height image → 0 ≤ x < width image →
      getpixel out y x = getpixel image y x.
Proof.
  intros Hpx Hw Hh. unfold denormalize_image, normalize_image.
  change ("PIL" =? "PIL")%string with true. cbv iota.
  eexists. split; [done|]. unfold fromarray. cbn [width height getpixel].
  destruct (of_image_shape image Hw Hh) as [Hlen Hrow].
  split; [|split].
  - by rewrite !(proj2 (map3_shape _ _)).
  - by rewrite !(proj1 (map3_shape _ _)).
  - intros y x Hy Hx. rewrite bool_decide_eq_true_2 by lia.
    rewrite !map3_lookup, of_image_lookup by done. simpl.
    destruct (Hpx y x Hy Hx) as (Hr & Hg & Hb).
    destruct (getpixel image y x) as [[r g] b]. cbn [fst snd] in *.
    pose proof (proj1 (byte_round_trip_id r Hr)) as Er.
    pose proof (proj1 (byte_round_trip_id g Hg)) as Eg.
    pose proof (proj1 (byte_round_trip_id b Hb)) as Eb.
    unfold byte_round_trip in *. by rewrite Er, Eg, Eb.
Qed.

Lemma normalize_denormalize_round_trip_witness :
  let image := Pil.new (4, 3) (255, 0, 51) in
  (valid_pixels image ∧ 0 ≤ width image ∧ 1 ≤ height image) ∧
  ∃ out,
    denormalize_image (normalize_image image) "PIL" = AsPIL out ∧
    width out = 4 ∧ height out = 3.
Proof.
  intros image.
  assert (H1 : valid_pixels image) by (intros y x _ _; simpl; lia).
  assert (H2 : 0 ≤ width image) by (simpl; lia).
  assert (H3 : 1 ≤ height image) by (simpl; lia).
  split; [exact (conj H1 (conj H2 H3))|].
  destruct (normalize_denormalize_round_trip image H1 H2 H3)
    as (out & Hout & Hw & Hh & _).
  exists out. split; [exact Hout|]. split; [exact Hw | exact Hh].
Defined.

End ImageArrays_properties.

(** ** Further properties of [resize_image] *)

Section Resize_properties.
Import Pil PilStore ImageProcessor.







End Resize_properties.

(** ** Further properties of the orchestrator *)

Section Orchestrator_properties.
Import Np Pil PilStore ImageProcessor Masking Inference.

(** *** Strings *)

Lemma lower_char_idempotent c : Py.lower_char (Py.lower_char c) = Py.lower_char c.
Proof. by destruct c as [[] [] [] [] [] [] [] []]. Qed.

Lemma lower_idempotent s : Py.lower (Py.lower s) = Py.lower s.
Proof.
  induction s as [|c s IH]; [done|].
  cbn [Py.lower]. by rewrite lower_char_idempotent, IH.
Qed.

Lemma append_inv_head (pre s s' : string) : pre +:+ s = pre +:+ s' → s = s'.
Proof.
  induction pre as [|c pre IH]; [done|].
  change (String c pre +:+ s) with (String c (pre +:+ s)).
  change (String c pre +:+ s') with (String c (pre +:+ s')).
  intros [= H]. by apply IH.
Qed.

Lemma length_append (s t : string) :
  String.length (s +:+ t) = (String.length s + String.length t)%nat.
Proof.
  induction s as [|c s IH]; [done|].
  change (String c s +:+ t) with (String c (s +:+ t)).
  cbn [String.length]. by rewrite IH.
Qed.

Lemma append_inv_tail (s s' post : string) : s +:+ post = s' +:+ post → s = s'.
Proof.
  revert s'. induction s as [|c s IH]; intros [|c' s'] H.
  - done.
  - apply (f_equal String.length) in H.
    rewrite !length_append in H. cbn [String.length] in H. lia.
  - apply (f_equal String.length) in H.
    rewrite !length_append in H. cbn [String.length] in H. lia.
  - change (String c s +:+ post) with (String c (s +:+ post)) in H.
    change (String c' s' +:+ post) with (String c' (s' +:+ post)) in H.
    injection H as -> H. f_equal. by apply IH.
Qed.


(** *** Categories and case *)

(** The region table is looked up with the lower-cased category, so the
    mask does not depend on the case of the category.  The prompt does not
    either for a category of the prompt table; for any other category the
    prompt quotes the category as given, so two spellings that differ in
    case give different prompts. *)
Theorem category_case (image : Image) (garment_type base_prompt : string) :
  create_garment_region_mask image garment_type =
    create_garment_region_mask image (Py.lower garment_type) ∧
  (Py.lower garment_type ∈ prompt_keys →
   _generate_prompt garment_type base_prompt =
     _generate_prompt (Py.lower garment_type) base_prompt) ∧
  (Py.lower garment_type ∉ prompt_keys →
   garment_type ≠ Py.lower garment_type →
   _generate_prompt garment_type base_prompt ≠
     _generate_prompt (Py.lower garment_type) base_prompt).
Proof.
  split; [|split].
  - unfold create_garment_region_mask, garment_region.
    by rewrite lower_idempotent.
  - intros Hk. unfold _generate_prompt. rewrite lower_idempotent.
    destruct (garment_prompts !! Py.lower garment_type) eqn:Hlookup; [done|].
    by apply not_elem_of_list_to_map_2 in Hlookup.
  - intros Hk Hne.
    rewrite (generate_prompt_unknown garment_type) by done.
    rewrite (generate_prompt_unknown (Py.lower garment_type))
      by (by rewrite lower_idempotent).
    intros Heq. apply Hne.
    apply append_inv_head in Heq. apply append_inv_tail in Heq.
    by apply append_inv_head in Heq.
Qed.

(** *** One call *)





End Orchestrator_properties.

(** ** The batch, entry by entry *)

Section Batch_properties.
Import Np Pil PilStore ImageProcessor Masking Inference.







End Batch_properties.

(** ** [backend/utils/image_processor.py]: blur *)

Module ImageFilters.
Import Np Cv2 Pil.

(** One channel of [np.array(image)]. *)
Definition plane (image : Image) (channel : Z * Z * Z → Z) : ndarray :=
  tabulate (height image) (width image) (λ y x, channel (getpixel image y x)).

(** [ImageProcessor.apply_gaussian_blur(image, kernel_size)]; the Python
    default is [kernel_size=(5, 5)].  [cv2.GaussianBlur] filters the three
    channels separately; the result is a new image. *)
Definition apply_gaussian_blur (image : Image) (kernel_size : Z * Z) : Image :=
  let r := GaussianBlur (plane image (λ p, p.1.1)) kernel_size in
  let g := GaussianBlur (plane image (λ p, p.1.2)) kernel_size in
  let b := GaussianBlur (plane image (λ p, p.2)) kernel_size in
  mkImage (shape r).2 (shape r).1 (λ y x, (pix r y x, pix g y x, pix b y x)).

End ImageFilters.

Section ImageFilters_properties.
Import Np Cv2 Pil ImageFilters.

Lemma plane_uint8 image channel :
  0 ≤ height image → 0 ≤ width image →
  (∀ y x, 0 ≤ y < height image → 0 ≤ x < width image →
     0 ≤ channel (getpixel image y x) ≤ 255) →
  is_uint8 (height image) (width image) (plane image channel).
Proof. intros Hh Hw Hc. by apply is_uint8_tabulate. Qed.

Lemma plane_window_const image channel c y x :
  1 ≤ height image → 1 ≤ width image →
  (∀ y x, 0 ≤ y < height image → 0 ≤ x < width image →
     0 ≤ channel (getpixel image y x) ≤ 255) →
  0 ≤ y < height image → 0 ≤ x < width image →
  (∀ dy dx, -2 ≤ dy ≤ 2 → -2 ≤ dx ≤ 2 →
     getpixel image (borderInterpolate (y + dy) (height image))
                    (borderInterpolate (x + dx) (width image)) = c) →
  pix (GaussianBlur (plane image channel) (5, 5)) y x = channel c.
Proof.
  intros Hh Hw Hc Hy Hx Hflat. apply pix_get.
  apply (GaussianBlur_window_const (height image) (width image));
    [apply plane_uint8; (lia || done) | done..|].
  intros dy dx Hdy Hdx. apply pix_get. unfold plane.
  rewrite get_tabulate by (apply borderInterpolate_range; lia).
  by rewrite Hflat.
Qed.

(** The 5x5 blur keeps the image's size, and a pixel whose 5x5
    neighbourhood (mirrored at the border) has one colour keeps that
    colour; so flat areas, and a uniform image as a whole, come out
    unchanged. *)
Theorem apply_gaussian_blur_flat (image : Image) :
  valid_pixels image → 1 ≤ height image → 1 ≤ width image →
  let out := apply_gaussian_blur image (5, 5) in
  width out = width image ∧ height out = height image ∧
  ∀ y x c, 0 ≤ y < height image → 0 ≤ x < width image →
    (∀ dy dx, -2 ≤ dy ≤ 2 → -2 ≤ dx ≤ 2 →
       getpixel image (borderInterpolate (y + dy) (height image))
                      (borderInterpolate (x + dx) (width image)) = c) →
    getpixel out y x = c.
Proof.
  intros Hpx Hh Hw out. subst out. unfold apply_gaussian_blur.
  cbn [width height getpixel].
  assert (Hr : ∀ y x, 0 ≤ y < height image → 0 ≤ x < width image →
                 0 ≤ (getpixel image y x).1.1 ≤ 255)
    by (intros y x Hy Hx; apply (Hpx y x Hy Hx)).
  assert (Hg : ∀ y x, 0 ≤ y < height image → 0 ≤ x < width image →
                 0 ≤ (getpixel image y x).1.2 ≤ 255)
    by (intros y x Hy Hx; apply (Hpx y x Hy Hx)).
  assert (Hb : ∀ y x, 0 ≤ y < height image → 0 ≤ x < width image →
                 0 ≤ (getpixel image y x).2 ≤ 255)
    by (intros y x Hy Hx; apply (Hpx y x Hy Hx)).
  rewrite (is_uint8_shape (height image) (width image))
    by (lia || apply GaussianBlur_uint8, plane_uint8; (lia || done)).
  split; [done|]. split; [done|].
  intros y x c Hy Hx Hflat.
  rewrite (plane_window_const image (λ p, p.1.1) c),
          (plane_window_const image (λ p, p.1.2) c),
          (plane_window_const image (λ p, p.2) c) by done.
  by destruct c as [[? ?] ?].
Qed.

Lemma apply_gaussian_blur_flat_witness :
  let image := Pil.new (6, 4) (10, 20, 30) in
  (valid_pixels image ∧ 1 ≤ height image ∧ 1 ≤ width image) ∧
  width (apply_gaussian_blur image (5, 5)) = 6 ∧
  height (apply_gaussian_blur image (5, 5)) = 4.
Proof.
  intros image.
  assert (H1 : valid_pixels image) by (intros y x _ _; simpl; lia).
  assert (H2 : 1 ≤ height image) by (simpl; lia).
  assert (H3 : 1 ≤ width image) by (simpl; lia).
  split; [exact (conj H1 (conj H2 H3))|].
  destruct (apply_gaussian_blur_flat image H1 H2 H3) as (Hw & Hh & _).
  split; [exact Hw | exact Hh].
Defined.

End ImageFilters_properties.

(** ** Base64, as [base64.b64encode] and [base64.b64decode] do it

    [bytes] and ASCII [str] values are both strings of 8-bit characters. *)

Module Base64.

(** The value of a byte, and the byte of a value. *)
Definition code (c : ascii) : Z := Z.of_N (N_of_ascii c).
Definition chr (n : Z) : ascii := ascii_of_N (Z.to_N n).

Definition alphabet : string :=
  "ABCDEFGHIJKLMNOPQRSTUVWXYZabcdefghijklmnopqrstuvwxyz0123456789+/".

Definition pad : ascii := "="%char.

(** The character of a sextet. *)
Definition digit (v : Z) : ascii :=
  default pad (String.get (Z.to_nat v) alphabet).

(** The sextet of a character of the alphabet. *)
Definition value (ch : ascii) : option Z :=
  let n := code ch in
  if (65 <=? n) && (n <=? 90) then Some (n - 65)
  else if (97 <=? n) && (n <=? 122) then Some (n - 71)
  else if (48 <=? n) && (n <=? 57) then Some (n + 4)
  else if n =? 43 then Some 62
  else if n =? 47 then Some 63
  else None.

(** [base64.b64encode(data).decode()]: three bytes give four characters,
    a shorter tail is padded. *)
Fixpoint b64encode (data : string) : string :=
  match data with
  | EmptyString => EmptyString
  | String a EmptyString =>
      String (digit (code a / 4))
        (String (digit (code a mod 4 * 16))
           (String pad (String pad EmptyString)))
  | String a (String b EmptyString) =>
      String (digit (code a / 4))
        (String (digit (code a mod 4 * 16 + code b / 16))
           (String (digit (code b mod 16 * 4)) (String pad EmptyString)))
  | String a (String b (String c data)) =>
      String (digit (code a / 4))
        (String (digit (code a mod 4 * 16 + code b / 16))
           (String (digit (code b mod 16 * 4 + code c / 64))
              (String (digit (code c mod 64)) (b64encode data))))
  end.

Definition Error (msg : string) : Py.exn := Py.mk_exn "binascii.Error" msg.

(** One more decoded byte in front of the rest. *)
Definition emit (byte : Z) (rest : Py.result string) : Py.result string :=
  match rest with
  | Py.Ok data => Py.Ok (String (chr byte) data)
  | Py.Raise e => Py.Raise e
  end.

(** [binascii.a2b_base64], not strict: characters outside the alphabet
    are skipped, padding that completes a quad ends the input, and a quad
    left open at the end is an error.  [quad_pos] counts the sextets of
    the open quad, [leftchar] holds its pending bits, [pads] the padding
    characters seen since the last sextet, [n_out] the bytes decoded so
    far. *)
Fixpoint a2b_base64 (s : string) (quad_pos : nat) (leftchar : Z) (pads : nat)
    (n_out : nat) : Py.result string :=
  match s with
  | EmptyString =>
      match quad_pos with
      | 0%nat => Py.Ok EmptyString
      | 1%nat =>
          Py.Raise (Error
            ("Invalid base64-encoded string: number of data characters (" +:+
             pretty (n_out / 3 * 4 + 1)%nat +:+
             ") cannot be 1 more than a multiple of 4"))
      | _ => Py.Raise (Error "Incorrect padding")
      end
  | String ch s =>
      if Ascii.eqb ch pad then
        if (2 <=? quad_pos)%nat then
          if (4 <=? quad_pos + S pads)%nat then Py.Ok EmptyString
          else a2b_base64 s quad_pos leftchar (S pads) n_out
        else a2b_base64 s quad_pos leftchar pads n_out
      else
        match value ch with
        | None => a2b_base64 s quad_pos leftchar pads n_out
        | Some v =>
            match quad_pos with
            | 0%nat => a2b_base64 s 1 v 0 n_out
            | 1%nat =>
                emit (leftchar * 4 + v / 16)
                     (a2b_base64 s 2 (v mod 16) 0 (S n_out))
            | 2%nat =>
                emit (leftchar * 16 + v / 4)
                     (a2b_base64 s 3 (v mod 4) 0 (S n_out))
            | _ =>
                emit (leftchar * 64 + v) (a2b_base64 s 0 0 0 (S n_out))
            end
        end
  end.

Fixpoint is_ascii (s : string) : bool :=
  match s with
  | EmptyString => true
  | String ch s => (code ch <? 128) && is_ascii s
  end.

(** [base64.b64decode(s)] for a [str]. *)
Definition b64decode (s : string) : Py.result string :=
  if is_ascii s then a2b_base64 s 0 0 0 0
  else Py.Raise (Py.mk_exn "ValueError"
                   "string argument should contain only ASCII characters").

End Base64.

(** The values CPython returns. *)
Example b64encode_examples :
  Base64.b64encode <$> [""; "A"; "AB"; "ABC"; "ABCD"] =
  [""; "QQ=="; "QUI="; "QUJD"; "QUJDRA=="].
Proof. reflexivity. Qed.

Example b64decode_examples :
  Base64.b64decode <$> ["QUJDRA=="; "QUJD
RA=="; "=QUJD"; "QQ=QQ=="] =
  [Py.Ok "ABCD"; Py.Ok "ABCD"; Py.Ok "ABC";
   Py.Ok (String "A" (String (Base64.chr 4) (String (Base64.chr 16) "")))].
Proof. reflexivity. Qed.

Example b64decode_errors :
  Base64.b64decode <$> ["QQ"; "Q"; "QUJDR"] =
  [Py.Raise (Base64.Error "Incorrect padding");
   Py.Raise (Base64.Error "Invalid base64-encoded string: number of data characters (1) cannot be 1 more than a multiple of 4");
   Py.Raise (Base64.Error "Invalid base64-encoded string: number of data characters (5) cannot be 1 more than a multiple of 4")].
Proof. reflexivity. Qed.

(** ** [backend/utils/image_processor.py]: images as base64 text *)

Module ImageBase64.
Import Pil.

(** What the two conversions take from Pillow: the PNG file of an image
    ([image.save(buffer, format="PNG")]) and the RGB image of a file
    ([Image.open(BytesIO(data)).convert("RGB")], which may raise). *)
Record PngCodec := mkPngCodec {
  save_png : Image → string;
  open_rgb : string → Py.result Image
}.

(** [ImageProcessor.image_to_base64(image)]. *)
Definition image_to_base64 (codec : PngCodec) (image : Image) : string :=
  Base64.b64encode (save_png codec image).

(** [ImageProcessor.base64_to_image(base64_string)]. *)
Definition base64_to_image (codec : PngCodec) (base64_string : string)
    : Py.result Image :=
  match Base64.b64decode base64_string with
  | Py.Ok image_data => open_rgb codec image_data
  | Py.Raise e => Py.Raise e
  end.

End ImageBase64.

(** ** Facts about base64 *)

Section Base64_facts.
Import Base64.

Lemma code_range a : 0 ≤ code a < 256.
Proof.
  unfold code. pose proof (N_ascii_bounded a) as H.
  change 256 with (Z.of_N 256). lia.
Qed.

Lemma chr_code a : chr (code a) = a.
Proof. unfold chr, code. rewrite N2Z.id. apply ascii_N_embedding. Qed.

(** A sextet's character is in the alphabet, is not the padding, and
    decodes to the sextet. *)
Lemma value_digit v :
  0 ≤ v < 64 →
  value (digit v) = Some v ∧ Ascii.eqb (digit v) pad = false ∧
  (code (digit v) <? 128) = true.
Proof.
  intros Hv.
  assert (Hall : Forall (λ v, value (digit v) = Some v ∧
                              Ascii.eqb (digit v) pad = false ∧
                              (code (digit v) <? 128) = true) (seqZ 0 64)).
  { apply (bool_decide_unpack _). by vm_compute. }
  rewrite Forall_forall in Hall. apply Hall, elem_of_seqZ. lia.
Qed.

Lemma a2b_sextet v s quad_pos leftchar pads n_out :
  0 ≤ v < 64 →
  a2b_base64 (String (digit v) s) quad_pos leftchar pads n_out =
  match quad_pos with
  | 0%nat => a2b_base64 s 1 v 0 n_out
  | 1%nat =>
      emit (leftchar * 4 + v / 16) (a2b_base64 s 2 (v mod 16) 0 (S n_out))
  | 2%nat =>
      emit (leftchar * 16 + v / 4) (a2b_base64 s 3 (v mod 4) 0 (S n_out))
  | _ => emit (leftchar * 64 + v) (a2b_base64 s 0 0 0 (S n_out))
  end.
Proof.
  intros Hv. destruct (value_digit v Hv) as (Hval & Hpad & _).
  cbn [a2b_base64]. by rewrite Hpad, Hval.
Qed.

(** The four sextets of three bytes, and the three bytes of four
    sextets. *)
Lemma sextets a b c :
  let s1 := code a / 4 in
  let s2 := code a mod 4 * 16 + code b / 16 in
  let s3 := code b mod 16 * 4 + code c / 64 in
  let s4 := code c mod 64 in
  (0 ≤ s1 < 64 ∧ 0 ≤ s2 < 64 ∧ 0 ≤ s3 < 64 ∧ 0 ≤ s4 < 64) ∧
  (0 ≤ code a mod 4 * 16 < 64 ∧ 0 ≤ code b mod 16 * 4 < 64) ∧
  s1 * 4 + s2 / 16 = code a ∧
  s2 mod 16 * 16 + s3 / 4 = code b ∧
  s3 mod 4 * 64 + s4 = code c ∧
  s1 * 4 + code a mod 4 * 16 / 16 = code a ∧
  s2 mod 16 * 16 + code b mod 16 * 4 / 4 = code b.
Proof.
  pose proof (code_range a). pose proof (code_range b).
  pose proof (code_range c). cbv zeta.
  repeat split; Z.to_euclidean_division_equations; lia.
Qed.

Lemma a2b_b64encode data :
  (∀ leftchar n_out,
     a2b_base64 (b64encode data) 0 leftchar 0 n_out = Py.Ok data) ∧
  (∀ a leftchar n_out,
     a2b_base64 (b64encode (String a data)) 0 leftchar 0 n_out
     = Py.Ok (String a data)) ∧
  (∀ a b leftchar n_out,
     a2b_base64 (b64encode (String a (String b data))) 0 leftchar 0 n_out
     = Py.Ok (String a (String b data))).
Proof.
  induction data as [|c data (IH0 & IH1 & IH2)].
  - split; [done|]. split.
    + intros a leftchar n_out.
      destruct (sextets a a a) as ((H1 & _) & (H2 & _) & _ & _ & _ & E1 & _).
      cbn [b64encode]. rewrite !a2b_sextet by done.
      cbn [a2b_base64 emit]. change (Ascii.eqb pad pad) with true.
      cbn [Nat.leb Nat.add emit]. by rewrite E1, chr_code.
    + intros a b leftchar n_out.
      destruct (sextets a b b)
        as ((H1 & H2 & _) & (_ & H3) & E1 & _ & _ & _ & E2).
      cbn [b64encode]. rewrite !a2b_sextet by done.
      cbn [a2b_base64 emit]. change (Ascii.eqb pad pad) with true.
      cbn [Nat.leb Nat.add emit]. by rewrite E1, E2, !chr_code.
  - split; [intros; apply IH1|]. split; [intros; apply IH2|].
    intros a b leftchar n_out.
    destruct (sextets a b c)
      as ((H1 & H2 & H3 & H4) & _ & E1 & E2 & E3 & _).
    cbn [b64encode]. rewrite !a2b_sextet by done.
    rewrite IH0. cbn [emit]. by rewrite E1, E2, E3, !chr_code.
Qed.

Lemma is_ascii_b64encode data :
  is_ascii (b64encode data) = true ∧
  (∀ a, is_ascii (b64encode (String a data)) = true) ∧
  (∀ a b, is_ascii (b64encode (String a (String b data))) = true).
Proof.
  induction data as [|c data (IH0 & IH1 & IH2)].
  - split; [done|]. split.
    + intros a.
      destruct (sextets a a a) as ((H1 & _) & (H2 & _) & _).
      cbn [b64encode is_ascii].
      rewrite (proj2 (proj2 (value_digit _ H1))),
              (proj2 (proj2 (value_digit _ H2))). done.
    + intros a b.
      destruct (sextets a b b) as ((H1 & H2 & _) & (_ & H3) & _).
      cbn [b64encode is_ascii].
      rewrite (proj2 (proj2 (value_digit _ H1))),
              (proj2 (proj2 (value_digit _ H2))),
              (proj2 (proj2 (value_digit _ H3))). done.
  - split; [intros; apply IH1|]. split; [intros; apply IH2|].
    intros a b.
    destruct (sextets a b c) as ((H1 & H2 & H3 & H4) & _).
    cbn [b64encode is_ascii].
    rewrite (proj2 (proj2 (value_digit _ H1))),
            (proj2 (proj2 (value_digit _ H2))),
            (proj2 (proj2 (value_digit _ H3))),
            (proj2 (proj2 (value_digit _ H4))), IH0. done.
Qed.

(** Decoding an encoding gives the bytes back. *)
Lemma b64decode_b64encode data : b64decode (b64encode data) = Py.Ok data.
Proof.
  unfold b64decode. rewrite (proj1 (is_ascii_b64encode data)).
  apply a2b_b64encode.
Qed.

(** A character that is neither of the alphabet nor the padding is
    skipped. *)
Lemma a2b_skip ch s quad_pos leftchar pads n_out :
  value ch = None → Ascii.eqb ch pad = false →
  a2b_base64 (String ch s) quad_pos leftchar pads n_out =
  a2b_base64 s quad_pos leftchar pads n_out.
Proof. intros Hv Hp. cbn [a2b_base64]. by rewrite Hp, Hv. Qed.

Lemma a2b_skip_inside ch before after :
  value ch = None → Ascii.eqb ch pad = false →
  ∀ quad_pos leftchar pads n_out,
    a2b_base64 (before +:+ String ch after) quad_pos leftchar pads n_out
    = a2b_base64 (before +:+ after) quad_pos leftchar pads n_out.
Proof.
  intros Hv Hp.
  induction before as [|c before IH]; intros quad_pos leftchar pads n_out.
  - change (EmptyString +:+ String ch after) with (String ch after).
    change (EmptyString +:+ after) with after. by apply a2b_skip.
  - change (String c before +:+ String ch after)
      with (String c (before +:+ String ch after)).
    change (String c before +:+ after) with (String c (before +:+ after)).
    cbn [a2b_base64].
    repeat case_match; try done; by rewrite !IH.
Qed.

Lemma is_ascii_skip_inside ch before after :
  (code ch <? 128) = true →
  is_ascii (before +:+ String ch after) = is_ascii (before +:+ after).
Proof.
  intros Ha. induction before as [|c before IH].
  - change (is_ascii (String ch after) = is_ascii after).
    cbn [is_ascii]. by rewrite Ha.
  - change (String c before +:+ String ch after)
      with (String c (before +:+ String ch after)).
    change (String c before +:+ after) with (String c (before +:+ after)).
    cbn [is_ascii]. by rewrite IH.
Qed.

End Base64_facts.

(** ** Properties of the base64 conversions *)

Section ImageBase64_properties.
Import Pil Base64 ImageBase64.

(** The text [image_to_base64] returns is read back by [base64_to_image]
    as exactly the PNG file that was written: the pair returns what
    Pillow makes of its own file, so with a lossless PNG the image comes
    back with its size and pixels. *)
Theorem image_base64_round_trip (codec : PngCodec) (image : Image) :
  base64_to_image codec (image_to_base64 codec image) =
  open_rgb codec (save_png codec image).
Proof.
  unfold base64_to_image, image_to_base64.
  by rewrite b64decode_b64encode.
Qed.

(** Line breaks, blanks and any other ASCII characters outside the base64
    alphabet, wherever they stand in the text, do not change what
    [base64_to_image] returns. *)
Theorem base64_to_image_skips_junk (codec : PngCodec)
    (before after : string) (ch : ascii) :
  value ch = None → Ascii.eqb ch pad = false → (code ch <? 128) = true →
  base64_to_image codec (before +:+ String ch after) =
  base64_to_image codec (before +:+ after).
Proof.
  intros Hv Hp Ha. unfold base64_to_image, b64decode.
  rewrite is_ascii_skip_inside by done.
  by rewrite a2b_skip_inside.
Qed.

Lemma base64_to_image_skips_junk_witness :
  let codec := mkPngCodec (λ _, "png"%string)
                 (λ data, Py.Ok (Pil.new (Z.of_nat (String.length data), 1)
                                    (0, 0, 0))) in
  let newline := ascii_of_N 10 in
  (value newline = None ∧ Ascii.eqb newline pad = false ∧
   (code newline <? 128) = true) ∧
  base64_to_image codec ("QUJD" +:+ String newline "RA==") =
  base64_to_image codec ("QUJD" +:+ "RA==").
Proof.
  intros codec newline.
  assert (H1 : value newline = None) by reflexivity.
  assert (H2 : Ascii.eqb newline pad = false) by reflexivity.
  assert (H3 : (code newline <? 128) = true) by reflexivity.
  split; [exact (conj H1 (conj H2 H3))|].
  exact (base64_to_image_skips_junk codec "QUJD" "RA==" newline H1 H2 H3).
Defined.

End ImageBase64_properties.

(** ** The refined mask on the garment rectangle *)

Section Refined_region_facts.
Import Np Cv2 Pil Masking.

(** Two steps of the 5x5 ellipse followed by one step of the blur's
    aperture stay under the 15x15 ellipse. *)
Lemma refine_reach_in_dilation_kernel d1 d2 ty tx :
  d1 ∈ anchor_offsets (getStructuringElement (5, 5)) →
  d2 ∈ anchor_offsets (getStructuringElement (5, 5)) →
  -2 ≤ ty ≤ 2 → -2 ≤ tx ≤ 2 →
  (- (d1.1 + d2.1) - ty, - (d1.2 + d2.2) - tx)
    ∈ anchor_offsets (getStructuringElement
        (Config.MASK_DILATION_KERNEL, Config.MASK_DILATION_KERNEL)).
Proof.
  intros Hd1 Hd2 Hty Htx.
  set (B := anchor_offsets (getStructuringElement (5, 5))) in *.
  set (E := anchor_offsets (getStructuringElement
              (Config.MASK_DILATION_KERNEL, Config.MASK_DILATION_KERNEL))).
  assert (Hall : Forall (λ d1, Forall (λ d2, Forall (λ ty, Forall (λ tx,
              (- (d1.1 + d2.1) - ty, - (d1.2 + d2.2) - tx) ∈ E)
              (seqZ (-2) 5)) (seqZ (-2) 5)) B) B).
  { apply (bool_decide_unpack _). by vm_compute. }
  rewrite Forall_forall in Hall. specialize (Hall d1 Hd1).
  rewrite Forall_forall in Hall. specialize (Hall d2 Hd2).
  rewrite Forall_forall in Hall.
  specialize (Hall ty ltac:(apply elem_of_seqZ; lia)).
  rewrite Forall_forall in Hall. apply Hall. apply elem_of_seqZ. lia.
Qed.

Lemma refine_kernel_centre :
  (0, 0) ∈ anchor_offsets (getStructuringElement (5, 5)).
Proof. apply (bool_decide_unpack _). by vm_compute. Qed.

(** The raw mask is saturated at every pixel whose whole aperture lies
    under the dilation kernel placed on one pixel of the rectangle. *)
Lemma create_garment_region_mask_near image garment_type x1 y1 x2 y2
    py px y x :
  garment_region (Pil.width image) (Pil.height image) garment_type
    = (x1, y1, x2, y2) →
  0 ≤ py < Pil.height image → 0 ≤ px < Pil.width image →
  Z.min x1 x2 ≤ px ≤ Z.max x1 x2 → Z.min y1 y2 ≤ py ≤ Z.max y1 y2 →
  0 ≤ y < Pil.height image → 0 ≤ x < Pil.width image →
  (∀ ty tx, -2 ≤ ty ≤ 2 → -2 ≤ tx ≤ 2 →
     (py - y - ty, px - x - tx) ∈ anchor_offsets (getStructuringElement
        (Config.MASK_DILATION_KERNEL, Config.MASK_DILATION_KERNEL))) →
  get (create_garment_region_mask image garment_type) y x = Some 255.
Proof.
  intros Hr Hpy Hpx Hinx Hiny Hy Hx Hker.
  rewrite (create_garment_region_mask_unfold _ _ _ _ _ _ Hr).
  set (h := Pil.height image) in *. set (w := Pil.width image) in *.
  set (m1 := rectangle (zeros h w) (x1, y1) (x2, y2) 255).
  assert (Hm0 : is_uint8 h w (zeros h w)) by (apply is_uint8_zeros; lia).
  assert (Hm1 : is_uint8 h w m1) by (apply rectangle_uint8; [done | lia]).
  set (k := getStructuringElement _) in *.
  assert (Hm2 : is_uint8 h w (dilate_once m1 k)) by by apply dilate_once_uint8.
  assert (Hg1 : get m1 py px = Some 255).
  { unfold m1. rewrite (rectangle_get h w) by done.
    by rewrite bool_decide_eq_true_2. }
  apply (GaussianBlur_window_const h w); [done..|].
  intros dy dx Hdy Hdx.
  pose proof (borderInterpolate_close y dy h Hy Hdy) as Hcy.
  pose proof (borderInterpolate_close x dx w Hx Hdx) as Hcx.
  pose proof (borderInterpolate_range (y + dy) h ltac:(lia)) as Hry.
  pose proof (borderInterpolate_range (x + dx) w ltac:(lia)) as Hrx.
  set (y' := borderInterpolate (y + dy) h) in *.
  set (x' := borderInterpolate (x + dx) w) in *.
  destruct (dilate_once_reach h w m1 k y' x' (py - y', px - x') 255)
    as (v & Hv & Hle); [done | | done..| |].
  { replace (py - y') with (py - y - (y' - y)) by lia.
    replace (px - x') with (px - x - (x' - x)) by lia.
    apply Hker; lia. }
  { cbn [fst snd]. by replace (y' + (py - y')) with py by lia;
      replace (x' + (px - x')) with px by lia. }
  destruct (is_uint8_get_Some h w _ _ _ _ Hm2 Hv) as (_ & _ & Hb).
  apply pix_get. rewrite Hv. f_equal. lia.
Qed.

(** Erosion keeps a lower bound that holds under the whole kernel. *)
Lemma erode_once_lower h w src kernel y x b :
  is_uint8 h w src → 0 ≤ y < h → 0 ≤ x < w → b ≤ 255 →
  (∀ d, d ∈ anchor_offsets kernel →
     0 ≤ y + d.1 < h → 0 ≤ x + d.2 < w →
     b ≤ pix src (y + d.1) (x + d.2)) →
  b ≤ pix (erode_once src kernel) y x.
Proof.
  intros Hs Hy Hx Hb Hall.
  rewrite (pix_get _ _ _ _ (erode_once_get h w src kernel y x Hs Hy Hx)).
  apply foldr_min_ge; [done|].
  intros v (d & Hd & Hv)%elem_of_window.
  destruct (is_uint8_get_Some h w _ _ _ _ Hs Hv) as (Hy' & Hx' & _).
  specialize (Hall d Hd Hy' Hx'). by rewrite (pix_get _ _ _ _ Hv) in Hall.
Qed.

(** Dilation with a kernel that holds its anchor never lowers a pixel. *)
Lemma dilate_once_pix_ge h w src kernel y x :
  is_uint8 h w src → (0, 0) ∈ anchor_offsets kernel →
  0 ≤ y < h → 0 ≤ x < w →
  pix src y x ≤ pix (dilate_once src kernel) y x.
Proof.
  intros Hs Hc Hy Hx.
  destruct (is_uint8_get h w src y x Hs Hy Hx) as (v & Hv & _).
  destruct (dilate_once_extensive h w src kernel y x v Hs Hc Hv)
    as (v' & Hv' & Hle).
  by rewrite (pix_get _ _ _ _ Hv), (pix_get _ _ _ _ Hv').
Qed.

(** Closing never lowers a pixel. *)
Lemma closing_extensive h w kernel n m :
  kernel_symmetric kernel → is_uint8 h w m →
  mask_le h w m (morphologyEx m MORPH_CLOSE kernel n).
Proof.
  intros Hsym Hm. unfold morphologyEx, dilate, erode.
  apply (galois_iter_adjunction (is_uint8 h w) (mask_le h w)
           (λ x, dilate_once x kernel) (λ x, erode_once x kernel)).
  - intros x. apply dilate_once_uint8.
  - intros x. apply erode_once_uint8.
  - intros x y. by apply morph_adjunction.
  - done.
  - apply (galois_iter_ok (is_uint8 h w)); [|done].
    intros z. apply dilate_once_uint8.
  - apply mask_le_refl.
Qed.

(** Two rounds of refinement keep a pixel saturated when the mask is
    saturated on everything two steps of the kernel away from it. *)
Lemma refine_mask_keeps_saturated h w mask y x :
  is_uint8 h w mask → 0 ≤ y < h → 0 ≤ x < w →
  (∀ d1 d2, d1 ∈ anchor_offsets (getStructuringElement (5, 5)) →
            d2 ∈ anchor_offsets (getStructuringElement (5, 5)) →
     0 ≤ y + d1.1 < h → 0 ≤ x + d1.2 < w →
     0 ≤ y + d1.1 + d2.1 < h → 0 ≤ x + d1.2 + d2.2 < w →
     pix mask (y + d1.1 + d2.1) (x + d1.2 + d2.2) = 255) →
  get (refine_mask mask 2) y x = Some 255.
Proof.
  intros Hm Hy Hx Hsat. unfold refine_mask.
  set (k := getStructuringElement (5, 5)) in *.
  set (c := morphologyEx mask MORPH_CLOSE k 2).
  assert (Hc : is_uint8 h w c)
    by (unfold c, morphologyEx; by apply erode_uint8, dilate_uint8).
  assert (Hmc : mask_le h w mask c)
    by (apply closing_extensive; [apply refine_kernel_symmetric | done]).
  unfold morphologyEx, dilate, erode.
  change (get (dilate_once (dilate_once (erode_once (erode_once c k) k) k) k)
            y x = Some 255).
  set (e1 := erode_once c k).
  set (e2 := erode_once e1 k).
  set (d1 := dilate_once e2 k).
  assert (He1 : is_uint8 h w e1) by by apply erode_once_uint8.
  assert (He2 : is_uint8 h w e2) by by apply erode_once_uint8.
  assert (Hd1 : is_uint8 h w d1) by by apply dilate_once_uint8.
  assert (Hd2 : is_uint8 h w (dilate_once d1 k)) by by apply dilate_once_uint8.
  assert (H2 : 255 ≤ pix e2 y x).
  { apply (erode_once_lower h w); [done..| lia |].
    intros o1 Ho1 Hy1 Hx1.
    apply (erode_once_lower h w); [done..| lia |].
    intros o2 Ho2 Hy2 Hx2.
    specialize (Hmc _ _ Hy2 Hx2).
    rewrite (Hsat o1 o2) in Hmc by done. done. }
  pose proof (dilate_once_pix_ge h w e2 k y x He2 refine_kernel_centre Hy Hx)
    as H3.
  pose proof (dilate_once_pix_ge h w d1 k y x Hd1 refine_kernel_centre Hy Hx)
    as H4.
  fold d1 in H3.
  destruct (is_uint8_get h w _ y x Hd2 Hy Hx) as (v & Hv & Hb).
  rewrite (pix_get _ _ _ _ Hv) in H4. rewrite Hv. f_equal. lia.
Qed.

(** The refined region mask is saturated on the rectangle. *)
Lemma refined_region_mask_interior image garment_type x1 y1 x2 y2 y x :
  garment_region (Pil.width image) (Pil.height image) garment_type
    = (x1, y1, x2, y2) →
  0 ≤ y < Pil.height image → 0 ≤ x < Pil.width image →
  Z.min x1 x2 ≤ x ≤ Z.max x1 x2 → Z.min y1 y2 ≤ y ≤ Z.max y1 y2 →
  get (refine_mask (create_garment_region_mask image garment_type) 2) y x
    = Some 255.
Proof.
  intros Hr Hy Hx Hinx Hiny.
  apply (refine_mask_keeps_saturated (Pil.height image) (Pil.width image));
    [apply create_garment_region_mask_uint8; lia | done..|].
  intros d1 d2 Hd1 Hd2 Hy1 Hx1 Hy2 Hx2. apply pix_get.
  apply (create_garment_region_mask_near image garment_type x1 y1 x2 y2 y x);
    [done..|].
  intros ty tx Hty Htx.
  replace (y - (y + d1.1 + d2.1) - ty) with (- (d1.1 + d2.1) - ty) by lia.
  replace (x - (x + d1.2 + d2.2) - tx) with (- (d1.2 + d2.2) - tx) by lia.
  by apply refine_reach_in_dilation_kernel.
Qed.

End Refined_region_facts.

Section Refined_region_properties.
Import Np Cv2 Pil Masking.

(** The mask that the orchestrator hands to the generator, the region
    mask after the default two rounds of refinement, is 255 on every pixel
    of the category's rectangle; for a category without an entry in the
    region table it is 255 on the whole frame. *)
Theorem refined_mask_covers_region (image : Image) (garment_type : string)
    (x1 y1 x2 y2 : Z) :
  let w := width image in
  let h := height image in
  let refined :=
    refine_mask (create_garment_region_mask image garment_type) 2 in
  1 ≤ w < 2 ^ 32 → 1 ≤ h < 2 ^ 32 →
  garment_region w h garment_type = (x1, y1, x2, y2) →
  (∀ y x, 0 ≤ y < h → 0 ≤ x < w → x1 ≤ x ≤ x2 → y1 ≤ y ≤ y2 →
     get refined y x = Some 255) ∧
  (Py.lower garment_type ∉ region_keys →
     ∀ y x, 0 ≤ y < h → 0 ≤ x < w → get refined y x = Some 255).
Proof.
  intros w h refined Hw Hh Hr. split.
  - intros y x Hy Hx Hinx Hiny.
    apply (refined_region_mask_interior image garment_type x1 y1 x2 y2);
      [done..| lia | lia].
  - intros Hk y x Hy Hx.
    pose proof (garment_region_fallback w h garment_type Hk) as Hf.
    apply (refined_region_mask_interior image garment_type 0 0 w h);
      [done..| lia | lia].
Qed.

Lemma refined_mask_covers_region_witness :
  let image := Pil.new (512, 512) (0, 0, 255) in
  (1 ≤ width image < 2 ^ 32 ∧ 1 ≤ height image < 2 ^ 32 ∧
   garment_region 512 512 "glasses" = (128, 76, 384, 128)) ∧
  get (refine_mask (create_garment_region_mask image "glasses") 2) 76 128
    = Some 255.
Proof.
  intros image.
  assert (H1 : 1 ≤ width image < 2 ^ 32) by (simpl; lia).
  assert (H2 : 1 ≤ height image < 2 ^ 32) by (simpl; lia).
  assert (H3 : garment_region 512 512 "glasses" = (128, 76, 384, 128))
    by reflexivity.
  split; [exact (conj H1 (conj H2 H3))|].
  destruct (refined_mask_covers_region image "glasses" 128 76 384 128
              H1 H2 H3) as [Hin _].
  apply Hin; simpl; lia.
Defined.

End Refined_region_properties.

(** ** A category list shorter than the batch *)

Section Batch_category_list.
Import Np Pil PilStore ImageProcessor Masking Inference.

Lemma batch_loop_short rt self types pairs :
  types ≠ [] →
  ∀ i results σ,
  (i ≤ length types)%nat → (length types < i + length pairs)%nat →
  ∃ σ',
    batch_loop rt self i pairs (Some types) results σ =
    (Py.Raise (Py.mk_exn "IndexError" "list index out of range"), σ').
Proof.
  intros Hne. induction pairs as [|[p g] pairs IH]; intros i results σ Hi Hlen.
  { simpl in Hlen. lia. }
  destruct (decide (i < length types)%nat) as [Hlt|Hge].
  - rewrite batch_loop_cons by done. cbv zeta.
    apply IH; [lia|]. simpl in Hlen. lia.
  - cbn [batch_loop]. unfold bind at 1. unfold garment_type_at.
    destruct types as [|t types]; [done|].
    rewrite lookup_ge_None_2 by lia. unfold raise. eauto.
Qed.

End Batch_category_list.

Section Batch_category_list_properties.
Import Np Pil PilStore ImageProcessor Masking Inference.

(** A category list that is not empty but shorter than the batch makes
    the whole call raise [IndexError], whatever the images and whatever
    the earlier items did: the lookup [garment_types[i]] stands outside the
    [try], so the entries collected so far are lost. *)
Theorem batch_try_on_category_list_too_short (rt : Runtime)
    (self : InferencePipeline) (person_images garment_images : list nat)
    (types : list (option string)) (σ : World) :
  types ≠ [] →
  (length types < length person_images `min` length garment_images)%nat →
  ∃ σ',
    batch_try_on rt self person_images garment_images (Some types) σ =
    (Py.Raise (Py.mk_exn "IndexError" "list index out of range"), σ').
Proof.
  intros Hne Hlen. unfold batch_try_on.
  apply batch_loop_short; [done | lia |].
  rewrite length_zip. lia.
Qed.

Lemma batch_try_on_category_list_too_short_witness :
  ([Some "hat"] ≠ [] ∧
   (length [Some "hat"] < length [0; 2; 4]%nat `min` length [1; 3; 5]%nat)%nat) ∧
  ∃ σ',
    batch_try_on example_runtime flaky_pipeline [0; 2; 4]%nat [1; 3; 5]%nat
      (Some [Some "hat"]) batch_world =
    (Py.Raise (Py.mk_exn "IndexError" "list index out of range"), σ').
Proof.
  assert (H1 : [Some "hat"] ≠ ([] : list (option string))) by done.
  assert (H2 : (length [Some "hat"]
                < length [0; 2; 4]%nat `min` length [1; 3; 5]%nat)%nat)
    by (simpl; lia).
  split; [exact (conj H1 H2)|].
  exact (batch_try_on_category_list_too_short example_runtime flaky_pipeline
           [0; 2; 4]%nat [1; 3; 5]%nat [Some "hat"] batch_world H1 H2).
Defined.

End Batch_category_list_properties.
